(** * Sanchita Notes: the inline tokenizer, derived state and storage hook

    A shallow embedding of [App.tsx], [types.ts], the storage hook
    ([useStorage]) and [analyzeNoteContent], followed by the properties
    that the specification states about them.

    JavaScript strings are sequences of UTF-16 code units; a code unit is
    a number [N] and a string a [list N].  React state is threaded
    explicitly: every handler is a function from the state captured by the
    render it belongs to, to the state after its updates are applied. *)

From Stdlib Require Import ZArith NArith List Permutation Sorted Lia.
From Stdlib Require Import DecimalString.
From stdpp Require Import base list strings gmap.

Local Open Scope Z_scope.
Local Set Warnings "-register-all".

(** ** JavaScript strings *)

Abbreviation jsstring := (list N) (only parsing).

(** [js "abc"] is the JavaScript string literal ['abc']. *)
Definition js (s : string) : jsstring :=
  map Ascii.N_of_ascii (String.list_ascii_of_string s).

Module JS.

Definition AT : N := 64%N.    (* '@' *)
Definition HASH : N := 35%N.  (* '#' *)

(** The character class [[a-zA-Z0-9_-]]. *)
Definition is_name_char (c : N) : bool :=
  ((97 <=? c) && (c <=? 122) || (65 <=? c) && (c <=? 90) ||
   (48 <=? c) && (c <=? 57) || (c =? 95) || (c =? 45))%N.

(** The character class [\s] of ECMAScript (WhiteSpace and
    LineTerminator), which is also what [trim] strips. *)
Definition is_space (c : N) : bool :=
  ((9 <=? c) && (c <=? 13) || (c =? 32) || (c =? 160) || (c =? 5760) ||
   (8192 <=? c) && (c <=? 8202) || (c =? 8232) || (c =? 8233) ||
   (c =? 8239) || (c =? 8287) || (c =? 12288) || (c =? 65279))%N.

(** The longest prefix of name characters, as the greedy [+] takes it,
    and what follows it. *)
Fixpoint name_run (s : jsstring) : jsstring :=
  match s with
  | c :: rest => if is_name_char c then c :: name_run rest else []
  | [] => []
  end.

Fixpoint after_name_run (s : jsstring) : jsstring :=
  match s with
  | c :: rest => if is_name_char c then after_name_run rest else s
  | [] => []
  end.

(** A truthy string is a non-empty one. *)
Definition truthy (s : jsstring) : bool :=
  match s with [] => false | _ :: _ => true end.

Definition truthy_opt (o : option jsstring) : bool :=
  match o with Some s => truthy s | None => false end.

Fixpoint startsWith (s pat : jsstring) {struct pat} : bool :=
  match pat, s with
  | [], _ => true
  | p :: pat', c :: s' => (c =? p)%N && startsWith s' pat'
  | _ :: _, [] => false
  end.

(** [s.includes(pat)] *)
Fixpoint includes (s pat : jsstring) : bool :=
  startsWith s pat ||
  match s with
  | [] => false
  | _ :: s' => includes s' pat
  end.

(** [s.lastIndexOf(pat)]: the greatest index at which [pat] occurs,
    [-1] when there is none.  The search runs from the last position
    where [pat] still fits down to [0]. *)
Fixpoint lastIndexOf_from (s pat : jsstring) (i : nat) : Z :=
  if startsWith (drop i s) pat then Z.of_nat i
  else match i with
       | O => -1
       | S j => lastIndexOf_from s pat j
       end.

Definition lastIndexOf (s pat : jsstring) : Z :=
  if (length pat <=? length s)%nat
  then lastIndexOf_from s pat (length s - length pat)
  else -1.

(** [s.slice(a, b)] and [s.slice(a)]: a negative index counts from the
    end, and both are clamped to the string. *)
Definition slice_index (len : nat) (i : Z) : nat :=
  if i <? 0 then Z.to_nat (Z.max (Z.of_nat len + i) 0)
  else Nat.min (Z.to_nat i) len.

Definition slice {A} (s : list A) (a b : Z) : list A :=
  let from := slice_index (length s) a in
  let to := slice_index (length s) b in
  take (to - from) (drop from s).

Definition slice_from {A} (s : list A) (a : Z) : list A :=
  drop (slice_index (length s) a) s.

(** [s.substring(0, n)] for a non-negative literal [n]. *)
Definition substring0 (s : jsstring) (n : nat) : jsstring := take n s.

Fixpoint trimStart (s : jsstring) : jsstring :=
  match s with
  | c :: rest => if is_space c then trimStart rest else s
  | [] => []
  end.

Definition trimEnd (s : jsstring) : jsstring :=
  reverse (trimStart (reverse s)).

Definition trim (s : jsstring) : jsstring := trimEnd (trimStart s).

(** [l.includes(x)] on an array of strings. *)
Definition arr_includes (l : list jsstring) (x : jsstring) : bool :=
  bool_decide (x ∈ l).

(** A [Set] of strings keeps its members in insertion order:
    [set_add] is [Set.prototype.add], [set_has] is [has], and
    [set_of_array l] is [new Set(l)]; spreading a set, [[...s]], lists
    it in that order. *)
Definition set_has (s : list jsstring) (x : jsstring) : bool :=
  bool_decide (x ∈ s).

Definition set_add (s : list jsstring) (x : jsstring) : list jsstring :=
  if set_has s x then s else s ++ [x].

Definition set_of_array (l : list jsstring) : list jsstring :=
  fold_left set_add l [].

(** [arr.findIndex(p)]: the first index whose element satisfies [p],
    [-1] when there is none. *)
Fixpoint findIndex {A} (p : A -> bool) (l : list A) : Z :=
  match l with
  | [] => -1
  | x :: l' =>
      if p x then 0
      else let i := findIndex p l' in if i <? 0 then -1 else i + 1
  end.

(** [arr.sort(cmp)].  The sort of ECMAScript is stable, so for a
    consistent comparator its result is determined; it is computed here
    by stable insertion: an element goes before the first element of
    the sorted rest that the comparator does not put strictly before
    it. *)
Fixpoint sort_insert {A} (cmp : A -> A -> Z) (x : A) (l : list A) : list A :=
  match l with
  | [] => [x]
  | y :: l' => if cmp x y <=? 0 then x :: l else y :: sort_insert cmp x l'
  end.

Fixpoint sort {A} (cmp : A -> A -> Z) (l : list A) : list A :=
  match l with
  | [] => []
  | x :: l' => sort_insert cmp x (sort cmp l')
  end.

(** ASCII lower-casing: what [toLowerCase] does on a string whose code
    units are all below 128. *)
Definition lower_ascii_char (c : N) : N :=
  if ((65 <=? c) && (c <=? 90))%N then (c + 32)%N else c.

Definition lower_ascii (s : jsstring) : jsstring := map lower_ascii_char s.

End JS.

(** ** types.ts *)

Module Note.
Record t := mk {
  id : jsstring;
  title : jsstring;
  content : jsstring;
  folderIds : list jsstring;
  tags : list jsstring;
  summary : option jsstring;
  createdAt : Z;
  updatedAt : Z;
  isDeleted : option bool  (* optional soft-delete flag *)
}.

(** [!n.isDeleted] is false only for [isDeleted: true]. *)
Definition deleted (n : t) : bool :=
  match isDeleted n with Some true => true | _ => false end.

Definition set_isDeleted (b : bool) (n : t) : t :=
  mk (id n) (title n) (content n) (folderIds n) (tags n) (summary n)
     (createdAt n) (updatedAt n) (Some b).
End Note.

Module Folder.
Record t := mk {
  id : jsstring;
  name : jsstring;
  icon : option jsstring;
  isSystem : option bool
}.
End Folder.

Inductive ViewState := home | folders_view | tags_view | settings | editor_view | trash.

Inductive Theme := light | dark | black | system.

Definition DEFAULT_FOLDERS : list Folder.t := [].

(** ** The storage hook ([useStorage]) *)

Definition NOTES_KEY : jsstring := js "gemini_notes_data".
Definition FOLDERS_KEY : jsstring := js "gemini_folders_data".
Definition THEME_KEY : jsstring := js "gemini_notes_theme".

(** The state of the hook together with the browser's [localStorage]. *)
Record Storage := mkStorage {
  notes : list Note.t;
  folders : list Folder.t;
  theme : Theme;
  localStorage : gmap (list N) (list N)
}.

Definition theme_name (t : Theme) : jsstring :=
  match t with
  | light => js "light" | dark => js "dark"
  | black => js "black" | system => js "system"
  end.

(** ** The editor's state ([EditorView]) *)

Record Editor := mkEditor {
  content : jsstring;
  manualFolderIds : list jsstring;
  manualTags : list jsstring;
  derivedTags : list jsstring;
  tagInput : jsstring;
  folderInputValue : jsstring;
  isEditing : bool
}.

Definition set_content (c : jsstring) (ed : Editor) : Editor :=
  mkEditor c (manualFolderIds ed) (manualTags ed) (derivedTags ed)
           (tagInput ed) (folderInputValue ed) (isEditing ed).

Definition set_manualFolderIds (l : list jsstring) (ed : Editor) : Editor :=
  mkEditor (content ed) l (manualTags ed) (derivedTags ed)
           (tagInput ed) (folderInputValue ed) (isEditing ed).

Definition set_manualTags (l : list jsstring) (ed : Editor) : Editor :=
  mkEditor (content ed) (manualFolderIds ed) l (derivedTags ed)
           (tagInput ed) (folderInputValue ed) (isEditing ed).

Definition set_derivedTags (l : list jsstring) (ed : Editor) : Editor :=
  mkEditor (content ed) (manualFolderIds ed) (manualTags ed) l
           (tagInput ed) (folderInputValue ed) (isEditing ed).

Definition set_tagInput (v : jsstring) (ed : Editor) : Editor :=
  mkEditor (content ed) (manualFolderIds ed) (manualTags ed) (derivedTags ed)
           v (folderInputValue ed) (isEditing ed).

Definition set_folderInputValue (v : jsstring) (ed : Editor) : Editor :=
  mkEditor (content ed) (manualFolderIds ed) (manualTags ed) (derivedTags ed)
           (tagInput ed) v (isEditing ed).

Definition set_isEditing (b : bool) (ed : Editor) : Editor :=
  mkEditor (content ed) (manualFolderIds ed) (manualTags ed) (derivedTags ed)
           (tagInput ed) (folderInputValue ed) b.

(** ** The two regular expressions of the editor *)

(** [val.match(/S([a-zA-Z0-9_-]+)(\s)$/)] for a sigil [S].  The engine
    tries the start positions from left to right; at a sigil the greedy
    [+] takes the whole run of name characters, after which exactly one
    [\s] and the end of the input must follow.  Giving characters of the
    run back cannot help, since a name character is never [\s].  The
    result is the capture [m[1]] and the whole match [m[0]]. *)
Definition match_here (rest : jsstring) : option (jsstring * N) :=
  match JS.name_run rest, JS.after_name_run rest with
  | (_ :: _) as w, [ws] => if JS.is_space ws then Some (w, ws) else None
  | _, _ => None
  end.

Fixpoint match_trailing (sigil : N) (val : jsstring) : option (jsstring * jsstring) :=
  match val with
  | [] => None
  | c :: rest =>
      if (c =? sigil)%N then
        match match_here rest with
        | Some (w, ws) => Some (w, c :: w ++ [ws])
        | None => match_trailing sigil rest
        end
      else match_trailing sigil rest
  end.

(** [text.matchAll(/#([a-zA-Z0-9_-]+)/g)], the captures [m[1]] in the
    order of the matches.  [skip] is the number of characters that the
    previous match still covers: the next match is looked for from where
    the previous one ended. *)
Fixpoint matchAll_tags (skip : nat) (text : jsstring) : list jsstring :=
  match text with
  | [] => []
  | c :: rest =>
      match skip with
      | S k => matchAll_tags k rest
      | O =>
          if (c =? JS.HASH)%N then
            match JS.name_run rest with
            | [] => matchAll_tags O rest
            | w => w :: matchAll_tags (length w) rest
            end
          else matchAll_tags O rest
      end
  end.

#[global] Instance ViewState_eq_dec : EqDecision ViewState.
Proof. solve_decision. Defined.

(** ** The application state ([App]) *)

Record App := mkApp {
  storage : Storage;
  view : ViewState;
  activeNoteId : option jsstring;
  activeFolderId : option jsstring;
  activeTag : option jsstring;
  searchQuery : jsstring;
  isSelectionMode : bool;
  selectedNoteIds : list jsstring;
  editor : option Editor  (* the state of the mounted [EditorView], if any *)
}.

Definition set_storage (st : Storage) (a : App) : App :=
  mkApp st (view a) (activeNoteId a) (activeFolderId a) (activeTag a)
        (searchQuery a) (isSelectionMode a) (selectedNoteIds a) (editor a).

Definition set_view (v : ViewState) (a : App) : App :=
  mkApp (storage a) v (activeNoteId a) (activeFolderId a) (activeTag a)
        (searchQuery a) (isSelectionMode a) (selectedNoteIds a) (editor a).

Definition set_activeNoteId (i : option jsstring) (a : App) : App :=
  mkApp (storage a) (view a) i (activeFolderId a) (activeTag a)
        (searchQuery a) (isSelectionMode a) (selectedNoteIds a) (editor a).

Definition set_activeFolderId (i : option jsstring) (a : App) : App :=
  mkApp (storage a) (view a) (activeNoteId a) i (activeTag a)
        (searchQuery a) (isSelectionMode a) (selectedNoteIds a) (editor a).

Definition set_activeTag (t : option jsstring) (a : App) : App :=
  mkApp (storage a) (view a) (activeNoteId a) (activeFolderId a) t
        (searchQuery a) (isSelectionMode a) (selectedNoteIds a) (editor a).

Definition set_searchQuery (q : jsstring) (a : App) : App :=
  mkApp (storage a) (view a) (activeNoteId a) (activeFolderId a) (activeTag a)
        q (isSelectionMode a) (selectedNoteIds a) (editor a).

Definition set_isSelectionMode (b : bool) (a : App) : App :=
  mkApp (storage a) (view a) (activeNoteId a) (activeFolderId a) (activeTag a)
        (searchQuery a) b (selectedNoteIds a) (editor a).

Definition set_selectedNoteIds (l : list jsstring) (a : App) : App :=
  mkApp (storage a) (view a) (activeNoteId a) (activeFolderId a) (activeTag a)
        (searchQuery a) (isSelectionMode a) l (editor a).

Definition set_editor (e : option Editor) (a : App) : App :=
  mkApp (storage a) (view a) (activeNoteId a) (activeFolderId a) (activeTag a)
        (searchQuery a) (isSelectionMode a) (selectedNoteIds a) e.

(** What the user or the browser does.  An event carries what the
    environment supplies to its handler: the value of the input, the key,
    the result of [crypto.randomUUID()], the result of [Date.now()]. *)
Inductive Event :=
  | AddClick (uuid : jsstring) (now : Z)
  | NoteCardClick (id : jsstring)
  | EditorChange (val uuid : jsstring)
  | FolderInputChange (val : jsstring)
  | FolderInputKeyDown (key uuid : jsstring)
  | FolderMenuClick (id : jsstring)
  | FolderMenuCreate (uuid : jsstring)
  | FolderChipClick (id : jsstring)
  | TagInputChange (val : jsstring)
  | TagKeyDown (key : jsstring)
  | RemoveTagClick (tag : jsstring)
  | EditNoteClick
  | SaveClick (now : Z)
  | CloseClick
  | ConfirmDeleteClick
  | BulkDeleteConfirmed
  | RestoreClick (id : jsstring)
  | PermanentDeleteClick (id : jsstring)
  | EmptyTrashClick
  | ResetConfirmed
  | NewFolderPrompt (name uuid : jsstring)
  | TabChange (v : ViewState)
  | TrashRowClick
  | FolderTileClick (id : jsstring)
  | TagTileClick (tag : jsstring)
  | BackClick
  | SearchChange (q : jsstring)
  | ToggleSelectClick.

Section App.

(** [String.prototype.toLowerCase] and [JSON.stringify] on the two
    collections are the platform's. *)
Variable toLowerCase : jsstring -> jsstring.
Variable stringify_notes : list Note.t -> jsstring.
Variable stringify_folders : list Folder.t -> jsstring.

(** *** [parseMetadataFromText] *)

Definition parseMetadataFromText (text : jsstring) : list jsstring :=
  let tagMatches := matchAll_tags 0 text in
  let tags := map toLowerCase tagMatches in
  JS.set_of_array tags.

(** *** [useStorage] *)

(** [setNotes(newNotes)] with
    [localStorage.setItem(NOTES_KEY, JSON.stringify(newNotes))]. *)
Definition store_notes (newNotes : list Note.t) (st : Storage) : Storage :=
  mkStorage newNotes (folders st) (theme st)
            (<[NOTES_KEY := stringify_notes newNotes]> (localStorage st)).

Definition store_folders (newFolders : list Folder.t) (st : Storage) : Storage :=
  mkStorage (notes st) newFolders (theme st)
            (<[FOLDERS_KEY := stringify_folders newFolders]> (localStorage st)).

(** The effect that runs whenever [notes] has changed. *)
Definition usedFolderIds (ns : list Note.t) : list jsstring :=
  fold_left
    (fun used n =>
       if negb (Note.deleted n)
       then fold_left JS.set_add (Note.folderIds n) used
       else used)
    ns [].

Definition cleanupFolders (st : Storage) : Storage :=
  let used := usedFolderIds (notes st) in
  let prev := folders st in
  let newFolders := List.filter (fun f => JS.set_has used (Folder.id f)) prev in
  if negb (length newFolders =? length prev)%nat
  then store_folders newFolders st
  else st.

Definition saveNote (note : Note.t) (st : Storage) : Storage :=
  let prev := notes st in
  let existingIndex :=
    JS.findIndex (fun n => bool_decide (Note.id n = Note.id note)) prev in
  let newNotes :=
    if 0 <=? existingIndex
    then <[Z.to_nat existingIndex := note]> prev
    else note :: prev in
  store_notes newNotes st.

Definition deleteNote (id : jsstring) (st : Storage) : Storage :=
  store_notes
    (map (fun n => if bool_decide (Note.id n = id)
                   then Note.set_isDeleted true n else n) (notes st)) st.

Definition restoreNote (id : jsstring) (st : Storage) : Storage :=
  store_notes
    (map (fun n => if bool_decide (Note.id n = id)
                   then Note.set_isDeleted false n else n) (notes st)) st.

Definition permanentlyDeleteNote (id : jsstring) (st : Storage) : Storage :=
  store_notes
    (List.filter (fun n => negb (bool_decide (Note.id n = id))) (notes st)) st.

Definition emptyTrash (st : Storage) : Storage :=
  store_notes (List.filter (fun n => negb (Note.deleted n)) (notes st)) st.

Definition createFolder (name uuid : jsstring) (st : Storage)
  : Folder.t * Storage :=
  let newFolder := Folder.mk uuid name (Some (js "folder")) None in
  (newFolder, store_folders (folders st ++ [newFolder]) st).

Definition deleteFolder (id : jsstring) (st : Storage) : Storage :=
  store_folders
    (List.filter (fun f => negb (bool_decide (Folder.id f = id))) (folders st)) st.

Definition clearAllData (st : Storage) : Storage :=
  mkStorage [] DEFAULT_FOLDERS system
            (delete THEME_KEY (delete FOLDERS_KEY (delete NOTES_KEY (localStorage st)))).

Definition saveTheme (newTheme : Theme) (st : Storage) : Storage :=
  mkStorage (notes st) (folders st) newTheme
            (<[THEME_KEY := theme_name newTheme]> (localStorage st)).

(** *** [EditorView] *)

Definition finalTags (ed : Editor) : list jsstring :=
  JS.set_of_array (manualTags ed ++ derivedTags ed).

(** The effect on [content]: [setDerivedTags(parseMetadataFromText(content))]. *)
Definition contentEffect (ed : Editor) : Editor :=
  set_derivedTags (parseMetadataFromText (content ed)) ed.

(** [folders.find(f => f.name.toLowerCase() === name.toLowerCase())],
    and [createFolder(name)] when there is none. *)
Definition findFolderByName (name : jsstring) (fs : list Folder.t)
  : option Folder.t :=
  List.find
    (fun f => bool_decide (toLowerCase (Folder.name f) = toLowerCase name)) fs.

Definition findOrCreateFolder (name uuid : jsstring) (st : Storage)
  : Folder.t * Storage :=
  match findFolderByName name (folders st) with
  | Some f => (f, st)
  | None => createFolder name uuid st
  end.

(** [val.slice(0, i) + val.slice(i + fullMatch.length)] with
    [i = val.lastIndexOf(fullMatch)]. *)
Definition removeTrigger (val fullMatch : jsstring) : jsstring :=
  let i := JS.lastIndexOf val fullMatch in
  JS.slice val 0 i ++ JS.slice_from val (i + Z.of_nat (length fullMatch)).

Definition handleContentChange (val uuid : jsstring) (st : Storage) (ed : Editor)
  : Storage * Editor :=
  match match_trailing JS.AT val with
  | Some (folderName, fullMatch) =>
      let '(targetFolder, st') := findOrCreateFolder folderName uuid st in
      let ed' :=
        if negb (JS.arr_includes (manualFolderIds ed) (Folder.id targetFolder))
        then set_manualFolderIds (manualFolderIds ed ++ [Folder.id targetFolder]) ed
        else ed in
      (st', set_content (removeTrigger val fullMatch) ed')
  | None =>
      match match_trailing JS.HASH val with
      | Some (name, fullMatch) =>
          let tagName := toLowerCase name in
          let ed' :=
            if negb (JS.arr_includes (manualTags ed) tagName)
            then set_manualTags (manualTags ed ++ [tagName]) ed
            else ed in
          (st, set_content (removeTrigger val fullMatch) ed')
      | None => (st, set_content val ed)
      end
  end.

Definition handleSave (note : Note.t) (now : Z) (st : Storage) (ed : Editor)
  : Storage :=
  saveNote
    (Note.mk (Note.id note) [] (content ed) (manualFolderIds ed) (finalTags ed)
             (Note.summary note) (Note.createdAt note) now (Note.isDeleted note))
    st.

Definition toggleFolder (id : jsstring) (ed : Editor) : Editor :=
  if negb (isEditing ed) then ed
  else if JS.arr_includes (manualFolderIds ed) id
  then set_manualFolderIds
         (List.filter (fun fid => negb (bool_decide (fid = id))) (manualFolderIds ed)) ed
  else set_manualFolderIds (manualFolderIds ed ++ [id]) ed.

Definition is_commit_key (key : jsstring) : bool :=
  bool_decide (key = js "Enter") || bool_decide (key = js " ")
  || bool_decide (key = js ",").

Definition handleFolderInputKeyDown (key uuid : jsstring) (st : Storage) (ed : Editor)
  : Storage * Editor :=
  if is_commit_key key then
    let rawName := JS.trim (folderInputValue ed) in
    if negb (JS.truthy rawName) then (st, ed)
    else
      let name :=
        if JS.startsWith rawName [JS.AT] then JS.slice_from rawName 1 else rawName in
      if negb (JS.truthy name) then (st, ed)
      else
        let '(targetFolder, st') := findOrCreateFolder name uuid st in
        let ed' :=
          if negb (JS.arr_includes (manualFolderIds ed) (Folder.id targetFolder))
          then set_manualFolderIds (manualFolderIds ed ++ [Folder.id targetFolder]) ed
          else ed in
        (st', set_folderInputValue [] ed')
  else (st, ed).

(** [s.replace(/^#/, '')] *)
Definition stripLeadingHash (s : jsstring) : jsstring :=
  match s with
  | c :: rest => if (c =? JS.HASH)%N then rest else s
  | [] => []
  end.

Definition handleTagKeyDown (key : jsstring) (ed : Editor) : Editor :=
  if is_commit_key key then
    let val := toLowerCase (stripLeadingHash (JS.trim (tagInput ed))) in
    let ed' :=
      if JS.truthy val && negb (JS.arr_includes (manualTags ed) val)
      then set_manualTags (manualTags ed ++ [val]) ed
      else ed in
    set_tagInput [] ed'
  else if bool_decide (key = js "Backspace") && negb (JS.truthy (tagInput ed))
          && (0 <? Z.of_nat (length (manualTags ed)))
  then set_manualTags (JS.slice (manualTags ed) 0 (-1)) ed
  else ed.

Definition removeTag (t : jsstring) (ed : Editor) : Editor :=
  if negb (isEditing ed) then ed
  else set_manualTags
         (List.filter (fun tag => negb (bool_decide (tag = t))) (manualTags ed)) ed.

(** The "Create" row of the folder menu is rendered when the input is
    non-empty and no folder has that name.  Whether the menu is open is
    not part of the state here: its rows are taken to be within reach
    whenever the note is being edited. *)
Definition createRowShown (st : Storage) (ed : Editor) : bool :=
  isEditing ed && JS.truthy (folderInputValue ed)
  && negb (existsb
             (fun f => bool_decide (toLowerCase (Folder.name f)
                                    = toLowerCase (folderInputValue ed)))
             (folders st)).

(** The state of a freshly mounted editor, after its first effect. *)
Definition mountEditor (note : Note.t) : Editor :=
  contentEffect
    (mkEditor (Note.content note) (Note.folderIds note) (Note.tags note)
              [] [] [] (negb (JS.truthy (Note.content note)))).

(** *** [App] *)

Definition activeNote (a : App) : option Note.t :=
  match activeNoteId a with
  | Some i =>
      if JS.truthy i
      then List.find (fun n => bool_decide (Note.id n = i)) (notes (storage a))
      else None
  | None => None
  end.

Definition filteredNotes (ns : list Note.t) (v : ViewState)
           (folderId tag : option jsstring) (query : jsstring) : list Note.t :=
  let filtered := List.filter (fun n => negb (Note.deleted n)) ns in
  let filtered :=
    if bool_decide (v = folders_view) && JS.truthy_opt folderId
    then List.filter
           (fun n => JS.arr_includes (Note.folderIds n) (default [] folderId))
           filtered
    else if bool_decide (v = tags_view) && JS.truthy_opt tag
    then List.filter
           (fun n => JS.arr_includes (Note.tags n) (default [] tag)) filtered
    else filtered in
  let filtered :=
    if JS.truthy query then
      let q := toLowerCase query in
      List.filter
        (fun n =>
           JS.includes (toLowerCase (Note.content n)) q
           || JS.truthy_opt (Note.summary n)
              && JS.includes (toLowerCase (default [] (Note.summary n))) q)
        filtered
    else filtered in
  JS.sort (fun a b => Note.updatedAt b - Note.updatedAt a) filtered.

Definition createNewNote (uuid : jsstring) (now : Z) (a : App) : App :=
  let newNote :=
    Note.mk uuid [] []
      (if bool_decide (view a = folders_view) && JS.truthy_opt (activeFolderId a)
       then [default [] (activeFolderId a)] else [])
      (if bool_decide (view a = tags_view) && JS.truthy_opt (activeTag a)
       then [default [] (activeTag a)] else [])
      None now now (Some false) in
  set_activeNoteId (Some uuid) (set_storage (saveNote newNote (storage a)) a).

Definition toggleSelection (id : jsstring) (a : App) : App :=
  if JS.arr_includes (selectedNoteIds a) id
  then set_selectedNoteIds
         (List.filter (fun nid => negb (bool_decide (nid = id))) (selectedNoteIds a)) a
  else set_selectedNoteIds (selectedNoteIds a ++ [id]) a.

Definition handleBulkDelete (a : App) : App :=
  let st := fold_left (fun st id => deleteNote id st) (selectedNoteIds a) (storage a) in
  set_isSelectionMode false (set_selectedNoteIds [] (set_storage st a)).

(** After the updates of an event: [EditorView] is rendered exactly
    when the active note exists; it keeps its state while it stays
    mounted and starts from the note when it is mounted. *)
Definition render (a : App) : App :=
  match activeNote a, editor a with
  | None, _ => set_editor None a
  | Some n, None => set_editor (Some (mountEditor n)) a
  | Some _, Some _ => a
  end.

(** The effect on [notes], for the events that call [setNotes]. *)
Definition notesChanged (a : App) : App :=
  set_storage (cleanupFolders (storage a)) a.

(** The handler of an event, on the screen that shows its control: the
    editor covers the lists while a note is open. *)
Definition handle (ev : Event) (a : App) : App :=
  match editor a, activeNote a with
  | Some ed, Some note =>
      match ev with
      | EditorChange val uuid =>
          if isEditing ed then
            let '(st, ed') := handleContentChange val uuid (storage a) ed in
            set_editor (Some (contentEffect ed')) (set_storage st a)
          else a
      | FolderInputChange val =>
          if isEditing ed then set_editor (Some (set_folderInputValue val ed)) a else a
      | FolderInputKeyDown key uuid =>
          if isEditing ed then
            let '(st, ed') := handleFolderInputKeyDown key uuid (storage a) ed in
            set_editor (Some ed') (set_storage st a)
          else a
      | FolderMenuClick id =>
          if isEditing ed
          then set_editor (Some (set_folderInputValue [] (toggleFolder id ed))) a
          else a
      | FolderMenuCreate uuid =>
          if createRowShown (storage a) ed then
            let '(newFolder, st) := createFolder (folderInputValue ed) uuid (storage a) in
            set_editor
              (Some (set_folderInputValue [] (toggleFolder (Folder.id newFolder) ed)))
              (set_storage st a)
          else a
      | FolderChipClick id => set_editor (Some (toggleFolder id ed)) a
      | TagInputChange val =>
          if isEditing ed then set_editor (Some (set_tagInput val ed)) a else a
      | TagKeyDown key =>
          if isEditing ed then set_editor (Some (handleTagKeyDown key ed)) a else a
      | RemoveTagClick t => set_editor (Some (removeTag t ed)) a
      | EditNoteClick => set_editor (Some (set_isEditing true ed)) a
      | SaveClick now =>
          if isEditing ed then
            notesChanged
              (set_activeNoteId None
                 (set_storage (handleSave note now (storage a) ed) a))
          else a
      | CloseClick => set_activeNoteId None a
      | ConfirmDeleteClick =>
          notesChanged
            (set_activeNoteId None
               (set_storage (deleteNote (Note.id note) (storage a)) a))
      | _ => a
      end
  | _, _ =>
      match ev with
      | AddClick uuid now =>
          if JS.truthy_opt (activeNoteId a) || bool_decide (view a = editor_view)
          then a
          else notesChanged (createNewNote uuid now a)
      | NoteCardClick id =>
          if isSelectionMode a then toggleSelection id a
          else set_activeNoteId (Some id) a
      | BulkDeleteConfirmed =>
          if isSelectionMode a && (0 <? Z.of_nat (length (selectedNoteIds a)))
          then notesChanged (handleBulkDelete a) else a
      | RestoreClick id => notesChanged (set_storage (restoreNote id (storage a)) a)
      | PermanentDeleteClick id =>
          notesChanged (set_storage (permanentlyDeleteNote id (storage a)) a)
      | EmptyTrashClick => notesChanged (set_storage (emptyTrash (storage a)) a)
      | ResetConfirmed => notesChanged (set_storage (clearAllData (storage a)) a)
      | NewFolderPrompt name uuid =>
          if JS.truthy name
          then set_storage (snd (createFolder name uuid (storage a))) a
          else a
      | TabChange v =>
          set_isSelectionMode false
            (set_activeTag None (set_activeFolderId None (set_view v a)))
      | TrashRowClick => set_view trash a
      | FolderTileClick id => set_activeFolderId (Some id) a
      | TagTileClick tag => set_activeTag (Some tag) a
      | BackClick =>
          if bool_decide (view a = folders_view) && JS.truthy_opt (activeFolderId a)
          then set_activeFolderId None a
          else if bool_decide (view a = tags_view) && JS.truthy_opt (activeTag a)
          then set_activeTag None a
          else if bool_decide (view a = trash) then set_view settings a
          else a
      | SearchChange q => set_searchQuery q a
      | ToggleSelectClick => set_isSelectionMode (negb (isSelectionMode a)) a
      | _ => a
      end
  end.

Definition step (a : App) (ev : Event) : App := render (handle ev a).

Definition run (a : App) (evs : list Event) : App := fold_left step evs a.

End App.

(** ** Exceptions *)

Inductive exn :=
  | SyntaxError
  | TypeError
  | Error (message : jsstring).

(** A computation either completes with a value or throws. *)
Inductive result (A : Type) :=
  | Ok (a : A)
  | Throw (e : exn).
Arguments Ok {A} a.
Arguments Throw {A} e.

#[global] Instance result_bind : MBind result := fun A B k m =>
  match m with
  | Ok a => k a
  | Throw e => Throw e
  end.

(** [try { body } catch (e) { handler }] *)
Definition try_catch {A} (body : result A) (handler : exn -> result A) : result A :=
  match body with
  | Ok a => Ok a
  | Throw e => handler e
  end.

Fixpoint mapM {A B} (f : A -> result B) (l : list A) : result (list B) :=
  match l with
  | [] => Ok []
  | x :: l' => y ← f x; ys ← mapM f l'; Ok (y :: ys)
  end.

(** ** Untyped values: what [JSON.parse] returns and what the loader
    handles under the type [any] *)

Section Values.

(** Numbers are the platform's doubles; this code observes of a number
    only whether it is truthy (neither zero nor NaN). *)
Variable number : Type.
Variable number_truthy : number -> bool.

Inductive value :=
  | VUndefined
  | VNull
  | VBool (b : bool)
  | VNum (x : number)
  | VStr (s : jsstring)
  | VArr (elems : list value)
  | VObj (props : gmap (list N) value).

(** [JSON.parse], which throws a [SyntaxError] on malformed text
    ([None]). *)
Variable JSON_parse : jsstring -> option value.

Definition parse (text : jsstring) : result value :=
  match JSON_parse text with
  | Some v => Ok v
  | None => Throw SyntaxError
  end.

Definition truthy_value (v : value) : bool :=
  match v with
  | VUndefined | VNull => false
  | VBool b => b
  | VNum x => number_truthy x
  | VStr s => JS.truthy s
  | VArr _ | VObj _ => true
  end.

Definition isArray (v : value) : bool :=
  match v with VArr _ => true | _ => false end.

(** [n.k] for one of the field names [folderIds], [folderId] and
    [isDeleted]: reading it off [null] or [undefined] throws; an object
    has it or not; no other value has a property of such a name. *)
Definition get_field (n : value) (k : jsstring) : result value :=
  match n with
  | VUndefined | VNull => Throw TypeError
  | VObj props => Ok (default VUndefined (props !! k))
  | _ => Ok VUndefined
  end.

Definition index_key (i : nat) : jsstring :=
  js (NilEmpty.string_of_uint (Nat.to_uint i)).

(** The own enumerable properties that [{...n}] copies. *)
Definition spread (n : value) : gmap (list N) value :=
  match n with
  | VObj props => props
  | VArr elems => list_to_map (imap (fun i v => (index_key i, v)) elems)
  | VStr s => list_to_map (imap (fun i c => (index_key i, VStr [c])) s)
  | _ => ∅
  end.

(** The migration of one stored record:
    [{...n, folderIds: ..., isDeleted: n.isDeleted || false}]. *)
Definition migrateNote (n : value) : result value :=
  let copied := spread n in
  old ← get_field n (js "folderIds");
  folderIds ←
    (if isArray old then Ok old
     else
       folderId ← get_field n (js "folderId");
       Ok (if truthy_value folderId then VArr [folderId] else VArr []));
  del ← get_field n (js "isDeleted");
  Ok (VObj (<[js "isDeleted" := if truthy_value del then del else VBool false]>
              (<[js "folderIds" := folderIds]> copied))).

(** [parsed.map(f)]: only an array has [map]. *)
Definition array_map (f : value -> result value) (parsed : value)
  : result (list value) :=
  match parsed with
  | VArr elems => mapM f elems
  | _ => Throw TypeError
  end.

(** The state that the initialising effect leaves. *)
Record Loaded := mkLoaded {
  loaded_notes : list value;
  loaded_folders : value;
  loaded_theme : jsstring;
  loaded_storage : gmap (list N) (list N)
}.

Definition DEFAULT_FOLDERS_value : value := VArr [].

Definition loadNotes (savedNotes : option jsstring) : result (list value) :=
  if JS.truthy_opt savedNotes then
    try_catch
      (parsed ← parse (default [] savedNotes);
       migrated ← array_map migrateNote parsed;
       Ok migrated)
      (fun e => Ok [])
  else Ok [].

Definition loadFolders (savedFolders : option jsstring)
           (ls : gmap (list N) (list N))
  : result (value * gmap (list N) (list N)) :=
  if JS.truthy_opt savedFolders then
    try_catch
      (parsed ← parse (default [] savedFolders); Ok (parsed, ls))
      (fun e => Ok (DEFAULT_FOLDERS_value, ls))
  else Ok (DEFAULT_FOLDERS_value, <[FOLDERS_KEY := js "[]"]> ls).

Definition initialize (ls : gmap (list N) (list N)) : result Loaded :=
  let savedNotes := ls !! NOTES_KEY in
  let savedFolders := ls !! FOLDERS_KEY in
  let savedTheme := ls !! THEME_KEY in
  ns ← loadNotes savedNotes;
  fs ← loadFolders savedFolders ls;
  Ok (mkLoaded ns (fst fs)
               (if JS.truthy_opt savedTheme then default [] savedTheme
                else js "system")
               (snd fs)).

(** ** [analyzeNoteContent] *)

(** The [contents] of the request. *)
Definition analysisPrompt (content : jsstring) : jsstring :=
  js "Analyze the following note text and provide metadata: "
  ++ [34%N] ++ JS.substring0 content 5000 ++ [34%N].

(** The client: given the key and the [contents] of a request,
    [generateContent] fails or answers with a response whose [text] may
    be missing. *)
Variable generateContent : jsstring -> jsstring -> result (option jsstring).

(** The outcome ([None] is [null]) and the [contents] of the requests
    that were sent. *)
Definition analyzeNoteContent (API_KEY : option jsstring) (content : jsstring)
  : result (option value) * list jsstring :=
  if negb (JS.truthy_opt API_KEY) then (Ok None, [])
  else
    (try_catch
       (response ← generateContent (default [] API_KEY) (analysisPrompt content);
        if JS.truthy_opt response then
          data ← parse (default [] response);
          Ok (Some data)
        else Ok None)
       (fun error => Ok None),
     [analysisPrompt content]).

End Values.

Arguments VUndefined {number}.
Arguments VNull {number}.
Arguments VBool {number} b.
Arguments VNum {number} x.
Arguments VStr {number} s.
Arguments VArr {number} elems.
Arguments VObj {number} props.
Arguments truthy_value {number} number_truthy v.
Arguments isArray {number} v.
Arguments get_field {number} n k.
Arguments spread {number} n.
Arguments migrateNote {number} number_truthy n.
Arguments array_map {number} f parsed.
Arguments parse {number} JSON_parse text.
Arguments loadNotes {number} number_truthy JSON_parse savedNotes.
Arguments loadFolders {number} JSON_parse savedFolders ls.
Arguments initialize {number} number_truthy JSON_parse ls.
Arguments DEFAULT_FOLDERS_value {number}.
Arguments analyzeNoteContent {number} JSON_parse generateContent API_KEY content.
Arguments loaded_notes {number} l.
Arguments loaded_folders {number} l.
Arguments loaded_theme {number} l.
Arguments loaded_storage {number} l.

(** ** Predicates in which the properties are stated *)

Definition name_chars (w : jsstring) : Prop :=
  Forall (fun c => JS.is_name_char c = true) w.

(** Nothing follows, or what follows does not continue a name. *)
Definition name_stops (post : jsstring) : Prop :=
  match post with
  | [] => True
  | c :: _ => JS.is_name_char c = false
  end.

(** [val] ends in the sigil, a non-empty name and one whitespace
    character. *)
Definition ends_with_trigger (sigil : N) (val : jsstring) : Prop :=
  exists pre name ws,
    val = pre ++ sigil :: name ++ [ws]
    /\ name <> [] /\ name_chars name /\ JS.is_space ws = true.

(** [w] is a word of [text] that directly follows a ['#']: a non-empty
    run of name characters after a ['#'], taken up to where the name
    stops. *)
Definition hash_word (text w : jsstring) : Prop :=
  exists pre post,
    text = pre ++ JS.HASH :: w ++ post
    /\ w <> [] /\ name_chars w /\ name_stops post.



(** Folder associations and tags without duplicates. *)
Definition deduplicated (n : Note.t) : Prop :=
  NoDup (Note.folderIds n) /\ NoDup (Note.tags n).

Definition editor_deduplicated (ed : Editor) : Prop :=
  NoDup (manualFolderIds ed) /\ NoDup (manualTags ed).

Definition app_deduplicated (a : App) : Prop :=
  Forall deduplicated (notes (storage a))
  /\ match editor a with
     | Some ed => editor_deduplicated ed
     | None => True
     end.

(** Most recently updated first. *)
Definition newer_first (a b : Note.t) : Prop :=
  Note.updatedAt b <= Note.updatedAt a.

(** The filter in force: the folder view with a folder chosen filters by
    that folder, the tag view with a tag chosen by that tag, and any
    other combination not at all. *)
Inductive Filter :=
  | NoFilter
  | ByFolder (fid : jsstring)
  | ByTag (tag : jsstring).

Definition activeFilter (v : ViewState) (folderId tag : option jsstring) : Filter :=
  match v, folderId, tag with
  | folders_view, Some (c :: fid), _ => ByFolder (c :: fid)
  | tags_view, _, Some (c :: t) => ByTag (c :: t)
  | _, _, _ => NoFilter
  end.

Definition passes (f : Filter) (n : Note.t) : bool :=
  match f with
  | NoFilter => true
  | ByFolder fid => bool_decide (fid ∈ Note.folderIds n)
  | ByTag tag => bool_decide (tag ∈ Note.tags n)
  end.

(** [s] contains [q] when both are lower-cased. *)
Definition contains_ci (toLowerCase : jsstring -> jsstring) (s q : jsstring) : Prop :=
  exists before after, toLowerCase s = before ++ toLowerCase q ++ after.

(** No search string is given, or the content or the summary of the note
    contains it. *)
Definition search_hit (toLowerCase : jsstring -> jsstring)
           (query : jsstring) (n : Note.t) : bool :=
  match query with
  | [] => true
  | _ :: _ =>
      JS.includes (toLowerCase (Note.content n)) (toLowerCase query)
      || match Note.summary n with
         | Some s => JS.includes (toLowerCase s) (toLowerCase query)
         | None => false
         end
  end.

(** The notes that a list view is to show. *)
Definition displayed (toLowerCase : jsstring -> jsstring) (v : ViewState)
           (folderId tag : option jsstring) (query : jsstring) (n : Note.t) : bool :=
  negb (Note.deleted n) && passes (activeFilter v folderId tag) n
  && search_hit toLowerCase query n.

(** ** Stand-ins for the platform in the worked examples *)

Module Demo.

(** A serialisation that keeps the identifiers apart, in place of
    [JSON.stringify]. *)
Definition stringify_notes (ns : list Note.t) : jsstring :=
  concat (map (fun n => Note.id n ++ js ";") ns).

Definition stringify_folders (fs : list Folder.t) : jsstring :=
  concat (map (fun f => Folder.id f ++ js "=" ++ Folder.name f ++ js ";") fs).

Definition number_truthy (x : Z) : bool := negb (x =? 0).

Definition emptyStorage : Storage := mkStorage [] [] system ∅.

Definition emptyEditor : Editor := mkEditor [] [] [] [] [] [] true.

Definition note (id content : string) (folderIds tags : list string)
           (updatedAt : Z) (isDeleted : bool) : Note.t :=
  Note.mk (js id) [] (js content) (map js folderIds) (map js tags) None
          0 updatedAt (Some isDeleted).

Definition emptyApp : App :=
  mkApp emptyStorage home None None None [] false [] None.

(** A JSON string literal. *)
Definition quoted (s : string) : jsstring := [34%N] ++ js s ++ [34%N].

(** A stored collection with one legacy record,
    [[{"id":"n1","folderId":"f1"}]]. *)
Definition legacyText : jsstring :=
  js "[{" ++ quoted "id" ++ js ":" ++ quoted "n1" ++ js ","
  ++ quoted "folderId" ++ js ":" ++ quoted "f1" ++ js "}]".

Definition legacyRecord : gmap (list N) (value Z) :=
  {[ js "id" := VStr (js "n1"); js "folderId" := VStr (js "f1") ]}.

(** A legacy record whose [folderId] is the empty string,
    [{"id":"n1","folderId":""}]. *)
Definition unfiledRecord : gmap (list N) (value Z) :=
  {[ js "id" := VStr (js "n1"); js "folderId" := VStr [] ]}.

(** An answer of the model, [{"title":"T","summary":"S","tags":[]}]. *)
Definition answerText : jsstring :=
  js "{" ++ quoted "title" ++ js ":" ++ quoted "T" ++ js ","
  ++ quoted "summary" ++ js ":" ++ quoted "S" ++ js ","
  ++ quoted "tags" ++ js ":[]}".

Definition answer : value Z :=
  VObj {[ js "title" := VStr (js "T"); js "summary" := VStr (js "S");
          js "tags" := VArr [] ]}.

(** [JSON.parse] on the texts of the examples; any other text here is
    malformed, as [js "{oops"] is. *)
Definition JSON_parse (text : jsstring) : option (value Z) :=
  if bool_decide (text = legacyText) then Some (VArr [VObj legacyRecord])
  else if bool_decide (text = answerText) then Some answer
  else if bool_decide (text = js "[]") then Some (VArr [])
  else None.

(** Three clients: one whose call fails, one that answers without
    text, one that answers [answerText]. *)
Definition failingClient (key contents : jsstring) : result (option jsstring) :=
  Throw (Error (js "network")).

Definition silentClient (key contents : jsstring) : result (option jsstring) :=
  Ok None.

Definition workingClient (key contents : jsstring) : result (option jsstring) :=
  Ok (Some answerText).

End Demo.

(** ** Further code of [App.tsx] *)

(** *** [stringToColor] *)

(** The 32-bit signed reading of a number, as the shift operators take
    their operands. *)
Definition toInt32 (z : Z) : Z := (z + 2 ^ 31) mod 2 ^ 32 - 2 ^ 31.

(** One round of the loop, [hash = c + ((hash << 5) - hash)].  The
    shift is that of 32-bit integers; the difference and the sum are
    those of numbers, exact for integers below [2^53] in magnitude. *)
Definition hashStep (hash : Z) (c : N) : Z :=
  Z.of_N c + (toInt32 (Z.shiftl (toInt32 hash) 5) - hash).

Definition colorHash (str : jsstring) : Z := fold_left hashStep str 0.

(** [%] is the remainder with the sign of the dividend, [>>] the
    arithmetic shift of the 32-bit reading. *)
Definition colorHue (hash : Z) : Z := Z.abs (Z.rem hash 360).
Definition colorSaturation (hash : Z) : Z := 65 + Z.rem (Z.abs hash) 25.
Definition colorLightness (hash : Z) : Z :=
  75 + Z.rem (Z.abs (Z.shiftr (toInt32 hash) 2)) 15.

(** The decimal digits of a natural number, as a template prints it. *)
Definition decimal (z : Z) : jsstring :=
  js (NilEmpty.string_of_uint (N.to_uint (Z.to_N z))).

Definition stringToColor (str : jsstring) : jsstring :=
  let hash := colorHash str in
  js "hsl(" ++ decimal (colorHue hash) ++ js ", "
  ++ decimal (colorSaturation hash) ++ js "%, "
  ++ decimal (colorLightness hash) ++ js "%)".

(** *** [renderHighlights] *)

Inductive SpanClass := text_blue | text_primary | text_main.

Definition is_sigil (c : N) : bool := (c =? JS.AT)%N || (c =? JS.HASH)%N.

(** [text.split(/(@[\w-]+|#[\w-]+)/g)]: the text between the matches and,
    for the capturing group, the matches themselves, in turn.  [pending]
    is the text since the last match, [skip] the number of characters
    that the last match still covers.  [[\w-]] is the class
    [[A-Za-z0-9_-]]. *)
Fixpoint splitTokens (skip : nat) (pending text : jsstring) : list jsstring :=
  match text with
  | [] => [pending]
  | c :: rest =>
      match skip with
      | S k => splitTokens k pending rest
      | O =>
          if is_sigil c && JS.truthy (JS.name_run rest)
          then pending :: (c :: JS.name_run rest)
                 :: splitTokens (length (JS.name_run rest)) [] rest
          else splitTokens O (pending ++ [c]) rest
      end
  end.

Definition highlightClass (part : jsstring) : SpanClass :=
  if JS.startsWith part [JS.AT] then text_blue
  else if JS.startsWith part [JS.HASH] then text_primary
  else text_main.

(** The spans of the overlay, each with its colour class. *)
Definition renderHighlights (text : jsstring) : list (SpanClass * jsstring) :=
  if negb (JS.truthy text) then [(text_main, js " ")]
  else map (fun part => (highlightClass part, part)) (splitTokens 0 [] text).

(** *** Derived values of [App] *)



Definition trashNotes (ns : list Note.t) : list Note.t :=
  JS.sort (fun a b => Note.updatedAt b - Note.updatedAt a)
          (List.filter Note.deleted ns).

(** The tags of the tag view and the count shown beside each. *)
Definition allTags (ns : list Note.t) : list jsstring :=
  JS.set_of_array
    (flat_map Note.tags (List.filter (fun n => negb (Note.deleted n)) ns)).

Definition tagCount (ns : list Note.t) (tag : jsstring) : nat :=
  length (List.filter
            (fun n => negb (Note.deleted n) && JS.arr_includes (Note.tags n) tag)
            ns).


(** ** Further predicates *)

(** The store holds the serialisation of the collection, or holds
    nothing for an empty collection. *)
Definition notes_mirrored (stringify_notes : list Note.t -> jsstring)
           (st : Storage) : Prop :=
  localStorage st !! NOTES_KEY = Some (stringify_notes (notes st))
  \/ (localStorage st !! NOTES_KEY = None /\ notes st = []).

Definition folders_mirrored (stringify_folders : list Folder.t -> jsstring)
           (st : Storage) : Prop :=
  localStorage st !! FOLDERS_KEY = Some (stringify_folders (folders st))
  \/ (localStorage st !! FOLDERS_KEY = None /\ folders st = []).

(** The parts at the odd positions of a split: the matches. *)
Fixpoint matched_parts (parts : list jsstring) : list jsstring :=
  match parts with
  | _ :: m :: rest => m :: matched_parts rest
  | _ => []
  end.

(** The parts at the even positions: the text between the matches. *)
Fixpoint plain_parts (parts : list jsstring) : list jsstring :=
  match parts with
  | p :: _ :: rest => p :: plain_parts rest
  | [p] => [p]
  | [] => []
  end.

(** The names of the matches that start with ['#']. *)
Definition hash_names (tokens : list jsstring) : list jsstring :=
  omap (fun tok =>
          match tok with
          | c :: w => if (c =? JS.HASH)%N then Some w else None
          | [] => None
          end) tokens.

(** A token: a sigil and a non-empty name. *)
Definition is_token (part : jsstring) : Prop :=
  exists c w, part = c :: w /\ is_sigil c = true /\ w <> [] /\ name_chars w.

Definition all_space (s : jsstring) : Prop :=
  Forall (fun c => JS.is_space c = true) s.


(** * Properties *)

(** ** Character classes and the built-ins on strings *)

Ltac char_props H :=
  unfold JS.is_name_char, JS.is_space, JS.AT, JS.HASH in H;
  rewrite ?orb_true_iff, ?andb_true_iff, ?N.leb_le, ?N.eqb_eq in H.

Lemma name_char_not_space c :
  JS.is_name_char c = true -> JS.is_space c = false.
Proof.
  intros H. apply not_true_iff_false. intros Hs.
  char_props H. char_props Hs. lia.
Qed.

Lemma space_not_name_char c :
  JS.is_space c = true -> JS.is_name_char c = false.
Proof.
  intros Hs. destruct (JS.is_name_char c) eqn:E; [|done].
  apply name_char_not_space in E. congruence.
Qed.

Lemma name_chars_no_sigil sigil w :
  JS.is_name_char sigil = false -> name_chars w -> sigil ∉ w.
Proof.
  intros Hs Hw Hin. unfold name_chars in Hw.
  rewrite Forall_forall in Hw. apply Hw in Hin. congruence.
Qed.

Lemma name_run_after s : JS.name_run s ++ JS.after_name_run s = s.
Proof.
  induction s as [|c s IH]; simpl; [done|].
  destruct (JS.is_name_char c); simpl; [by rewrite IH | done].
Qed.

Lemma name_run_chars s : name_chars (JS.name_run s).
Proof.
  induction s as [|c s IH]; simpl; [constructor|].
  destruct (JS.is_name_char c) eqn:E; constructor; done.
Qed.

Lemma after_name_run_stops s : name_stops (JS.after_name_run s).
Proof.
  induction s as [|c s IH]; simpl; [done|].
  destruct (JS.is_name_char c) eqn:E; simpl; done.
Qed.

Lemma name_run_app w post :
  name_chars w -> name_stops post ->
  JS.name_run (w ++ post) = w /\ JS.after_name_run (w ++ post) = post.
Proof.
  intros Hw Hpost. induction Hw as [|c w Hc Hw IH]; simpl.
  - destruct post as [|d post]; simpl in *; [done|]. by rewrite Hpost.
  - rewrite Hc. destruct IH as [-> ->]. done.
Qed.

(** Past a character that is no name character the run has ended: what
    remains still holds that character and all that follows it. *)
Lemma after_name_run_keeps s c t :
  JS.is_name_char c = false ->
  exists s', JS.after_name_run (s ++ c :: t) = s' ++ c :: t.
Proof.
  intros Hc. induction s as [|d s IH]; simpl.
  - rewrite Hc. by exists [].
  - destruct (JS.is_name_char d); [done|]. by exists (d :: s).
Qed.

Lemma startsWith_app s t : JS.startsWith (s ++ t) s = true.
Proof.
  induction s as [|c s IH]; simpl; [done|]. by rewrite N.eqb_refl, IH.
Qed.

Lemma startsWith_prefix s pat :
  JS.startsWith s pat = true <-> exists t, s = pat ++ t.
Proof.
  revert s. induction pat as [|p pat IH]; intros s; simpl.
  - split; [by exists s|done].
  - destruct s as [|c s]; simpl.
    + split; [done|]. by intros [t Ht].
    + rewrite andb_true_iff, N.eqb_eq, IH. split.
      * intros [-> [t ->]]. by exists t.
      * intros [t Ht]. injection Ht as -> ->. split; [done|by exists t].
Qed.

Lemma includes_infix s pat :
  JS.includes s pat = true <-> exists pre post, s = pre ++ pat ++ post.
Proof.
  induction s as [|c s IH]; simpl.
  - rewrite orb_false_r, startsWith_prefix. split.
    + intros [t Ht]. by exists [], t.
    + intros (pre & post & H). destruct pre; simpl in H; [by exists post|done].
  - rewrite orb_true_iff, startsWith_prefix, IH. split.
    + intros [[t Ht]|(pre & post & ->)].
      * by exists [], t.
      * by exists (c :: pre), post.
    + intros (pre & post & H). destruct pre as [|d pre]; simpl in H.
      * left. by exists post.
      * right. injection H as -> ->. by exists pre, post.
Qed.

Lemma lastIndexOf_from_hit s pat i :
  JS.startsWith (drop i s) pat = true ->
  JS.lastIndexOf_from s pat i = Z.of_nat i.
Proof. destruct i; simpl; by intros ->. Qed.

Lemma lastIndexOf_suffix pre pat :
  JS.lastIndexOf (pre ++ pat) pat = Z.of_nat (length pre).
Proof.
  unfold JS.lastIndexOf. rewrite length_app.
  destruct (Nat.leb_spec (length pat) (length pre + length pat)) as [_|?]; [|lia].
  replace (length pre + length pat - length pat)%nat with (length pre) by lia.
  apply lastIndexOf_from_hit. rewrite drop_app_length.
  rewrite <- (app_nil_r pat) at 1. apply startsWith_app.
Qed.

Lemma slice_index_nat len i :
  JS.slice_index len (Z.of_nat i) = Nat.min i len.
Proof.
  unfold JS.slice_index.
  destruct (Z.ltb_spec (Z.of_nat i) 0); [lia|]. by rewrite Nat2Z.id.
Qed.

(** Cutting the last occurrence of a suffix out of a string leaves what
    precedes the suffix. *)
Lemma removeTrigger_suffix pre fullMatch :
  removeTrigger (pre ++ fullMatch) fullMatch = pre.
Proof.
  unfold removeTrigger, JS.slice, JS.slice_from.
  rewrite lastIndexOf_suffix, <- Nat2Z.inj_add.
  change 0 with (Z.of_nat 0). rewrite !slice_index_nat, length_app.
  rewrite Nat.min_0_l, Nat.min_id, drop_0, Nat.sub_0_r.
  replace (Nat.min (length pre) (length pre + length fullMatch))
    with (length pre) by lia.
  rewrite take_app_length.
  rewrite <- length_app, drop_all. apply app_nil_r.
Qed.

(** ** Sets as insertion-ordered arrays *)

Lemma set_has_true s x : JS.set_has s x = true <-> x ∈ s.
Proof. unfold JS.set_has. apply bool_decide_eq_true. Qed.

Lemma arr_includes_true l x : JS.arr_includes l x = true <-> x ∈ l.
Proof. unfold JS.arr_includes. apply bool_decide_eq_true. Qed.

Lemma arr_includes_false l x : JS.arr_includes l x = false <-> x ∉ l.
Proof. unfold JS.arr_includes. apply bool_decide_eq_false. Qed.

Lemma elem_of_set_add s x y : y ∈ JS.set_add s x <-> y ∈ s \/ y = x.
Proof.
  unfold JS.set_add. destruct (JS.set_has s x) eqn:E.
  - apply set_has_true in E. split; [by left|]. by intros [?| ->].
  - rewrite elem_of_app, list_elem_of_singleton. done.
Qed.

Lemma NoDup_set_add s x : NoDup s -> NoDup (JS.set_add s x).
Proof.
  intros H. unfold JS.set_add. destruct (JS.set_has s x) eqn:E; [done|].
  apply NoDup_app. split; [done|]. split; [|apply NoDup_singleton].
  intros y Hy Hx. apply list_elem_of_singleton in Hx as ->.
  apply set_has_true in Hy. congruence.
Qed.

Lemma elem_of_fold_set_add l acc y :
  y ∈ fold_left JS.set_add l acc <-> y ∈ acc \/ y ∈ l.
Proof.
  revert acc. induction l as [|x l IH]; intros acc; simpl.
  - split; [by left|]. intros [?|H]; [done|]. by apply elem_of_nil in H.
  - rewrite IH, elem_of_set_add, elem_of_cons. tauto.
Qed.

Lemma NoDup_fold_set_add l acc :
  NoDup acc -> NoDup (fold_left JS.set_add l acc).
Proof.
  revert acc. induction l as [|x l IH]; intros acc H; simpl; [done|].
  apply IH. by apply NoDup_set_add.
Qed.

Lemma elem_of_set_of_array l y : y ∈ JS.set_of_array l <-> y ∈ l.
Proof.
  unfold JS.set_of_array. rewrite elem_of_fold_set_add.
  split; [|by right]. intros [H|H]; [|done]. by apply elem_of_nil in H.
Qed.

Lemma NoDup_set_of_array l : NoDup (JS.set_of_array l).
Proof. apply NoDup_fold_set_add. constructor. Qed.

Lemma fold_set_add_NoDup l acc :
  NoDup (acc ++ l) -> fold_left JS.set_add l acc = acc ++ l.
Proof.
  revert acc. induction l as [|x l IH]; intros acc H; simpl.
  - by rewrite app_nil_r.
  - assert (JS.set_add acc x = acc ++ [x]) as ->.
    { unfold JS.set_add. destruct (JS.set_has acc x) eqn:E; [|done].
      apply set_has_true in E. apply NoDup_app in H as (_ & H & _).
      exfalso. apply (H x E). by left. }
    rewrite IH; rewrite <- app_assoc; done.
Qed.

Lemma set_of_array_NoDup l : NoDup l -> JS.set_of_array l = l.
Proof. intros H. unfold JS.set_of_array. by rewrite fold_set_add_NoDup. Qed.

(** ** The trailing patterns *)

Lemma match_here_spec rest w ws :
  match_here rest = Some (w, ws) <->
  rest = w ++ [ws] /\ w <> [] /\ name_chars w /\ JS.is_space ws = true.
Proof.
  unfold match_here. split.
  - pose proof (name_run_after rest) as Hsplit.
    pose proof (name_run_chars rest) as Hchars.
    destruct (JS.name_run rest) as [|c w'] eqn:Hrun; [done|].
    destruct (JS.after_name_run rest) as [|d [|? ?]]; [done| |done].
    destruct (JS.is_space d) eqn:Hd; [|done].
    intros [= <- <-]. done.
  - intros (-> & Hne & Hw & Hws).
    destruct (name_run_app w [ws] Hw) as [-> ->].
    { simpl. by apply space_not_name_char. }
    destruct w; [done|]. by rewrite Hws.
Qed.

(** A start position that has a further sigil and more after its run of
    name characters gives no match. *)
Lemma match_here_before_sigil s sigil t :
  JS.is_name_char sigil = false -> t <> [] ->
  match_here (s ++ sigil :: t) = None.
Proof.
  intros Hsig Ht. unfold match_here.
  destruct (after_name_run_keeps s sigil t Hsig) as [s' ->].
  destruct (JS.name_run _); [done|].
  destruct s' as [|? [|? ?]]; simpl; try done.
  destruct t; [done|]. done.
Qed.

Lemma match_trailing_hit sigil pre w ws :
  JS.is_name_char sigil = false ->
  w <> [] -> name_chars w -> JS.is_space ws = true ->
  match_trailing sigil (pre ++ sigil :: w ++ [ws]) = Some (w, sigil :: w ++ [ws]).
Proof.
  intros Hsig Hne Hw Hws.
  assert (match_here (w ++ [ws]) = Some (w, ws)) as Hhere
    by by apply match_here_spec.
  induction pre as [|c pre IH]; simpl.
  - by rewrite N.eqb_refl, Hhere.
  - rewrite IH. destruct (c =? sigil)%N; [|done].
    rewrite match_here_before_sigil; [done|done|]. by destruct w.
Qed.

Lemma match_trailing_some sigil val w fullMatch :
  match_trailing sigil val = Some (w, fullMatch) ->
  exists pre ws,
    val = pre ++ fullMatch /\ fullMatch = sigil :: w ++ [ws]
    /\ w <> [] /\ name_chars w /\ JS.is_space ws = true.
Proof.
  induction val as [|c val IH]; simpl; [done|].
  destruct (N.eqb_spec c sigil) as [->|Hc].
  - destruct (match_here val) as [[w' ws]|] eqn:Hhere.
    + intros [= <- <-]. apply match_here_spec in Hhere as (-> & ? & ? & ?).
      by exists [], ws.
    + intros H. destruct (IH H) as (pre & ws & -> & ?). by exists (sigil :: pre), ws.
  - intros H. destruct (IH H) as (pre & ws & -> & ?). by exists (c :: pre), ws.
Qed.

Lemma match_trailing_is_Some sigil val :
  JS.is_name_char sigil = false ->
  is_Some (match_trailing sigil val) <-> ends_with_trigger sigil val.
Proof.
  intros Hsig. split.
  - intros [[w full] H]. apply match_trailing_some in H
      as (pre & ws & -> & -> & ? & ? & ?).
    by exists pre, w, ws.
  - intros (pre & w & ws & -> & ? & ? & ?).
    rewrite match_trailing_hit; done.
Qed.

Lemma match_trailing_None sigil val :
  JS.is_name_char sigil = false ->
  match_trailing sigil val = None <-> ~ ends_with_trigger sigil val.
Proof.
  intros Hsig. rewrite <- match_trailing_is_Some by done.
  rewrite eq_None_not_Some. done.
Qed.

(** The sigil before a trailing name is determined by the buffer. *)
Lemma trailing_name_unique pre1 s1 n1 pre2 s2 n2 :
  pre1 ++ s1 :: n1 = pre2 ++ s2 :: n2 ->
  JS.is_name_char s1 = false -> JS.is_name_char s2 = false ->
  name_chars n1 -> name_chars n2 ->
  pre1 = pre2 /\ s1 = s2 /\ n1 = n2.
Proof.
  intros Heq Hs1 Hs2 Hn1 Hn2.
  apply (f_equal reverse) in Heq.
  rewrite !reverse_app, !reverse_cons, <- !app_assoc in Heq. simpl in Heq.
  assert (name_chars (reverse n1)) as Hr1 by by apply Forall_reverse.
  assert (name_chars (reverse n2)) as Hr2 by by apply Forall_reverse.
  destruct (name_run_app (reverse n1) (s1 :: reverse pre1) Hr1 Hs1) as [Ha1 Hb1].
  destruct (name_run_app (reverse n2) (s2 :: reverse pre2) Hr2 Hs2) as [Ha2 Hb2].
  rewrite Heq in Ha1, Hb1. rewrite Ha1 in Ha2. rewrite Hb1 in Hb2.
  injection Hb2 as -> Hpre.
  apply (inj reverse) in Ha2, Hpre. done.
Qed.

Lemma triggers_exclusive s1 s2 val :
  JS.is_name_char s1 = false -> JS.is_name_char s2 = false ->
  ends_with_trigger s1 val -> ends_with_trigger s2 val -> s1 = s2.
Proof.
  intros Hs1 Hs2 (pre1 & n1 & ws1 & -> & _ & Hn1 & _)
         (pre2 & n2 & ws2 & Heq & _ & Hn2 & _).
  change (pre1 ++ s1 :: n1 ++ [ws1]) with (pre1 ++ (s1 :: n1) ++ [ws1]) in Heq.
  change (pre2 ++ s2 :: n2 ++ [ws2]) with (pre2 ++ (s2 :: n2) ++ [ws2]) in Heq.
  rewrite !app_assoc in Heq. apply app_inj_tail in Heq as [Heq _].
  by destruct (trailing_name_unique _ _ _ _ _ _ Heq Hs1 Hs2 Hn1 Hn2) as (_ & ? & _).
Qed.

Lemma AT_not_name : JS.is_name_char JS.AT = false.
Proof. reflexivity. Qed.

Lemma HASH_not_name : JS.is_name_char JS.HASH = false.
Proof. reflexivity. Qed.

Lemma folder_trigger_not_tag val :
  ends_with_trigger JS.AT val -> match_trailing JS.HASH val = None.
Proof.
  intros Hat. apply match_trailing_None; [done|]. intros Hhash.
  by pose proof (triggers_exclusive _ _ _ AT_not_name HASH_not_name Hat Hhash).
Qed.

Lemma tag_trigger_not_folder val :
  ends_with_trigger JS.HASH val -> match_trailing JS.AT val = None.
Proof.
  intros Hhash. apply match_trailing_None; [done|]. intros Hat.
  by pose proof (triggers_exclusive _ _ _ AT_not_name HASH_not_name Hat Hhash).
Qed.

(** A buffer whose last character is no whitespace ends in no trigger. *)
Lemma no_trigger_without_space sigil val c :
  JS.is_space c = false -> ~ ends_with_trigger sigil (val ++ [c]).
Proof.
  intros Hc (pre & w & ws & Heq & _ & _ & Hws).
  change (pre ++ sigil :: w ++ [ws]) with (pre ++ (sigil :: w) ++ [ws]) in Heq.
  rewrite app_assoc in Heq. apply app_inj_tail in Heq as [_ ->]. congruence.
Qed.

Lemma no_trigger_empty sigil : ~ ends_with_trigger sigil [].
Proof. intros (pre & w & ws & Heq & _). by destruct pre. Qed.

(** ** One pass of the content-change handler *)

Section Tokenizer.

Variable toLowerCase : jsstring -> jsstring.
Variable stringify_folders : list Folder.t -> jsstring.

Local Abbreviation onChange := (handleContentChange toLowerCase stringify_folders).

Lemma findFolderByName_Some name fs f :
  findFolderByName toLowerCase name fs = Some f ->
  f ∈ fs /\ toLowerCase (Folder.name f) = toLowerCase name.
Proof.
  unfold findFolderByName. intros H. apply find_some in H as [Hin Hp].
  apply bool_decide_eq_true in Hp. by apply list_elem_of_In in Hin.
Qed.

Lemma findFolderByName_None name fs :
  findFolderByName toLowerCase name fs = None ->
  forall f, f ∈ fs -> toLowerCase (Folder.name f) <> toLowerCase name.
Proof.
  unfold findFolderByName. intros H f Hin%list_elem_of_In.
  apply (find_none _ _ H) in Hin. by apply bool_decide_eq_false in Hin.
Qed.

(** The handler on a buffer that ends in a folder trigger. *)
Lemma onChange_folder pre name ws uuid st ed :
  name <> [] -> name_chars name -> JS.is_space ws = true ->
  onChange (pre ++ JS.AT :: name ++ [ws]) uuid st ed =
  (let '(targetFolder, st') :=
     findOrCreateFolder toLowerCase stringify_folders name uuid st in
   (st',
    set_content pre
      (if negb (JS.arr_includes (manualFolderIds ed) (Folder.id targetFolder))
       then set_manualFolderIds (manualFolderIds ed ++ [Folder.id targetFolder]) ed
       else ed))).
Proof.
  intros Hne Hw Hws. unfold handleContentChange.
  rewrite match_trailing_hit by done.
  destruct (findOrCreateFolder _ _ _ _ _) as [targetFolder st'].
  by rewrite (removeTrigger_suffix pre (JS.AT :: name ++ [ws])).
Qed.

(** The handler on a buffer that ends in a tag trigger. *)
Lemma onChange_tag pre name ws uuid st ed :
  name <> [] -> name_chars name -> JS.is_space ws = true ->
  onChange (pre ++ JS.HASH :: name ++ [ws]) uuid st ed =
  (st,
   set_content pre
     (if negb (JS.arr_includes (manualTags ed) (toLowerCase name))
      then set_manualTags (manualTags ed ++ [toLowerCase name]) ed
      else ed)).
Proof.
  intros Hne Hw Hws. unfold handleContentChange.
  rewrite tag_trigger_not_folder by by exists pre, name, ws.
  rewrite match_trailing_hit by done.
  by rewrite (removeTrigger_suffix pre (JS.HASH :: name ++ [ws])).
Qed.

(** The handler on a buffer that ends in no trigger. *)
Lemma onChange_verbatim val uuid st ed :
  ~ ends_with_trigger JS.AT val -> ~ ends_with_trigger JS.HASH val ->
  onChange val uuid st ed = (st, set_content val ed).
Proof.
  intros Hat Hhash. unfold handleContentChange.
  apply match_trailing_None in Hat, Hhash; [|done..].
  by rewrite Hat, Hhash.
Qed.

(** C1.  A buffer that ends in ['@'], a non-empty name over
    [[A-Za-z0-9_-]] and one whitespace character: after one pass of the
    handler the note's folder identifiers contain the identifier of a
    folder of the collection whose name equals the typed name up to
    case; that folder is an existing one when one matches (and then
    nothing is created) and otherwise a new folder named as typed,
    appended to the collection; the identifier is appended only when it
    was not there; the new content is the buffer without the trailing
    trigger, and the tags are untouched. *)
Theorem folder_trigger_commits pre name ws uuid st ed :
  name <> [] -> name_chars name -> JS.is_space ws = true ->
  let val := pre ++ JS.AT :: name ++ [ws] in
  let st' := fst (onChange val uuid st ed) in
  let ed' := snd (onChange val uuid st ed) in
  exists target : Folder.t,
    target ∈ folders st'
    /\ toLowerCase (Folder.name target) = toLowerCase name
    /\ ((exists f, f ∈ folders st
                   /\ toLowerCase (Folder.name f) = toLowerCase name) ->
        target ∈ folders st /\ st' = st)
    /\ ((forall f, f ∈ folders st ->
                   toLowerCase (Folder.name f) <> toLowerCase name) ->
        target = Folder.mk uuid name (Some (js "folder")) None
        /\ folders st' = folders st ++ [target])
    /\ Folder.id target ∈ manualFolderIds ed'
    /\ manualFolderIds ed' =
         (if bool_decide (Folder.id target ∈ manualFolderIds ed)
          then manualFolderIds ed
          else manualFolderIds ed ++ [Folder.id target])
    /\ content ed' = pre
    /\ val = content ed' ++ JS.AT :: name ++ [ws]
    /\ manualTags ed' = manualTags ed.
Proof.
  intros Hne Hw Hws val st' ed'. subst val st' ed'.
  rewrite onChange_folder by done. unfold findOrCreateFolder.
  destruct (findFolderByName toLowerCase name (folders st)) as [f|] eqn:Hfind.
  - apply findFolderByName_Some in Hfind as [Hin Hname].
    exists f. simpl. split_and!; try done.
    all: try (intros Hnone; by destruct (Hnone f Hin)).
    all: unfold JS.arr_includes; case_bool_decide; simpl; try done.
    apply elem_of_app. right. by left.
  - pose proof (findFolderByName_None _ _ Hfind) as Hnone.
    exists (Folder.mk uuid name (Some (js "folder")) None).
    unfold createFolder. simpl. split_and!; try done.
    all: try (intros (f & Hin & Hf); by destruct (Hnone f Hin)).
    all: try (apply elem_of_app; right; by left).
    all: unfold JS.arr_includes; case_bool_decide; simpl; try done.
    apply elem_of_app. right. by left.
Qed.

(** C2.  A buffer that ends in ['#'], a non-empty name over
    [[A-Za-z0-9_-]] and one whitespace character (such a buffer never
    matches the folder pattern): one pass of the handler lower-cases the
    name, appends it to the manual tags only when it was not there, and
    sets the content to the buffer without the trailing trigger; the
    folders and the folder identifiers are untouched. *)
Theorem tag_trigger_commits pre name ws uuid st ed :
  name <> [] -> name_chars name -> JS.is_space ws = true ->
  let val := pre ++ JS.HASH :: name ++ [ws] in
  let st' := fst (onChange val uuid st ed) in
  let ed' := snd (onChange val uuid st ed) in
  ~ ends_with_trigger JS.AT val
  /\ toLowerCase name ∈ manualTags ed'
  /\ manualTags ed' =
       (if bool_decide (toLowerCase name ∈ manualTags ed)
        then manualTags ed
        else manualTags ed ++ [toLowerCase name])
  /\ content ed' = pre
  /\ val = content ed' ++ JS.HASH :: name ++ [ws]
  /\ manualFolderIds ed' = manualFolderIds ed
  /\ st' = st.
Proof.
  intros Hne Hw Hws val st' ed'. subst val st' ed'.
  rewrite onChange_tag by done. simpl.
  split.
  { apply match_trailing_None; [done|].
    apply tag_trigger_not_folder. by exists pre, name, ws. }
  unfold JS.arr_includes. case_bool_decide; simpl; split_and!; try done.
  apply elem_of_app. right. by left.
Qed.

(** C5.  In one change event at most one trigger fires: either the
    folders and folder identifiers stay as they were or the tags do.  A
    buffer that matches the folder pattern is handled as a folder
    trigger, whatever the tag pattern would say, and leaves the tags
    alone.  A buffer that matches neither pattern (the empty buffer, or
    one that ends in a sigil and a name with no whitespace after it)
    becomes the content as it is, and folders, folder identifiers and
    tags stay as they were. *)
Theorem one_trigger_per_change val uuid st ed :
  let st' := fst (onChange val uuid st ed) in
  let ed' := snd (onChange val uuid st ed) in
  ((st' = st /\ manualFolderIds ed' = manualFolderIds ed)
   \/ manualTags ed' = manualTags ed)
  /\ (ends_with_trigger JS.AT val ->
      manualTags ed' = manualTags ed
      /\ match_trailing JS.HASH val = None
      /\ exists pre name ws,
           val = pre ++ JS.AT :: name ++ [ws] /\ content ed' = pre)
  /\ (~ ends_with_trigger JS.AT val -> ~ ends_with_trigger JS.HASH val ->
      onChange val uuid st ed = (st, set_content val ed))
  /\ (val = [] -> onChange val uuid st ed = (st, set_content val ed))
  /\ (forall pre sigil name,
        val = pre ++ sigil :: name ->
        sigil = JS.AT \/ sigil = JS.HASH -> name_chars name ->
        onChange val uuid st ed = (st, set_content val ed)).
Proof.
  intros st' ed'. subst st' ed'. split_and!.
  - destruct (match_trailing JS.AT val) as [[w full]|] eqn:Hat.
    + right. apply match_trailing_some in Hat as (pre & ws & -> & -> & ? & ? & ?).
      rewrite onChange_folder by done.
      destruct (findOrCreateFolder _ _ _ _ _) as [targetFolder st'']. simpl.
      by destruct (negb _).
    + left. unfold handleContentChange. rewrite Hat.
      destruct (match_trailing JS.HASH val) as [[w full]|]; simpl; [|done].
      by destruct (negb _).
  - intros Hat. pose proof Hat as (pre & name & ws & -> & ? & ? & ?).
    rewrite onChange_folder by done.
    destruct (findOrCreateFolder _ _ _ _ _) as [targetFolder st'']. simpl.
    split_and!.
    + by destruct (negb _).
    + by apply folder_trigger_not_tag.
    + by exists pre, name, ws.
  - apply onChange_verbatim.
  - intros ->. apply onChange_verbatim; apply no_trigger_empty.
  - intros pre sigil name -> Hsig Hname.
    assert (exists body c, pre ++ sigil :: name = body ++ [c]
                           /\ JS.is_space c = false) as (body & c & -> & Hc).
    { destruct (decide (name = [])) as [->|Hne].
      - exists pre, sigil. split; [done|]. by destruct Hsig as [-> | ->].
      - apply exists_last in Hne as (name' & c & ->).
        exists (pre ++ sigil :: name'), c. split; [by rewrite <- app_assoc|].
        apply name_char_not_space.
        apply Forall_app in Hname as [_ Hc]. by inversion Hc. }
    apply onChange_verbatim; by apply no_trigger_without_space.
Qed.

End Tokenizer.

(** ** Derived tags *)

(** Looking for the next match after the end of the previous one is
    looking in what is left of the text. *)
Lemma matchAll_tags_skip k text :
  matchAll_tags k text = matchAll_tags 0 (drop k text).
Proof.
  revert k. induction text as [|c text IH]; intros [|k]; simpl; done.
Qed.

(** Name characters hold no ['#']: no match starts inside a name. *)
Lemma matchAll_tags_name w text :
  name_chars w -> matchAll_tags 0 (w ++ text) = matchAll_tags 0 text.
Proof.
  induction 1 as [|c w Hc Hw IH]; simpl; [done|].
  destruct (N.eqb_spec c JS.HASH) as [->|_]; [done|]. apply IH.
Qed.

(** The matches, position by position. *)
Lemma matchAll_tags_cons c rest :
  matchAll_tags 0 (c :: rest) =
  if (c =? JS.HASH)%N && JS.truthy (JS.name_run rest)
  then JS.name_run rest :: matchAll_tags 0 rest
  else matchAll_tags 0 rest.
Proof.
  simpl. destruct (c =? JS.HASH)%N; simpl; [|done].
  destruct (JS.name_run rest) as [|d w] eqn:Hrun; simpl; [done|].
  f_equal. change (S (length w)) with (length (d :: w)). rewrite <- Hrun.
  rewrite (matchAll_tags_skip (length (JS.name_run rest))).
  rewrite <- (name_run_after rest) at 2 3.
  rewrite drop_app_length.
  by rewrite matchAll_tags_name by apply name_run_chars.
Qed.

Lemma hash_word_cons c rest w :
  hash_word (c :: rest) w <->
  (c = JS.HASH /\ w = JS.name_run rest /\ w <> []) \/ hash_word rest w.
Proof.
  split.
  - intros (pre & post & Heq & Hne & Hw & Hpost).
    destruct pre as [|d pre]; simpl in Heq.
    + injection Heq as -> ->. left.
      by destruct (name_run_app w post Hw Hpost) as [-> _].
    + injection Heq as -> ->. right. by exists pre, post.
  - intros [(-> & -> & Hne)|(pre & post & -> & ?)].
    + exists [], (JS.after_name_run rest). simpl.
      rewrite name_run_after. split_and!; try done.
      * apply name_run_chars.
      * apply after_name_run_stops.
    + by exists (c :: pre), post.
Qed.

Lemma elem_of_matchAll_tags text w :
  w ∈ matchAll_tags 0 text <-> hash_word text w.
Proof.
  induction text as [|c rest IH].
  - simpl. split; [by intros ?%elem_of_nil|].
    intros (pre & post & Heq & _). by destruct pre.
  - rewrite matchAll_tags_cons, hash_word_cons, <- IH.
    destruct (N.eqb_spec c JS.HASH) as [->|Hc]; simpl.
    + destruct (JS.name_run rest) as [|d run] eqn:Hrun; simpl.
      * split; [by right|]. intros [(_ & -> & ?)|?]; done.
      * rewrite elem_of_cons. split.
        -- intros [->|?]; [by left|by right].
        -- intros [(_ & -> & _)|?]; [by left|by right].
    + split; [by right|]. by intros [(? & _)|?].
Qed.

Section DerivedTags.

Variable toLowerCase : jsstring -> jsstring.

Local Abbreviation derived := (parseMetadataFromText toLowerCase).

(** C4.  The derived tags of a text are free of duplicates, and a tag
    is among them exactly when it is the lower-cased form of a word
    over [[A-Za-z0-9_-]] that directly follows a ['#'] somewhere in the
    text; extracting again gives the same tags, and the tags are their
    own deduplication. *)
Theorem derived_tags_exact text :
  NoDup (derived text)
  /\ (forall t, t ∈ derived text <->
                exists w, hash_word text w /\ t = toLowerCase w)
  /\ (let first := derived text in
      let second := derived text in
      second = first)
  /\ JS.set_of_array (derived text) = derived text.
Proof.
  unfold parseMetadataFromText. split_and!.
  - apply NoDup_set_of_array.
  - intros t. rewrite elem_of_set_of_array, list_elem_of_fmap.
    split.
    + intros (w & -> & Hw%elem_of_matchAll_tags). by exists w.
    + intros (w & Hw%elem_of_matchAll_tags & ->). by exists w.
  - done.
  - apply set_of_array_NoDup, NoDup_set_of_array.
Qed.

End DerivedTags.

(** ** The storage hook *)


Lemma elem_of_filter_bool {A} (p : A -> bool) (l : list A) x :
  x ∈ List.filter p l <-> x ∈ l /\ p x = true.
Proof. rewrite !list_elem_of_In. apply filter_In. Qed.






Section StorageHook.

Variable stringify_notes : list Note.t -> jsstring.
Variable stringify_folders : list Folder.t -> jsstring.


Lemma cleanupFolders_notes st :
  notes (cleanupFolders stringify_folders st) = notes st.
Proof. unfold cleanupFolders. by destruct (negb _). Qed.


(** *** [saveNote] *)

Lemma findIndex_spec {A} (p : A -> bool) (l : list A) :
  (JS.findIndex p l = -1 /\ forall x, x ∈ l -> p x = false)
  \/ exists i x,
       JS.findIndex p l = Z.of_nat i /\ l !! i = Some x /\ p x = true
       /\ forall j y, (j < i)%nat -> l !! j = Some y -> p y = false.
Proof.
  induction l as [|a l IH]; simpl.
  - left. split; [done|]. by intros x ?%elem_of_nil.
  - destruct (p a) eqn:Ha.
    + right. exists 0%nat, a. split_and!; try done. intros j y Hj. lia.
    + destruct IH as [[-> Hall]|(i & x & -> & Hi & Hx & Hbefore)].
      * left. simpl. split; [done|].
        intros x [->|?]%elem_of_cons; [done|by apply Hall].
      * right. exists (S i), x.
        destruct (Z.ltb_spec (Z.of_nat i) 0); [lia|].
        split_and!; try done; [lia|].
        intros [|j] y Hj; simpl; [by intros [= <-]|].
        apply Hbefore. lia.
Qed.

(** C10.  Saving a note whose identifier is in the collection replaces
    the first note with that identifier and nothing else: the length,
    every other position and so the order stay.  Saving a note whose
    identifier is not in the collection puts it in front of the
    unchanged collection.  The folders are not touched. *)
Theorem saveNote_frame note st :
  let prev := notes st in
  let st' := saveNote stringify_notes note st in
  folders st' = folders st
  /\ ((exists n, n ∈ prev /\ Note.id n = Note.id note) ->
      exists i old,
        prev !! i = Some old /\ Note.id old = Note.id note
        /\ (forall j m, (j < i)%nat -> prev !! j = Some m ->
                        Note.id m <> Note.id note)
        /\ notes st' = <[i := note]> prev
        /\ length (notes st') = length prev
        /\ notes st' !! i = Some note
        /\ forall j, j <> i -> notes st' !! j = prev !! j)
  /\ ((forall n, n ∈ prev -> Note.id n <> Note.id note) ->
      notes st' = note :: prev
      /\ forall j, notes st' !! S j = prev !! j).
Proof.
  intros prev st'. subst prev st'. unfold saveNote. simpl.
  split; [done|].
  destruct (findIndex_spec (fun n => bool_decide (Note.id n = Note.id note))
                           (notes st))
    as [[-> Hall]|(i & x & -> & Hi & Hx & Hbefore)].
  - simpl. split.
    + intros (n & Hn & Hid). apply Hall in Hn.
      by apply bool_decide_eq_false in Hn.
    + done.
  - destruct (Z.leb_spec 0 (Z.of_nat i)); [|lia]. rewrite Nat2Z.id.
    apply bool_decide_eq_true in Hx. split.
    + intros _. exists i, x. split_and!; try done.
      * intros j m Hj Hm. apply (Hbefore j m Hj) in Hm.
        by apply bool_decide_eq_false in Hm.
      * apply length_insert.
      * apply list_lookup_insert_eq. by apply lookup_lt_Some in Hi.
      * intros j Hj. by apply list_lookup_insert_ne.
    + intros Hnone. destruct (Hnone x); [|done].
      apply list_elem_of_lookup. by exists i.
Qed.

End StorageHook.

(** ** The list of notes on display *)

Lemma filter_filter_bool {A} (p q : A -> bool) (l : list A) :
  List.filter q (List.filter p l) = List.filter (fun x => p x && q x) l.
Proof.
  induction l as [|x l IH]; simpl; [done|].
  destruct (p x); simpl; [|done]. destruct (q x); by rewrite IH.
Qed.

Lemma filter_all {A} (l : list A) : List.filter (fun _ => true) l = l.
Proof. induction l as [|x l IH]; simpl; by rewrite ?IH. Qed.

Lemma sort_insert_Permutation {A} (cmp : A -> A -> Z) x l :
  JS.sort_insert cmp x l ≡ₚ x :: l.
Proof.
  induction l as [|y l IH]; simpl; [done|].
  destruct (cmp x y <=? 0); [done|]. rewrite IH. apply Permutation_swap.
Qed.

Lemma sort_Permutation {A} (cmp : A -> A -> Z) l : JS.sort cmp l ≡ₚ l.
Proof.
  induction l as [|x l IH]; simpl; [done|].
  by rewrite sort_insert_Permutation, IH.
Qed.

Local Abbreviation by_updatedAt :=
  (fun a b : Note.t => Note.updatedAt b - Note.updatedAt a).

Lemma sort_insert_newer_first x l :
  StronglySorted newer_first l ->
  StronglySorted newer_first (JS.sort_insert by_updatedAt x l).
Proof.
  induction 1 as [|y l Hl IH Hy]; simpl.
  - repeat constructor.
  - destruct (Z.leb_spec (Note.updatedAt y - Note.updatedAt x) 0) as [Hle|Hgt].
    + constructor; [by constructor|].
      constructor; [unfold newer_first; lia|].
      eapply Forall_impl; [exact Hy|]. unfold newer_first. intros z Hz. lia.
    + constructor; [done|].
      rewrite sort_insert_Permutation. constructor; [|done].
      unfold newer_first. lia.
Qed.

Lemma sort_newer_first l : StronglySorted newer_first (JS.sort by_updatedAt l).
Proof.
  induction l as [|x l IH]; simpl; [constructor|].
  by apply sort_insert_newer_first.
Qed.

Section ListView.

Variable toLowerCase : jsstring -> jsstring.
Hypothesis toLowerCase_empty : toLowerCase [] = [].

Lemma includes_empty s : JS.includes s [] = true.
Proof. by destruct s. Qed.

Lemma includes_in_empty q : JS.includes [] q = true -> q = [].
Proof. by destruct q. Qed.

(** An empty summary is skipped, which changes nothing: only the empty
    string occurs in it, and that one occurs in the content too. *)
Lemma search_clause query n :
  JS.includes (toLowerCase (Note.content n)) (toLowerCase query)
  || JS.truthy_opt (Note.summary n)
     && JS.includes (toLowerCase (default [] (Note.summary n)))
                    (toLowerCase query)
  = JS.includes (toLowerCase (Note.content n)) (toLowerCase query)
    || match Note.summary n with
       | Some s => JS.includes (toLowerCase s) (toLowerCase query)
       | None => false
       end.
Proof.
  destruct (Note.summary n) as [[|c s]|]; simpl; try done.
  rewrite toLowerCase_empty.
  destruct (JS.includes [] (toLowerCase query)) eqn:E; [|done].
  apply includes_in_empty in E as ->. by rewrite includes_empty.
Qed.

(** The three filters of [filteredNotes] amount to one. *)
Lemma filteredNotes_unfold ns v folderId tag query :
  filteredNotes toLowerCase ns v folderId tag query =
  JS.sort by_updatedAt
          (List.filter (displayed toLowerCase v folderId tag query) ns).
Proof.
  unfold filteredNotes. f_equal.
  set (undeleted := List.filter (fun n => negb (Note.deleted n)) ns).
  assert ((if bool_decide (v = folders_view) && JS.truthy_opt folderId
           then List.filter
                  (fun n => JS.arr_includes (Note.folderIds n) (default [] folderId))
                  undeleted
           else if bool_decide (v = tags_view) && JS.truthy_opt tag
           then List.filter
                  (fun n => JS.arr_includes (Note.tags n) (default [] tag))
                  undeleted
           else undeleted)
          = List.filter (passes (activeFilter v folderId tag)) undeleted) as ->.
  { destruct v, folderId as [[|c fid]|], tag as [[|d t]|]; simpl;
      by rewrite ?filter_all. }
  assert (forall l,
            (if JS.truthy query
             then List.filter
                    (fun n =>
                       JS.includes (toLowerCase (Note.content n)) (toLowerCase query)
                       || JS.truthy_opt (Note.summary n)
                          && JS.includes (toLowerCase (default [] (Note.summary n)))
                                         (toLowerCase query)) l
             else l)
            = List.filter (search_hit toLowerCase query) l) as ->.
  { intros l. destruct query as [|c q]; simpl; [by rewrite filter_all|].
    apply filter_ext. intros n. apply search_clause. }
  subst undeleted. rewrite !filter_filter_bool.
  apply filter_ext. intros n. unfold displayed. by rewrite andb_assoc.
Qed.

(** C6.  The list on display holds exactly the notes of the collection
    that are not in the trash, pass the filter in force (the chosen
    folder is among the note's folder identifiers, or the chosen tag
    among its tags) and, when a search string is given, contain it up
    to case in the content or in the summary if there is one; each such
    note is shown as often as the collection holds it, and the list is
    ordered by [updatedAt], the latest first. *)
Theorem filteredNotes_exact ns v folderId tag query :
  let shown := filteredNotes toLowerCase ns v folderId tag query in
  shown ≡ₚ List.filter (displayed toLowerCase v folderId tag query) ns
  /\ (forall n,
        n ∈ shown <->
        n ∈ ns
        /\ Note.isDeleted n <> Some true
        /\ match activeFilter v folderId tag with
           | NoFilter => True
           | ByFolder fid => fid ∈ Note.folderIds n
           | ByTag t => t ∈ Note.tags n
           end
        /\ (query = []
            \/ contains_ci toLowerCase (Note.content n) query
            \/ exists s, Note.summary n = Some s
                         /\ contains_ci toLowerCase s query))
  /\ StronglySorted newer_first shown.
Proof.
  intros shown. subst shown. rewrite filteredNotes_unfold. split_and!.
  - apply sort_Permutation.
  - intros n. rewrite sort_Permutation, elem_of_filter_bool.
    unfold displayed. rewrite !andb_true_iff, negb_true_iff.
    assert (Note.deleted n = false <-> Note.isDeleted n <> Some true) as ->.
    { unfold Note.deleted. by destruct (Note.isDeleted n) as [[|]|]. }
    assert (passes (activeFilter v folderId tag) n = true <->
            match activeFilter v folderId tag with
            | NoFilter => True
            | ByFolder fid => fid ∈ Note.folderIds n
            | ByTag t => t ∈ Note.tags n
            end) as ->.
    { destruct (activeFilter v folderId tag); simpl;
        rewrite ?bool_decide_eq_true; done. }
    assert (search_hit toLowerCase query n = true <->
            (query = []
             \/ contains_ci toLowerCase (Note.content n) query
             \/ exists s, Note.summary n = Some s
                          /\ contains_ci toLowerCase s query)) as ->.
    { unfold search_hit, contains_ci.
      destruct query as [|c q]; [split; [by left|done]|].
      rewrite orb_true_iff, includes_infix.
      destruct (Note.summary n) as [s|].
      - rewrite includes_infix. split.
        + intros [H|H]; [by right; left|]. right. right. by exists s.
        + intros [H|[H|(s' & [= <-] & H)]]; [done|by left|by right].
      - split.
        + intros [H|H]; [by right; left|done].
        + intros [H|[H|(s' & H & _)]]; [done|by left|done]. }
    tauto.
  - apply sort_newer_first.
Qed.

End ListView.

(** ** Folder associations and tags stay free of duplicates *)

Lemma NoDup_snoc_new (l : list (list N)) x : NoDup l -> x ∉ l -> NoDup (l ++ [x]).
Proof.
  intros Hl Hx. apply NoDup_app. split_and!; [done| |apply NoDup_singleton].
  intros y Hy ->%list_elem_of_singleton. done.
Qed.

Lemma NoDup_slice (l : list (list N)) a b : NoDup l -> NoDup (JS.slice l a b).
Proof.
  intros Hl. unfold JS.slice. apply (sublist_NoDup _ l Hl).
  etrans; [apply sublist_take|apply sublist_drop].
Qed.

Lemma NoDup_filter_bool (p : list N -> bool) (l : list (list N)) :
  NoDup l -> NoDup (List.filter p l).
Proof.
  intros Hl. apply (sublist_NoDup _ l Hl).
  clear Hl. induction l as [|x l IH]; simpl; [done|].
  destruct (p x); [by apply sublist_skip|by apply sublist_cons].
Qed.

Lemma Forall_filter_bool {A} (P : A -> Prop) (p : A -> bool) l :
  Forall P l -> Forall P (List.filter p l).
Proof.
  rewrite !Forall_forall. intros H x [Hx _]%elem_of_filter_bool. by apply H.
Qed.

Lemma deduplicated_set_isDeleted b n :
  deduplicated n -> deduplicated (Note.set_isDeleted b n).
Proof. by intros [? ?]. Qed.

(** Appending after a failed membership test keeps a list free of
    duplicates. *)
Lemma NoDup_add_if_absent (l : list (list N)) x :
  NoDup l -> NoDup (if negb (JS.arr_includes l x) then l ++ [x] else l).
Proof.
  intros Hl. destruct (JS.arr_includes l x) eqn:E; simpl; [done|].
  apply NoDup_snoc_new; [done|]. by apply arr_includes_false.
Qed.

Section Invariant.

Variable toLowerCase : jsstring -> jsstring.
Variable stringify_notes : list Note.t -> jsstring.
Variable stringify_folders : list Folder.t -> jsstring.

Local Abbreviation notes_ok st := (Forall deduplicated (notes st)).

(** *** The storage hook *)

Lemma saveNote_ok note st :
  deduplicated note -> notes_ok st -> notes_ok (saveNote stringify_notes note st).
Proof.
  intros Hn Hst. unfold saveNote. simpl.
  destruct (0 <=? _); [by apply Forall_insert|by constructor].
Qed.

Lemma deleteNote_ok id st :
  notes_ok st -> notes_ok (deleteNote stringify_notes id st).
Proof.
  intros Hst. unfold deleteNote. simpl. apply Forall_fmap.
  eapply Forall_impl; [exact Hst|]. intros n Hn. simpl.
  destruct (bool_decide _); [by apply deduplicated_set_isDeleted|done].
Qed.

Lemma restoreNote_ok id st :
  notes_ok st -> notes_ok (restoreNote stringify_notes id st).
Proof.
  intros Hst. unfold restoreNote. simpl. apply Forall_fmap.
  eapply Forall_impl; [exact Hst|]. intros n Hn. simpl.
  destruct (bool_decide _); [by apply deduplicated_set_isDeleted|done].
Qed.

Lemma permanentlyDeleteNote_ok id st :
  notes_ok st -> notes_ok (permanentlyDeleteNote stringify_notes id st).
Proof. intros Hst. unfold permanentlyDeleteNote. simpl. by apply Forall_filter_bool. Qed.

Lemma emptyTrash_ok st : notes_ok st -> notes_ok (emptyTrash stringify_notes st).
Proof. intros Hst. unfold emptyTrash. simpl. by apply Forall_filter_bool. Qed.

Lemma cleanupFolders_ok st :
  notes_ok st -> notes_ok (cleanupFolders stringify_folders st).
Proof. by rewrite cleanupFolders_notes. Qed.

Lemma findOrCreateFolder_notes name uuid st :
  notes (snd (findOrCreateFolder toLowerCase stringify_folders name uuid st))
  = notes st.
Proof. unfold findOrCreateFolder. by destruct (findFolderByName _ _ _). Qed.

Lemma bulk_delete_ok ids st :
  notes_ok st ->
  notes_ok (fold_left (fun st id => deleteNote stringify_notes id st) ids st).
Proof.
  revert st. induction ids as [|id ids IH]; intros st Hst; simpl; [done|].
  by apply IH, deleteNote_ok.
Qed.

(** *** The editor *)

Lemma finalTags_union ed :
  NoDup (finalTags ed)
  /\ forall t, t ∈ finalTags ed <-> t ∈ manualTags ed \/ t ∈ derivedTags ed.
Proof.
  unfold finalTags. split; [apply NoDup_set_of_array|].
  intros t. by rewrite elem_of_set_of_array, elem_of_app.
Qed.

Lemma handleContentChange_ok val uuid st ed :
  editor_deduplicated ed ->
  notes (fst (handleContentChange toLowerCase stringify_folders val uuid st ed))
  = notes st
  /\ editor_deduplicated
       (snd (handleContentChange toLowerCase stringify_folders val uuid st ed)).
Proof.
  intros [Hf Ht]. unfold handleContentChange.
  destruct (match_trailing JS.AT val) as [[folderName fullMatch]|].
  - pose proof (findOrCreateFolder_notes folderName uuid st) as Hnotes.
    destruct (findOrCreateFolder _ _ _ _ _) as [targetFolder st']. simpl in *.
    split; [done|].
    pose proof (NoDup_add_if_absent _ (Folder.id targetFolder) Hf) as Hadd.
    destruct (negb _); by split.
  - destruct (match_trailing JS.HASH val) as [[name fullMatch]|]; simpl.
    + split; [done|].
      pose proof (NoDup_add_if_absent _ (toLowerCase name) Ht) as Hadd.
      destruct (negb _); by split.
    + by split.
Qed.

Lemma handleFolderInputKeyDown_ok key uuid st ed :
  editor_deduplicated ed ->
  notes (fst (handleFolderInputKeyDown toLowerCase stringify_folders key uuid st ed))
  = notes st
  /\ editor_deduplicated
       (snd (handleFolderInputKeyDown toLowerCase stringify_folders key uuid st ed)).
Proof.
  intros [Hf Ht]. unfold handleFolderInputKeyDown.
  destruct (is_commit_key key); [|by split].
  destruct (negb (JS.truthy (JS.trim (folderInputValue ed)))); [by split|].
  destruct (negb (JS.truthy _)); [by split|].
  match goal with
  | |- context [findOrCreateFolder _ _ ?name uuid st] =>
      pose proof (findOrCreateFolder_notes name uuid st) as Hnotes;
      destruct (findOrCreateFolder toLowerCase stringify_folders name uuid st)
        as [targetFolder st']
  end.
  simpl in *. split; [done|].
  pose proof (NoDup_add_if_absent _ (Folder.id targetFolder) Hf) as Hadd.
  destruct (negb _); by split.
Qed.

Lemma handleTagKeyDown_ok key ed :
  editor_deduplicated ed -> editor_deduplicated (handleTagKeyDown toLowerCase key ed).
Proof.
  intros [Hf Ht]. unfold handleTagKeyDown.
  destruct (is_commit_key key).
  - set (val := toLowerCase _).
    destruct (JS.truthy val); simpl; [|by split].
    pose proof (NoDup_add_if_absent _ val Ht) as Hadd.
    destruct (negb _); by split.
  - destruct (_ && _); [|by split]. split; [done|]. by apply NoDup_slice.
Qed.

Lemma toggleFolder_ok id ed :
  editor_deduplicated ed -> editor_deduplicated (toggleFolder id ed).
Proof.
  intros [Hf Ht]. unfold toggleFolder.
  destruct (negb (isEditing ed)); [by split|].
  destruct (JS.arr_includes _ _) eqn:E; (split; [|done]); simpl.
  - by apply NoDup_filter_bool.
  - apply NoDup_snoc_new; [done|]. by apply arr_includes_false.
Qed.

Lemma removeTag_ok t ed :
  editor_deduplicated ed -> editor_deduplicated (removeTag t ed).
Proof.
  intros [Hf Ht]. unfold removeTag.
  destruct (negb (isEditing ed)); [by split|].
  split; [done|]. by apply NoDup_filter_bool.
Qed.

Lemma handleSave_ok note now st ed :
  editor_deduplicated ed -> notes_ok st ->
  notes_ok (handleSave stringify_notes note now st ed).
Proof.
  intros [Hf Ht] Hst. unfold handleSave. apply saveNote_ok; [|done].
  split; simpl; [done|]. apply finalTags_union.
Qed.

Lemma mountEditor_ok note :
  deduplicated note -> editor_deduplicated (mountEditor toLowerCase note).
Proof. by intros [? ?]. Qed.

(** *** The application *)

Lemma activeNote_in a note :
  activeNote a = Some note -> note ∈ notes (storage a).
Proof.
  unfold activeNote. destruct (activeNoteId a) as [i|]; [|done].
  destruct (JS.truthy i); [|done].
  intros [Hin _]%find_some. by apply list_elem_of_In.
Qed.

Lemma render_ok a : app_deduplicated a -> app_deduplicated (render toLowerCase a).
Proof.
  intros [Hnotes Hed]. unfold render.
  destruct (activeNote a) as [note|] eqn:Hactive; [|by split].
  destruct (editor a) as [ed|] eqn:Heditor; [split; by rewrite ?Heditor|].
  split; [done|]. simpl. apply mountEditor_ok.
  apply activeNote_in in Hactive. by rewrite Forall_forall in Hnotes; apply Hnotes.
Qed.

Lemma createNewNote_ok uuid now a :
  notes_ok (storage a) ->
  notes_ok (storage (createNewNote stringify_notes uuid now a)).
Proof.
  intros Hst. unfold createNewNote. cbn [storage set_activeNoteId set_storage].
  apply saveNote_ok; [|done].
  split; simpl.
  - destruct (_ && _); [apply NoDup_singleton|constructor].
  - destruct (_ && _); [apply NoDup_singleton|constructor].
Qed.

Lemma notesChanged_ok a :
  app_deduplicated a -> app_deduplicated (notesChanged stringify_folders a).
Proof. intros [Hn He]. split; [by apply cleanupFolders_ok|done]. Qed.

Lemma set_storage_ok st a :
  notes_ok st -> app_deduplicated a -> app_deduplicated (set_storage st a).
Proof. intros Hst [_ He]. by split. Qed.

Lemma set_editor_ok ed a :
  editor_deduplicated ed -> app_deduplicated a ->
  app_deduplicated (set_editor (Some ed) a).
Proof. intros Hed [Hn _]. by split. Qed.

Lemma set_activeNoteId_ok i a :
  app_deduplicated a -> app_deduplicated (set_activeNoteId i a).
Proof. by intros [? ?]. Qed.

Lemma in_list_view ev a :
  app_deduplicated a ->
  app_deduplicated
    match ev with
    | AddClick uuid now =>
        if JS.truthy_opt (activeNoteId a) || bool_decide (view a = editor_view)
        then a
        else notesChanged stringify_folders (createNewNote stringify_notes uuid now a)
    | NoteCardClick id =>
        if isSelectionMode a then toggleSelection id a
        else set_activeNoteId (Some id) a
    | BulkDeleteConfirmed =>
        if isSelectionMode a && (0 <? Z.of_nat (length (selectedNoteIds a)))
        then notesChanged stringify_folders (handleBulkDelete stringify_notes a)
        else a
    | RestoreClick id =>
        notesChanged stringify_folders
          (set_storage (restoreNote stringify_notes id (storage a)) a)
    | PermanentDeleteClick id =>
        notesChanged stringify_folders
          (set_storage (permanentlyDeleteNote stringify_notes id (storage a)) a)
    | EmptyTrashClick =>
        notesChanged stringify_folders
          (set_storage (emptyTrash stringify_notes (storage a)) a)
    | ResetConfirmed =>
        notesChanged stringify_folders (set_storage (clearAllData (storage a)) a)
    | NewFolderPrompt name uuid =>
        if JS.truthy name
        then set_storage (snd (createFolder stringify_folders name uuid (storage a))) a
        else a
    | TabChange v =>
        set_isSelectionMode false
          (set_activeTag None (set_activeFolderId None (set_view v a)))
    | TrashRowClick => set_view trash a
    | FolderTileClick id => set_activeFolderId (Some id) a
    | TagTileClick tag => set_activeTag (Some tag) a
    | BackClick =>
        if bool_decide (view a = folders_view) && JS.truthy_opt (activeFolderId a)
        then set_activeFolderId None a
        else if bool_decide (view a = tags_view) && JS.truthy_opt (activeTag a)
        then set_activeTag None a
        else if bool_decide (view a = trash) then set_view settings a
        else a
    | SearchChange q => set_searchQuery q a
    | ToggleSelectClick => set_isSelectionMode (negb (isSelectionMode a)) a
    | _ => a
    end.
Proof.
  intros Ha. pose proof Ha as [Hnotes Hed].
  destruct ev; try done.
  - destruct (_ || _); [done|].
    apply notesChanged_ok. split; [by apply createNewNote_ok|done].
  - destruct (isSelectionMode a); [|done].
    unfold toggleSelection. by destruct (JS.arr_includes _ _).
  - destruct (_ && _); [|done]. apply notesChanged_ok.
    split; [|done]. by apply bulk_delete_ok.
  - by apply notesChanged_ok, set_storage_ok; [apply restoreNote_ok|].
  - by apply notesChanged_ok, set_storage_ok; [apply permanentlyDeleteNote_ok|].
  - by apply notesChanged_ok, set_storage_ok; [apply emptyTrash_ok|].
  - destruct (JS.truthy name); [|done]. by apply set_storage_ok.
  - repeat (destruct (_ && _); [done|]). by destruct (bool_decide _).
Qed.

Lemma handle_ok ev a :
  app_deduplicated a ->
  app_deduplicated (handle toLowerCase stringify_notes stringify_folders ev a).
Proof.
  intros Ha. pose proof Ha as [Hnotes Hed]. unfold handle.
  destruct (editor a) as [ed|] eqn:Heditor; [|by apply in_list_view].
  destruct (activeNote a) as [note|] eqn:Hactive; [|by apply in_list_view].
  destruct ev; try done.
  all: try (destruct (isEditing ed); [|done]).
  - destruct (handleContentChange_ok val uuid (storage a) ed Hed) as [Hn He].
    destruct (handleContentChange _ _ _ _ _ _) as [st ed'].
    simpl in Hn, He. apply set_editor_ok; [done|].
    apply set_storage_ok; [by rewrite Hn|done].
  - by apply set_editor_ok.
  - destruct (handleFolderInputKeyDown_ok key uuid (storage a) ed Hed) as [Hn He].
    destruct (handleFolderInputKeyDown _ _ _ _ _ _) as [st ed'].
    simpl in Hn, He. apply set_editor_ok; [done|].
    apply set_storage_ok; [by rewrite Hn|done].
  - apply set_editor_ok; [|done]. by destruct (toggleFolder_ok id ed Hed).
  - destruct (createRowShown _ _ _); [|done]. simpl.
    apply set_editor_ok; [by destruct (toggleFolder_ok uuid ed Hed)|].
    by apply set_storage_ok.
  - by apply set_editor_ok; [apply toggleFolder_ok|].
  - by apply set_editor_ok.
  - by apply set_editor_ok; [apply handleTagKeyDown_ok|].
  - by apply set_editor_ok; [apply removeTag_ok|].
  - apply notesChanged_ok, set_activeNoteId_ok, set_storage_ok; [|done].
    by apply handleSave_ok.
  - apply notesChanged_ok, set_activeNoteId_ok, set_storage_ok; [|done].
    by apply deleteNote_ok.
Qed.

Lemma step_ok a ev :
  app_deduplicated a ->
  app_deduplicated (step toLowerCase stringify_notes stringify_folders a ev).
Proof. intros H. unfold step. by apply render_ok, handle_ok. Qed.

(** C8.  From a state whose notes (and whose open editor, if there is
    one) have folder identifiers and tags free of duplicates, every
    sequence of events leads to such a state: every note that creating,
    editing, saving, deleting or restoring has put into the collection
    is free of duplicates.  The tags that a save stores are the manual
    and the derived tags without repetition, and the handlers append a
    folder identifier or a tag only after a failed membership test. *)
Theorem notes_stay_deduplicated a evs :
  app_deduplicated a ->
  let a' := run toLowerCase stringify_notes stringify_folders a evs in
  app_deduplicated a'
  /\ (forall n, n ∈ notes (storage a') ->
                NoDup (Note.folderIds n) /\ NoDup (Note.tags n))
  /\ (forall ed,
        NoDup (finalTags ed)
        /\ forall t, t ∈ finalTags ed <-> t ∈ manualTags ed \/ t ∈ derivedTags ed)
  /\ (forall (l : list (list N)) x,
        NoDup l -> NoDup (if negb (JS.arr_includes l x) then l ++ [x] else l)).
Proof.
  intros Ha a'.
  assert (app_deduplicated a') as Ha'.
  { subst a'. unfold run. revert a Ha.
    induction evs as [|ev evs IH]; intros a Ha; simpl; [done|].
    by apply IH, step_ok. }
  split_and!.
  - done.
  - intros n Hn. destruct Ha' as [Hnotes _].
    rewrite Forall_forall in Hnotes. by apply Hnotes.
  - apply finalTags_union.
  - apply NoDup_add_if_absent.
Qed.

End Invariant.

(** ** Loading from the key-value store *)

Section Loading.

Variable number : Type.
Variable number_truthy : number -> bool.
Variable JSON_parse : jsstring -> option (value number).

Local Abbreviation truthyV := (truthy_value number_truthy).
Local Abbreviation migrate := (migrateNote number_truthy).

Lemma folderIds_not_isDeleted : js "folderIds" <> js "isDeleted".
Proof. done. Qed.

(** The migration of a stored object, field by field. *)
Lemma migrateNote_object (props : gmap (list N) (value number)) :
  migrate (VObj props) =
  Ok (VObj
        (<[js "isDeleted" :=
             let del := default VUndefined (props !! js "isDeleted") in
             if truthyV del then del else VBool false]>
           (<[js "folderIds" :=
                let old := default VUndefined (props !! js "folderIds") in
                if isArray old then old
                else
                  let folderId := default VUndefined (props !! js "folderId") in
                  if truthyV folderId then VArr [folderId] else VArr []]>
              props))).
Proof.
  unfold migrateNote. simpl.
  by destruct (isArray (default VUndefined (props !! js "folderIds"))).
Qed.

Lemma mapM_objects (records : list (gmap (list N) (value number))) :
  exists migrated,
    mapM migrate (map VObj records) = Ok migrated
    /\ Forall2 (fun props m => migrate (VObj props) = Ok m) records migrated.
Proof.
  induction records as [|props records (migrated & Hm & Hall)].
  - exists []. by split.
  - pose proof (migrateNote_object props) as Hp.
    eexists (_ :: migrated). cbn [map mapM]. rewrite Hp, Hm. simpl.
    split; [done|]. by constructor.
Qed.

Lemma loadNotes_total savedNotes :
  exists ns, loadNotes number_truthy JSON_parse savedNotes = Ok ns.
Proof.
  unfold loadNotes. destruct (JS.truthy_opt savedNotes); [|by eexists].
  destruct (parse JSON_parse _) as [parsed|e]; simpl; [|by eexists].
  destruct (array_map _ parsed); simpl; by eexists.
Qed.

Lemma loadFolders_total savedFolders ls :
  exists fs, loadFolders JSON_parse savedFolders ls = Ok fs.
Proof.
  unfold loadFolders. destruct (JS.truthy_opt savedFolders); [|by eexists].
  destruct (parse JSON_parse _); simpl; by eexists.
Qed.

(** C7, as the code has it.  A stored record that lacks an array-valued
    [folderIds] gets [folderIds = [folderId]] when its legacy
    [folderId] is truthy (a non-empty string, say) and [[]] when that
    field is missing or falsy; an array-valued [folderIds] is kept; a
    missing [isDeleted] becomes [false]; every other field is copied.
    A stored collection of records is migrated record by record.  When
    the stored text for the notes does not parse the notes are empty,
    when the stored text for the folders does not parse the folders are
    the default set and the store is left alone; the initialising
    effect never throws. *)
Theorem stored_notes_migrated_or_reset :
  (forall props : gmap (list N) (value number),
      exists props',
        migrate (VObj props) = Ok (VObj props')
        /\ (forall l, props !! js "folderIds" = Some (VArr l) ->
                      props' !! js "folderIds" = Some (VArr l))
        /\ ((forall l, props !! js "folderIds" <> Some (VArr l)) ->
            (forall fid, props !! js "folderId" = Some fid ->
                         truthyV fid = true ->
                         props' !! js "folderIds" = Some (VArr [fid]))
            /\ (forall fid, props !! js "folderId" = Some fid ->
                            truthyV fid = false ->
                            props' !! js "folderIds" = Some (VArr []))
            /\ (props !! js "folderId" = None ->
                props' !! js "folderIds" = Some (VArr [])))
        /\ (props !! js "isDeleted" = None ->
            props' !! js "isDeleted" = Some (VBool false))
        /\ (forall v, props !! js "isDeleted" = Some v ->
                      props' !! js "isDeleted"
                      = Some (if truthyV v then v else VBool false))
        /\ (forall k, k <> js "folderIds" -> k <> js "isDeleted" ->
                      props' !! k = props !! k))
  /\ (forall text records,
        text <> [] -> JSON_parse text = Some (VArr (map VObj records)) ->
        exists migrated,
          loadNotes number_truthy JSON_parse (Some text) = Ok migrated
          /\ Forall2 (fun props m => migrate (VObj props) = Ok m)
                     records migrated)
  /\ (forall text,
        JSON_parse text = None ->
        loadNotes number_truthy JSON_parse (Some text) = Ok [])
  /\ (forall text ls,
        text <> [] -> JSON_parse text = None ->
        loadFolders JSON_parse (Some text) ls = Ok (DEFAULT_FOLDERS_value, ls))
  /\ (forall ls, exists l, initialize number_truthy JSON_parse ls = Ok l)
  /\ (forall ls l notesText,
        initialize number_truthy JSON_parse ls = Ok l ->
        ls !! NOTES_KEY = Some notesText -> JSON_parse notesText = None ->
        loaded_notes l = [])
  /\ (forall ls l foldersText,
        initialize number_truthy JSON_parse ls = Ok l ->
        ls !! FOLDERS_KEY = Some foldersText -> foldersText <> [] ->
        JSON_parse foldersText = None ->
        loaded_folders l = VArr [] /\ loaded_storage l = ls).
Proof.
  split_and!.
  - intros props. eexists. split; [apply migrateNote_object|].
    split_and!.
    + intros l Hl. rewrite lookup_insert_ne by done.
      rewrite lookup_insert_eq, Hl. done.
    + intros Hnot.
      assert (isArray (default VUndefined (props !! js "folderIds")) = false)
        as Harr.
      { destruct (props !! js "folderIds") as [[]|] eqn:E; simpl; try done.
        by destruct (Hnot elems). }
      split_and!.
      * intros fid Hfid Ht. rewrite lookup_insert_ne by done.
        rewrite lookup_insert_eq. simpl. by rewrite Harr, Hfid; simpl; rewrite Ht.
      * intros fid Hfid Ht. rewrite lookup_insert_ne by done.
        rewrite lookup_insert_eq. simpl. by rewrite Harr, Hfid; simpl; rewrite Ht.
      * intros Hfid. rewrite lookup_insert_ne by done.
        rewrite lookup_insert_eq. simpl. by rewrite Harr, Hfid.
    + intros Hdel. rewrite lookup_insert_eq. by rewrite Hdel.
    + intros v Hdel. rewrite lookup_insert_eq. by rewrite Hdel.
    + intros k Hk1 Hk2. by rewrite !lookup_insert_ne.
  - intros text records Hne Hparse.
    destruct (mapM_objects records) as (migrated & Hm & Hall).
    exists migrated. split; [|done].
    unfold loadNotes, parse. destruct text; [done|]. simpl.
    rewrite Hparse. simpl. by rewrite Hm.
  - intros text Hparse. unfold loadNotes, parse.
    destruct (JS.truthy_opt (Some text)); [|done]. simpl. by rewrite Hparse.
  - intros text ls Hne Hparse. unfold loadFolders, parse.
    destruct text; [done|]. simpl. by rewrite Hparse.
  - intros ls. unfold initialize.
    destruct (loadNotes_total (ls !! NOTES_KEY)) as [ns ->].
    destruct (loadFolders_total (ls !! FOLDERS_KEY) ls) as [fs ->].
    by eexists.
  - intros ls l notesText Hinit Hkey Hparse. unfold initialize in Hinit.
    rewrite Hkey in Hinit.
    assert (loadNotes number_truthy JSON_parse (Some notesText) = Ok []) as Hn.
    { unfold loadNotes, parse.
      destruct (JS.truthy_opt (Some notesText)); [|done]. simpl.
      by rewrite Hparse. }
    rewrite Hn in Hinit. simpl in Hinit.
    destruct (loadFolders_total (ls !! FOLDERS_KEY) ls) as [fs Hfs].
    rewrite Hfs in Hinit. simpl in Hinit. by injection Hinit as <-.
  - intros ls l foldersText Hinit Hkey Hne Hparse. unfold initialize in Hinit.
    destruct (loadNotes_total (ls !! NOTES_KEY)) as [ns Hns].
    rewrite Hns, Hkey in Hinit. simpl in Hinit.
    assert (loadFolders JSON_parse (Some foldersText) ls
            = Ok (DEFAULT_FOLDERS_value, ls)) as Hf.
    { unfold loadFolders, parse. destruct foldersText; [done|]. simpl.
      by rewrite Hparse. }
    rewrite Hf in Hinit. simpl in Hinit. by injection Hinit as <-.
Qed.

(** ** The analysis request *)

Variable generateContent : jsstring -> jsstring -> result (option jsstring).

Local Abbreviation analyze := (analyzeNoteContent JSON_parse generateContent).

(** C9.  [analyzeNoteContent] never throws.  Without a key in the
    environment it answers [null] and sends nothing.  With a key it
    sends one request, whose text holds the first 5000 characters of
    the content and no more, and answers [null] when the call fails,
    when the response has no text and when the text does not parse;
    a text that parses is answered as parsed. *)
Theorem analyzeNoteContent_best_effort API_KEY content :
  (exists outcome, fst (analyze API_KEY content) = Ok outcome)
  /\ (JS.truthy_opt API_KEY = false -> analyze API_KEY content = (Ok None, []))
  /\ (forall key,
        API_KEY = Some key -> key <> [] ->
        snd (analyze API_KEY content) = [analysisPrompt content]
        /\ (forall e, generateContent key (analysisPrompt content) = Throw e ->
                      fst (analyze API_KEY content) = Ok None)
        /\ (generateContent key (analysisPrompt content) = Ok None ->
            fst (analyze API_KEY content) = Ok None)
        /\ (generateContent key (analysisPrompt content) = Ok (Some []) ->
            fst (analyze API_KEY content) = Ok None)
        /\ (forall text,
              generateContent key (analysisPrompt content) = Ok (Some text) ->
              JSON_parse text = None ->
              fst (analyze API_KEY content) = Ok None)
        /\ (forall text data,
              generateContent key (analysisPrompt content) = Ok (Some text) ->
              text <> [] -> JSON_parse text = Some data ->
              fst (analyze API_KEY content) = Ok (Some data)))
  /\ (exists embedded,
        analysisPrompt content
        = js "Analyze the following note text and provide metadata: "
             ++ [34%N] ++ embedded ++ [34%N]
        /\ embedded = take 5000 content
        /\ (length embedded <= 5000)%nat
        /\ (length content <= 5000 -> embedded = content)%nat).
Proof.
  split_and!.
  - unfold analyzeNoteContent.
    destruct (negb (JS.truthy_opt API_KEY)); simpl; [by eexists|].
    destruct (generateContent _ _) as [response|e]; simpl; [|by eexists].
    destruct (JS.truthy_opt response); simpl; [|by eexists].
    destruct (parse JSON_parse _); simpl; by eexists.
  - intros Hkey. unfold analyzeNoteContent. by rewrite Hkey.
  - intros key -> Hne. unfold analyzeNoteContent.
    destruct key as [|c key]; [done|]. simpl.
    split_and!; try done.
    + by intros e ->.
    + by intros ->.
    + by intros ->.
    + intros text -> Hparse. simpl. unfold parse.
      destruct text; simpl; [done|]. by rewrite Hparse.
    + intros text data -> Htext Hparse. simpl. unfold parse.
      destruct text; [done|]. simpl. by rewrite Hparse.
  - exists (take 5000 content). split_and!; try done.
    + rewrite length_take. lia.
    + intros Hlen. by apply take_ge.
Qed.

End Loading.

(** * Worked examples *)

Ltac name_chars_tac := unfold name_chars; repeat (constructor; try reflexivity).

(** The folder trigger on ["Meeting notes @work "] with no folder yet:
    a folder named ["work"] is created and referenced, and the content
    becomes ["Meeting notes "]. *)
Lemma folder_trigger_commits_witness :
  js "work" <> [] /\ name_chars (js "work") /\ JS.is_space 32%N = true
  /\ exists target,
       target ∈ folders
                  (fst (handleContentChange JS.lower_ascii Demo.stringify_folders
                          (js "Meeting notes @work ") (js "uuid-1")
                          Demo.emptyStorage Demo.emptyEditor))
       /\ Folder.name target = js "work"
       /\ Folder.id target
          ∈ manualFolderIds
              (snd (handleContentChange JS.lower_ascii Demo.stringify_folders
                      (js "Meeting notes @work ") (js "uuid-1")
                      Demo.emptyStorage Demo.emptyEditor))
       /\ content
            (snd (handleContentChange JS.lower_ascii Demo.stringify_folders
                    (js "Meeting notes @work ") (js "uuid-1")
                    Demo.emptyStorage Demo.emptyEditor))
          = js "Meeting notes ".
Proof.
  assert (js "work" <> []) as H1 by discriminate.
  assert (name_chars (js "work")) as H2 by name_chars_tac.
  assert (JS.is_space 32%N = true) as H3 by reflexivity.
  split_and!; try assumption.
  destruct (folder_trigger_commits JS.lower_ascii Demo.stringify_folders
              (js "Meeting notes ") (js "work") 32%N (js "uuid-1")
              Demo.emptyStorage Demo.emptyEditor H1 H2 H3)
    as (target & Hin & _ & _ & Hnew & Hid & _ & Hcontent & _).
  exists target. split_and!; try assumption.
  destruct Hnew as [-> _]; [|reflexivity].
  intros f Hf. exfalso. revert Hf. apply not_elem_of_nil.
Defined.

(** The tag trigger on ["Buy milk #errand "]: the content becomes
    ["Buy milk "] and the manual tags hold ["errand"]. *)
Lemma tag_trigger_commits_witness :
  js "errand" <> [] /\ name_chars (js "errand") /\ JS.is_space 32%N = true
  /\ manualTags
       (snd (handleContentChange JS.lower_ascii Demo.stringify_folders
               (js "Buy milk #errand ") (js "uuid-1")
               Demo.emptyStorage Demo.emptyEditor))
     = [js "errand"]
  /\ content
       (snd (handleContentChange JS.lower_ascii Demo.stringify_folders
               (js "Buy milk #errand ") (js "uuid-1")
               Demo.emptyStorage Demo.emptyEditor))
     = js "Buy milk ".
Proof.
  assert (js "errand" <> []) as H1 by discriminate.
  assert (name_chars (js "errand")) as H2 by name_chars_tac.
  assert (JS.is_space 32%N = true) as H3 by reflexivity.
  split_and!; try assumption.
  - exact (proj1 (proj2 (proj2
             (tag_trigger_commits JS.lower_ascii Demo.stringify_folders
                (js "Buy milk ") (js "errand") 32%N (js "uuid-1")
                Demo.emptyStorage Demo.emptyEditor H1 H2 H3)))).
  - exact (proj1 (proj2 (proj2 (proj2
             (tag_trigger_commits JS.lower_ascii Demo.stringify_folders
                (js "Buy milk ") (js "errand") 32%N (js "uuid-1")
                Demo.emptyStorage Demo.emptyEditor H1 H2 H3))))).
Defined.

(** A name that is still being typed does not fire. *)
Lemma one_trigger_per_change_witness :
  (JS.AT = JS.AT \/ JS.AT = JS.HASH) /\ name_chars (js "wor")
  /\ handleContentChange JS.lower_ascii Demo.stringify_folders
       (js "Meeting notes @wor") (js "uuid-1") Demo.emptyStorage Demo.emptyEditor
     = (Demo.emptyStorage, set_content (js "Meeting notes @wor") Demo.emptyEditor).
Proof.
  assert (JS.AT = JS.AT \/ JS.AT = JS.HASH) as H1 by (left; reflexivity).
  assert (name_chars (js "wor")) as H2 by name_chars_tac.
  split_and!; try assumption.
  exact (proj2 (proj2 (proj2 (proj2
           (one_trigger_per_change JS.lower_ascii Demo.stringify_folders
              (js "Meeting notes @wor") (js "uuid-1")
              Demo.emptyStorage Demo.emptyEditor))))
           (js "Meeting notes ") JS.AT (js "wor") eq_refl H1 H2).
Defined.

(** The derived tags of a text with a repeated and a mixed-case tag. *)
Example derived_tags_example :
  parseMetadataFromText JS.lower_ascii (js "a #Foo b#bar-1 ##x #foo # #_")
  = [js "foo"; js "bar-1"; js "x"; js "_"].
Proof. reflexivity. Qed.


(** Saving a note whose identifier is in the collection replaces it in
    place. *)
Lemma saveNote_frame_witness :
  let n1 := Demo.note "n1" "Buy milk" [] [] 1 false in
  let n2 := Demo.note "n2" "Call mom" [] [] 2 false in
  let n2' := Demo.note "n2" "Call mom today" [] [] 3 false in
  let st := mkStorage [n1; n2] [] system ∅ in
  (exists n, n ∈ notes st /\ Note.id n = Note.id n2')
  /\ notes (saveNote Demo.stringify_notes n2' st) = [n1; n2'].
Proof.
  intros n1 n2 n2' st.
  assert (exists n, n ∈ notes st /\ Note.id n = Note.id n2') as H1.
  { exists n2. split; [right; left|]; reflexivity. }
  split; [assumption|].
  destruct (proj1 (proj2 (saveNote_frame Demo.stringify_notes n2' st)) H1)
    as (i & old & _ & _ & _ & _ & _ & _ & _).
  reflexivity.
Defined.

(** Searching for ["milk"] among ["Buy milk #errand"] and ["Call mom"]
    shows the first note only. *)
Lemma filteredNotes_exact_witness :
  let n1 := Demo.note "n1" "Buy milk #errand" [] ["errand"] 1 false in
  let n2 := Demo.note "n2" "Call mom" [] [] 2 false in
  JS.lower_ascii [] = []
  /\ filteredNotes JS.lower_ascii [n1; n2] home None None (js "milk") ≡ₚ [n1].
Proof.
  intros n1 n2.
  assert (JS.lower_ascii [] = []) as H1 by reflexivity.
  split; [assumption|].
  exact (proj1 (filteredNotes_exact JS.lower_ascii H1 [n1; n2] home None None
                  (js "milk"))).
Defined.

(** A session: a new note, a folder and a tag typed into it, saved. *)
Lemma notes_stay_deduplicated_witness :
  let session :=
    [AddClick (js "note-1") 1;
     EditorChange (js "Meeting notes @work ") (js "folder-1");
     EditorChange (js "Meeting notes @Work ") (js "folder-2");
     EditorChange (js "Meeting notes #todo ") (js "unused");
     SaveClick 2] in
  app_deduplicated Demo.emptyApp
  /\ app_deduplicated
       (run JS.lower_ascii Demo.stringify_notes Demo.stringify_folders
            Demo.emptyApp session).
Proof.
  intros session.
  assert (app_deduplicated Demo.emptyApp) as H1.
  { split; [constructor|exact I]. }
  split; [assumption|].
  exact (proj1 (notes_stay_deduplicated JS.lower_ascii Demo.stringify_notes
                  Demo.stringify_folders Demo.emptyApp session H1)).
Defined.

(** What that session leaves: one note in the folder ["work"], tagged
    ["todo"], and the one folder. *)
Example session_example :
  let a :=
    run JS.lower_ascii Demo.stringify_notes Demo.stringify_folders Demo.emptyApp
        [AddClick (js "note-1") 1;
         EditorChange (js "Meeting notes @work ") (js "folder-1");
         EditorChange (js "Meeting notes @Work ") (js "folder-2");
         EditorChange (js "Meeting notes #todo ") (js "unused");
         SaveClick 2] in
  notes (storage a)
  = [Note.mk (js "note-1") [] (js "Meeting notes ") [js "folder-1"] [js "todo"]
             None 1 2 (Some false)]
  /\ folders (storage a)
     = [Folder.mk (js "folder-1") (js "work") (Some (js "folder")) None]
  /\ editor a = None.
Proof. vm_compute. done. Qed.

(** A legacy record is migrated; malformed text gives no notes. *)
Lemma stored_notes_migrated_or_reset_witness :
  Demo.legacyText <> []
  /\ Demo.JSON_parse Demo.legacyText = Some (VArr (map VObj [Demo.legacyRecord]))
  /\ Demo.JSON_parse (js "{oops") = None
  /\ (exists migrated,
        loadNotes Demo.number_truthy Demo.JSON_parse (Some Demo.legacyText)
        = Ok migrated
        /\ Forall2 (fun props m => migrateNote Demo.number_truthy (VObj props) = Ok m)
                   [Demo.legacyRecord] migrated)
  /\ loadNotes Demo.number_truthy Demo.JSON_parse (Some (js "{oops")) = Ok [].
Proof.
  assert (Demo.legacyText <> []) as H1 by discriminate.
  assert (Demo.JSON_parse Demo.legacyText
          = Some (VArr (map VObj [Demo.legacyRecord]))) as H2 by reflexivity.
  assert (Demo.JSON_parse (js "{oops") = None) as H3 by reflexivity.
  split_and!; try assumption.
  - exact (proj1 (proj2
             (stored_notes_migrated_or_reset Z Demo.number_truthy Demo.JSON_parse))
             Demo.legacyText [Demo.legacyRecord] H1 H2).
  - exact (proj1 (proj2 (proj2
             (stored_notes_migrated_or_reset Z Demo.number_truthy Demo.JSON_parse)))
             (js "{oops") H3).
Defined.

(** C7 as stated fails: a record that lacks [folderIds] and whose legacy
    [folderId] is present, as the empty string, is migrated to no folder
    at all, not to [[folderId]]. *)
Lemma empty_legacy_folderId_not_kept :
  Demo.unfiledRecord !! js "folderIds" = None
  /\ Demo.unfiledRecord !! js "folderId" = Some (VStr [])
  /\ exists props',
       migrateNote Demo.number_truthy (VObj Demo.unfiledRecord) = Ok (VObj props')
       /\ props' !! js "folderIds" = Some (VArr [])
       /\ props' !! js "folderIds" <> Some (VArr [VStr []]).
Proof.
  split; [reflexivity|]. split; [reflexivity|].
  eexists. split; [apply migrateNote_object|].
  split; [reflexivity|]. discriminate.
Qed.

(** With a key and a client whose call fails the answer is [null]; the
    request went out once. *)
Lemma analyzeNoteContent_best_effort_witness :
  Some (js "key") = Some (js "key") /\ js "key" <> []
  /\ Demo.failingClient (js "key") (analysisPrompt (js "Buy milk"))
     = Throw (Error (js "network"))
  /\ analyzeNoteContent Demo.JSON_parse Demo.failingClient
       (Some (js "key")) (js "Buy milk")
     = (Ok None, [analysisPrompt (js "Buy milk")]).
Proof.
  assert (js "key" <> []) as H1 by discriminate.
  assert (Demo.failingClient (js "key") (analysisPrompt (js "Buy milk"))
          = Throw (Error (js "network"))) as H2 by reflexivity.
  split; [reflexivity|]. split; [assumption|]. split; [assumption|].
  destruct (proj1 (proj2 (proj2
              (analyzeNoteContent_best_effort Z Demo.JSON_parse Demo.failingClient
                 (Some (js "key")) (js "Buy milk"))))
              (js "key") eq_refl H1) as (Hsent & Hfail & _).
  apply injective_projections; [exact (Hfail _ H2)|exact Hsent].
Defined.

(** The same request with a client that answers. *)
Example analyzeNoteContent_example :
  fst (analyzeNoteContent Demo.JSON_parse Demo.workingClient
         (Some (js "key")) (js "Buy milk"))
  = Ok (Some Demo.answer)
  /\ analyzeNoteContent Demo.JSON_parse Demo.workingClient None (js "Buy milk")
     = (Ok None, [])
  /\ fst (analyzeNoteContent Demo.JSON_parse Demo.silentClient
            (Some (js "key")) (js "Buy milk"))
     = Ok None.
Proof. split_and!; reflexivity. Qed.

(** One pass handles one trigger: what it leaves may itself end in a
    trigger and is not looked at again. *)
Example one_pass_example :
  let r := handleContentChange JS.lower_ascii Demo.stringify_folders
             (js "@a @b ") (js "uuid-1") Demo.emptyStorage Demo.emptyEditor in
  content (snd r) = js "@a "
  /\ map Folder.name (folders (fst r)) = [js "b"]
  /\ manualFolderIds (snd r) = [js "uuid-1"].
Proof. split_and!; reflexivity. Qed.

(** The folder view with a folder chosen lists the notes of that folder
    that are not in the trash, the latest first. *)
Example folder_view_example :
  let n1 := Demo.note "n1" "Buy milk" ["g"] [] 1 false in
  let n2 := Demo.note "n2" "Call mom" [] [] 2 false in
  let n3 := Demo.note "n3" "Buy eggs" ["g"] [] 3 false in
  let n4 := Demo.note "n4" "Buy rice" ["g"] [] 4 true in
  filteredNotes JS.lower_ascii [n1; n2; n3; n4] folders_view (Some (js "g")) None []
  = [n3; n1]
  /\ filteredNotes JS.lower_ascii [n1; n2; n3; n4] home (Some (js "g")) None (js "BUY")
     = [n3; n1]
  /\ filteredNotes JS.lower_ascii [n1; n2; n3; n4] home None None []
     = [n3; n2; n1].
Proof. split_and!; reflexivity. Qed.

(** * Further properties *)

(** ** Every change of the collections is written to the store *)

Lemma keys_distinct :
  NOTES_KEY <> FOLDERS_KEY /\ NOTES_KEY <> THEME_KEY /\ FOLDERS_KEY <> THEME_KEY.
Proof. split_and!; done. Qed.

Section Persistence.

Variable toLowerCase : jsstring -> jsstring.
Variable stringify_notes : list Note.t -> jsstring.
Variable stringify_folders : list Folder.t -> jsstring.

Local Abbreviation mirrored st :=
(notes_mirrored stringify_notes st /\ folders_mirrored stringify_folders st).

Lemma store_notes_mirrored l st :
mirrored st -> mirrored (store_notes stringify_notes l st).
Proof.
intros [_ Hf]. split.
- left. apply lookup_insert_eq.
- unfold folders_mirrored, store_notes in *. simpl.
  rewrite lookup_insert_ne by apply keys_distinct. done.
Qed.

Lemma store_folders_mirrored l st :
mirrored st -> mirrored (store_folders stringify_folders l st).
Proof.
intros [Hn _]. split.
- unfold notes_mirrored, store_folders in *. simpl.
  rewrite lookup_insert_ne; [done|]. intros H. by apply keys_distinct.
- left. apply lookup_insert_eq.
Qed.

Lemma cleanupFolders_mirrored st :
mirrored st -> mirrored (cleanupFolders stringify_folders st).
Proof.
intros H. unfold cleanupFolders.
destruct (negb _); [by apply store_folders_mirrored|done].
Qed.

Lemma clearAllData_mirrored st : mirrored (clearAllData st).
Proof.
destruct keys_distinct as (H1 & H2 & H3).
split; right; (split; [|done]); unfold clearAllData; simpl.
- rewrite !lookup_delete_ne by done. apply lookup_delete_eq.
- rewrite lookup_delete_ne by done. apply lookup_delete_eq.
Qed.

Lemma saveTheme_mirrored t st : mirrored st -> mirrored (saveTheme t st).
Proof.
destruct keys_distinct as (H1 & H2 & H3).
intros [Hn Hf]. unfold notes_mirrored, folders_mirrored, saveTheme in *. simpl.
rewrite !lookup_insert_ne by done. done.
Qed.

Lemma findOrCreateFolder_mirrored name uuid st :
mirrored st ->
mirrored (snd (findOrCreateFolder toLowerCase stringify_folders name uuid st)).
Proof.
intros H. unfold findOrCreateFolder.
destruct (findFolderByName _ _ _); [done|]. by apply store_folders_mirrored.
Qed.

Lemma handleContentChange_mirrored val uuid st ed :
mirrored st ->
mirrored (fst (handleContentChange toLowerCase stringify_folders val uuid st ed)).
Proof.
intros H. unfold handleContentChange.
destruct (match_trailing JS.AT val) as [[folderName fullMatch]|].
- pose proof (findOrCreateFolder_mirrored folderName uuid st H) as H'.
  by destruct (findOrCreateFolder _ _ _ _ _).
- by destruct (match_trailing JS.HASH val) as [[? ?]|].
Qed.

Lemma handleFolderInputKeyDown_mirrored key uuid st ed :
mirrored st ->
mirrored
  (fst (handleFolderInputKeyDown toLowerCase stringify_folders key uuid st ed)).
Proof.
intros H. unfold handleFolderInputKeyDown.
destruct (is_commit_key key); [|done].
destruct (negb (JS.truthy (JS.trim (folderInputValue ed)))); [done|].
destruct (negb (JS.truthy _)); [done|].
match goal with
| |- context [findOrCreateFolder _ _ ?name uuid st] =>
    pose proof (findOrCreateFolder_mirrored name uuid st H) as H';
    by destruct (findOrCreateFolder toLowerCase stringify_folders name uuid st)
end.
Qed.

Lemma bulk_delete_mirrored ids st :
mirrored st ->
mirrored (fold_left (fun st id => deleteNote stringify_notes id st) ids st).
Proof.
revert st. induction ids as [|id ids IH]; intros st H; simpl; [done|].
by apply IH, store_notes_mirrored.
Qed.

Ltac list_view_mirrored H :=
match goal with
| ev : Event |- _ =>
    destruct ev; try exact H;
    repeat match goal with
           | |- context [if ?c then _ else _] => destruct c; try exact H
           end;
    first
      [ apply cleanupFolders_mirrored, store_notes_mirrored; exact H
      | apply cleanupFolders_mirrored, bulk_delete_mirrored; exact H
      | apply cleanupFolders_mirrored, clearAllData_mirrored
      | apply store_folders_mirrored; exact H
      | unfold toggleSelection; destruct (JS.arr_includes _ _); exact H ]
end.

Lemma handle_mirrored ev a :
mirrored (storage a) ->
mirrored (storage (handle toLowerCase stringify_notes stringify_folders ev a)).
Proof.
intros H. unfold handle.
destruct (editor a) as [ed|]; [destruct (activeNote a) as [note|]|].
- destruct ev; try done; try (destruct (isEditing ed); [|done]);
    try exact H.
  + pose proof (handleContentChange_mirrored val uuid (storage a) ed H).
    by destruct (handleContentChange _ _ _ _ _ _).
  + pose proof (handleFolderInputKeyDown_mirrored key uuid (storage a) ed H).
    by destruct (handleFolderInputKeyDown _ _ _ _ _ _).
  + destruct (createRowShown _ _ _); [|done].
    by apply store_folders_mirrored.
  + by apply cleanupFolders_mirrored, store_notes_mirrored.
  + by apply cleanupFolders_mirrored, store_notes_mirrored.
- list_view_mirrored H.
- list_view_mirrored H.
Qed.

(** X1.  Once the store mirrors the notes and the folders it keeps
  mirroring them: after every sequence of events the stored text under
  each key is the serialisation of the collection in memory (or the key
  is absent and the collection empty, as after a reset). *)
Theorem store_mirrors_state a evs :
notes_mirrored stringify_notes (storage a) ->
folders_mirrored stringify_folders (storage a) ->
let a' := run toLowerCase stringify_notes stringify_folders a evs in
notes_mirrored stringify_notes (storage a')
/\ folders_mirrored stringify_folders (storage a').
Proof.
intros Hn Hf a'. subst a'. unfold run.
assert (mirrored (storage a)) as H by done. clear Hn Hf.
revert a H. induction evs as [|ev evs IH]; intros a H; simpl; [done|].
apply IH. unfold step, render.
pose proof (handle_mirrored ev a H) as H'.
destruct (activeNote _); [destruct (editor _)|]; done.
Qed.

(** *** Folders: create and delete *)

(** X2.  Deleting a folder that was just created under a fresh
  identifier gives back the folders as they were; neither operation
  touches the notes; a deleted identifier is gone from the
  collection. *)
Theorem createFolder_deleteFolder name uuid st :
(forall f, f ∈ folders st -> Folder.id f <> uuid) ->
let created := createFolder stringify_folders name uuid st in
let st' := deleteFolder stringify_folders uuid (snd created) in
folders (snd created) = folders st ++ [fst created]
/\ Folder.id (fst created) = uuid /\ Folder.name (fst created) = name
/\ folders st' = folders st
/\ notes st' = notes st
/\ localStorage st' !! FOLDERS_KEY = Some (stringify_folders (folders st))
/\ forall f, f ∈ folders st' -> Folder.id f <> uuid.
Proof.
intros Hfresh created st'. subst created st'.
unfold createFolder, deleteFolder. simpl.
assert (List.filter (fun f => negb (bool_decide (Folder.id f = uuid)))
                    (folders st ++ [Folder.mk uuid name (Some (js "folder")) None])
        = folders st) as Heq.
{ rewrite List.filter_app. simpl. rewrite bool_decide_eq_true_2 by done. simpl.
  rewrite app_nil_r. clear -Hfresh.
  induction (folders st) as [|f fs IH]; simpl; [done|].
  rewrite bool_decide_eq_false_2 by (apply Hfresh; by left). simpl.
  rewrite IH; [done|]. intros g Hg. apply Hfresh. by right. }
rewrite Heq. split_and!; try done.
apply lookup_insert_eq.
Qed.

End Persistence.

(** ** The trash *)

Lemma sort_insert_front x l :
  Forall (fun z => Note.updatedAt z <= Note.updatedAt x) l ->
  JS.sort_insert by_updatedAt x l = x :: l.
Proof.
  destruct 1 as [|z l Hz _]; simpl; [done|].
  destruct (Z.leb_spec (Note.updatedAt z - Note.updatedAt x) 0); [done|lia].
Qed.

Lemma filter_sort_insert p x l :
  StronglySorted newer_first l ->
  List.filter p (JS.sort_insert by_updatedAt x l) =
  if p x then JS.sort_insert by_updatedAt x (List.filter p l)
  else List.filter p l.
Proof.
  induction 1 as [|y l Hl IH Hy]; simpl.
  - by destruct (p x).
  - destruct (Z.leb_spec (Note.updatedAt y - Note.updatedAt x) 0) as [Hle|Hgt].
    + simpl. destruct (p x); [|done].
      change (if p y then y :: List.filter p l else List.filter p l)
        with (List.filter p (y :: l)).
      rewrite sort_insert_front; [done|].
      assert (Forall (fun z => Note.updatedAt z <= Note.updatedAt x) (y :: l))
        as Hall.
      { constructor; [lia|]. eapply Forall_impl; [exact Hy|].
        unfold newer_first. intros z Hz. lia. }
      rewrite Forall_forall in Hall. apply Forall_forall.
      intros z [Hz _]%elem_of_filter_bool. by apply Hall.
    + simpl. rewrite IH. destruct (p y), (p x); simpl; try done.
      destruct (Z.leb_spec (Note.updatedAt y - Note.updatedAt x) 0); [lia|done].
Qed.

(** Filtering a sorted list is sorting the filtered list. *)
Lemma filter_sort p l :
  List.filter p (JS.sort by_updatedAt l) = JS.sort by_updatedAt (List.filter p l).
Proof.
  induction l as [|x l IH]; simpl; [done|].
  rewrite filter_sort_insert by apply sort_newer_first.
  rewrite IH. by destruct (p x).
Qed.

Lemma trashNotes_elem ns n :
  n ∈ trashNotes ns <-> n ∈ ns /\ Note.isDeleted n = Some true.
Proof.
  unfold trashNotes. rewrite sort_Permutation, elem_of_filter_bool.
  unfold Note.deleted. destruct (Note.isDeleted n) as [[|]|]; naive_solver.
Qed.

Lemma displayed_not_deleted toLowerCase v folderId tag query n :
  displayed toLowerCase v folderId tag query n = true -> Note.deleted n = false.
Proof.
  unfold displayed. rewrite !andb_true_iff, negb_true_iff. tauto.
Qed.

Lemma displayed_set_isDeleted toLowerCase v folderId tag query n :
  displayed toLowerCase v folderId tag query (Note.set_isDeleted true n) = false.
Proof. done. Qed.

Section Trash.

Variable toLowerCase : jsstring -> jsstring.
Hypothesis toLowerCase_empty : toLowerCase [] = [].
Variable stringify_notes : list Note.t -> jsstring.

Local Abbreviation listed ns v folderId tag query :=
(filteredNotes toLowerCase ns v folderId tag query).

Local Abbreviation other id := (fun n : Note.t => negb (bool_decide (Note.id n = id))).

(** X3.  Moving a note to the trash takes it, and nothing else, off
  every list: in any view, with any filter and search, the list after
  [deleteNote] is the list before without the notes of that
  identifier, in the same order.  The notes of that identifier are in
  the trash list, and the collection keeps its length and the order of
  its identifiers. *)
Theorem deleteNote_hides id st v folderId tag query :
let st' := deleteNote stringify_notes id st in
listed (notes st') v folderId tag query
= List.filter (other id) (listed (notes st) v folderId tag query)
/\ (forall n, n ∈ notes st -> Note.id n = id ->
              Note.set_isDeleted true n ∈ trashNotes (notes st'))
/\ (forall n, n ∈ listed (notes st') v folderId tag query -> Note.id n <> id)
/\ map Note.id (notes st') = map Note.id (notes st).
Proof.
intros st'.
assert (listed (notes st') v folderId tag query
        = List.filter (other id) (listed (notes st) v folderId tag query))
  as Hlist.
{ rewrite !filteredNotes_unfold by done. rewrite filter_sort. f_equal.
  rewrite filter_filter_bool. subst st'. unfold deleteNote. simpl.
  induction (notes st) as [|n ns IH]; simpl; [done|].
  rewrite IH. destruct (bool_decide (Note.id n = id)); simpl.
  - by rewrite andb_false_r.
  - by rewrite andb_true_r. }
split_and!.
- done.
- intros n Hn Hid. apply trashNotes_elem. split; [|done].
  subst st'. unfold deleteNote. simpl. apply list_elem_of_fmap.
  exists n. by rewrite bool_decide_eq_true_2.
- intros n. rewrite Hlist. intros [_ Hn]%elem_of_filter_bool.
  apply negb_true_iff in Hn. by apply bool_decide_eq_false in Hn.
- subst st'. unfold deleteNote. simpl. rewrite map_map.
  apply map_ext. intros n. by destruct (bool_decide _).
Qed.


(** X5.  The list outside the trash and the trash list share out the
  collection: together they hold every note exactly once, the trash
  list the notes marked deleted and the other list the rest, each
  ordered by [updatedAt] with the latest first. *)
Theorem lists_partition_notes ns :
listed ns home None None [] ++ trashNotes ns ≡ₚ ns
/\ (forall n, n ∈ trashNotes ns <-> n ∈ ns /\ Note.isDeleted n = Some true)
/\ (forall n, n ∈ listed ns home None None [] <->
              n ∈ ns /\ Note.isDeleted n <> Some true)
/\ StronglySorted newer_first (trashNotes ns)
/\ (length (listed ns home None None []) + length (trashNotes ns) = length ns)%nat.
Proof using Type.
clear toLowerCase_empty stringify_notes.
assert (listed ns home None None [] ++ trashNotes ns ≡ₚ ns) as Hperm.
{ unfold filteredNotes, trashNotes. simpl. rewrite !sort_Permutation.
  induction ns as [|n ns IH]; simpl; [done|].
  destruct (Note.deleted n); simpl.
  - rewrite <- Permutation_middle. by constructor.
  - by constructor. }
split_and!.
- done.
- apply trashNotes_elem.
- intros n. unfold filteredNotes. simpl.
  rewrite sort_Permutation, elem_of_filter_bool, negb_true_iff.
  unfold Note.deleted. destruct (Note.isDeleted n) as [[|]|]; intuition congruence.
- apply sort_newer_first.
- rewrite <- length_app. by apply Permutation_length.
Qed.

(** X6.  Emptying the trash changes no list outside the trash, in any
  view, and leaves the trash list empty; removing one note for good
  removes the notes of that identifier from every list and from the
  trash and nothing else. *)
Theorem purge_keeps_lists st v folderId tag query :
listed (notes (emptyTrash stringify_notes st)) v folderId tag query
= listed (notes st) v folderId tag query
/\ trashNotes (notes (emptyTrash stringify_notes st)) = []
/\ (forall id,
      let st' := permanentlyDeleteNote stringify_notes id st in
      listed (notes st') v folderId tag query
      = List.filter (other id) (listed (notes st) v folderId tag query)
      /\ trashNotes (notes st') = List.filter (other id) (trashNotes (notes st))
      /\ forall n, n ∈ notes st' <-> n ∈ notes st /\ Note.id n <> id).
Proof.
split_and!.
- rewrite !filteredNotes_unfold by done. f_equal.
  unfold emptyTrash. simpl. rewrite filter_filter_bool.
  apply filter_ext. intros n. unfold displayed.
  by destruct (negb (Note.deleted n)).
- unfold trashNotes, emptyTrash. simpl. rewrite filter_filter_bool.
  assert (List.filter (fun n => negb (Note.deleted n) && Note.deleted n) (notes st)
          = []) as ->; [|done].
  induction (notes st) as [|n ns IH]; simpl; [done|].
  by destruct (Note.deleted n).
- intros id st'. subst st'. unfold permanentlyDeleteNote. simpl. split_and!.
  + rewrite !filteredNotes_unfold by done. rewrite filter_sort. f_equal.
    rewrite !filter_filter_bool. apply filter_ext. intros n.
    apply andb_comm.
  + unfold trashNotes. rewrite filter_sort. f_equal.
    rewrite !filter_filter_bool. apply filter_ext. intros n. apply andb_comm.
  + intros n. rewrite elem_of_filter_bool, negb_true_iff, bool_decide_eq_false.
    done.
Qed.

End Trash.

(** ** Counts and the tag index *)



Local Abbreviation bump :=
  (fun (counts : gmap (list N) Z) (fid : list N) =>
     <[fid := default 0 (counts !! fid) + 1]> counts).

Local Abbreviation count_in fid ids :=
  (Z.of_nat (length (List.filter (fun x : list N => bool_decide (x = fid)) ids))).



Local Abbreviation count_note :=
  (fun (counts : gmap (list N) Z) (n : Note.t) =>
     if negb (Note.deleted n) then fold_left bump (Note.folderIds n) counts
     else counts).










Section Counts.

Variable toLowerCase : jsstring -> jsstring.


(** X9.  The tag view lists each tag once, and lists exactly the tags of
  the notes outside the trash; every tag it lists has a count of at
  least one. *)
Theorem allTags_exact ns :
NoDup (allTags ns)
/\ (forall tag,
      tag ∈ allTags ns <->
      exists n, n ∈ ns /\ Note.isDeleted n <> Some true /\ tag ∈ Note.tags n)
/\ (forall tag, tag ∈ allTags ns <-> (1 <= tagCount ns tag)%nat).
Proof.
assert (forall tag,
          tag ∈ allTags ns <->
          exists n, n ∈ ns /\ Note.deleted n = false /\ tag ∈ Note.tags n)
  as Hmem.
{ intros tag. unfold allTags.
  rewrite elem_of_set_of_array, list_elem_of_In, in_flat_map. split.
  - intros (n & Hn & Htag). apply filter_In in Hn as [Hn Hd].
    apply (proj2 (list_elem_of_In _ _)) in Hn.
    apply (proj2 (list_elem_of_In _ _)) in Htag.
    exists n. by apply negb_true_iff in Hd.
  - intros (n & Hn & Hd & Htag). exists n.
    apply list_elem_of_In in Hn, Htag.
    rewrite filter_In, negb_true_iff. done. }
split_and!.
- apply NoDup_set_of_array.
- intros tag. rewrite Hmem. split; intros (n & Hn & Hd & Ht); exists n;
    (split_and!; [done| |done]); unfold Note.deleted in *;
    by destruct (Note.isDeleted n) as [[|]|].
- intros tag. rewrite Hmem. unfold tagCount. split.
  + intros (n & Hn & Hd & Ht).
    assert (n ∈ List.filter
              (fun n => negb (Note.deleted n) && JS.arr_includes (Note.tags n) tag)
              ns) as Hin.
    { apply elem_of_filter_bool. split; [done|].
      rewrite Hd. by apply arr_includes_true. }
    destruct (List.filter _ ns); [by apply elem_of_nil in Hin|simpl; lia].
  + destruct (List.filter _ ns) as [|n l] eqn:E; simpl; [lia|]. intros _.
    assert (n ∈ List.filter
              (fun n => negb (Note.deleted n) && JS.arr_includes (Note.tags n) tag)
              ns) as Hin by (rewrite E; by left).
    apply elem_of_filter_bool in Hin as [Hn Hp].
    apply andb_true_iff in Hp as [Hd Ht].
    exists n. split_and!; [done|by apply negb_true_iff|by apply arr_includes_true].
Qed.


End Counts.

(** ** The inputs of the editor *)

Lemma trimStart_spaces sp s : all_space sp -> JS.trimStart (sp ++ s) = JS.trimStart s.
Proof. induction 1 as [|c sp Hc _ IH]; simpl; [done|]. by rewrite Hc. Qed.

Lemma trimStart_all_space sp : all_space sp -> JS.trimStart sp = [].
Proof. intros H. rewrite <- (app_nil_r sp). by rewrite trimStart_spaces. Qed.

Lemma trimStart_keeps c s : JS.is_space c = false -> JS.trimStart (c :: s) = c :: s.
Proof. intros H. simpl. by rewrite H. Qed.

(** [trim] takes the whitespace off both ends of a string that itself
    neither starts nor ends in whitespace. *)
Lemma trim_padded sp1 s sp2 :
  all_space sp1 -> all_space sp2 ->
  (forall c s', s = c :: s' -> JS.is_space c = false) ->
  (forall s' c, s = s' ++ [c] -> JS.is_space c = false) ->
  JS.trim (sp1 ++ s ++ sp2) = s.
Proof.
  intros H1 H2 Hfirst Hlast. unfold JS.trim, JS.trimEnd.
  rewrite trimStart_spaces by done.
  destruct s as [|c s'].
  - simpl. rewrite (trimStart_all_space sp2) by done. done.
  - simpl. rewrite (Hfirst c s' eq_refl).
    change (c :: s' ++ sp2) with ((c :: s') ++ sp2).
    rewrite reverse_app, (trimStart_spaces (reverse sp2))
      by (by apply Forall_reverse).
    destruct (exists_last (l := c :: s')) as (s0 & d & Hs); [done|].
    rewrite Hs, reverse_app, reverse_singleton. simpl.
    rewrite (Hlast s0 d Hs). simpl.
    rewrite reverse_cons, reverse_involutive. done.
Qed.

Lemma name_first_not_space name c s' :
  name_chars name -> name = c :: s' -> JS.is_space c = false.
Proof. intros H ->. apply name_char_not_space. by inversion H. Qed.

Lemma name_last_not_space name s' c :
  name_chars name -> name = s' ++ [c] -> JS.is_space c = false.
Proof.
  intros H ->. apply name_char_not_space.
  apply Forall_app in H as [_ H]. by inversion H.
Qed.

Lemma trim_padded_name sp1 sigil (signed : bool) name sp2 :
  all_space sp1 -> all_space sp2 -> JS.is_space sigil = false ->
  name <> [] -> name_chars name ->
  JS.trim (sp1 ++ ((if signed then [sigil] else []) ++ name) ++ sp2)
  = (if signed then [sigil] else []) ++ name.
Proof.
  intros H1 H2 Hsig Hne Hname. apply trim_padded; try done.
  - intros c s'. destruct signed; simpl.
    + by intros [= <- _].
    + by apply name_first_not_space.
  - intros s' c. destruct (exists_last Hne) as (n0 & d & ->).
    rewrite app_assoc. intros [_ <-]%app_inj_tail.
    by apply (name_last_not_space (n0 ++ [d]) n0).
Qed.

Lemma commit_keys key :
  is_commit_key key = true <-> key = js "Enter" \/ key = js " " \/ key = js ",".
Proof.
  unfold is_commit_key. rewrite !orb_true_iff, !bool_decide_eq_true. tauto.
Qed.

Section Inputs.

Variable toLowerCase : jsstring -> jsstring.
Variable stringify_folders : list Folder.t -> jsstring.

Local Abbreviation onChange := (handleContentChange toLowerCase stringify_folders).
Local Abbreviation onFolderKey :=
(handleFolderInputKeyDown toLowerCase stringify_folders).
Local Abbreviation onTagKey := (handleTagKeyDown toLowerCase).

Lemma find_app_none {A} (p : A -> bool) l k :
List.find p l = None -> List.find p (l ++ k) = List.find p k.
Proof.
induction l as [|x l IH]; simpl; [done|]. destruct (p x); [done|]. apply IH.
Qed.

(** The folder that a name resolves to is the one that the same name,
  typed in another case, resolves to afterwards, and no new folder is
  made for it. *)
Lemma findOrCreateFolder_again name1 name2 uuid1 uuid2 st :
toLowerCase name1 = toLowerCase name2 ->
let r1 := findOrCreateFolder toLowerCase stringify_folders name1 uuid1 st in
findOrCreateFolder toLowerCase stringify_folders name2 uuid2 (snd r1)
= (fst r1, snd r1).
Proof.
intros Hcase r1. subst r1. unfold findOrCreateFolder.
assert (forall fs, findFolderByName toLowerCase name2 fs
                   = findFolderByName toLowerCase name1 fs) as Hsame.
{ intros fs. unfold findFolderByName. by rewrite Hcase. }
destruct (findFolderByName toLowerCase name1 (folders st)) as [f|] eqn:Hfind; simpl.
- by rewrite Hsame, Hfind.
- rewrite Hsame. unfold findFolderByName in *.
  rewrite find_app_none by done. simpl.
  by rewrite bool_decide_eq_true_2.
Qed.

(** X11.  Typing a folder trigger a second time, in whatever case,
  changes neither the folders nor the note's folder identifiers: the
  second pass finds the folder that the first pass found or made. *)
Theorem folder_trigger_twice pre1 name1 ws1 uuid1 pre2 name2 ws2 uuid2 st ed :
name1 <> [] -> name_chars name1 -> JS.is_space ws1 = true ->
name2 <> [] -> name_chars name2 -> JS.is_space ws2 = true ->
toLowerCase name1 = toLowerCase name2 ->
let first := onChange (pre1 ++ JS.AT :: name1 ++ [ws1]) uuid1 st ed in
let second := onChange (pre2 ++ JS.AT :: name2 ++ [ws2]) uuid2
                       (fst first) (snd first) in
fst second = fst first
/\ manualFolderIds (snd second) = manualFolderIds (snd first)
/\ manualTags (snd second) = manualTags (snd first)
/\ content (snd second) = pre2.
Proof.
intros Hne1 Hn1 Hws1 Hne2 Hn2 Hws2 Hcase first second. subst first second.
rewrite !onChange_folder by done.
pose proof (findOrCreateFolder_again name1 name2 uuid1 uuid2 st Hcase) as Hagain.
simpl in Hagain.
destruct (findOrCreateFolder toLowerCase stringify_folders name1 uuid1 st)
  as [target st1]. simpl in *. rewrite Hagain. simpl.
assert (JS.arr_includes
          (manualFolderIds
             (if negb (JS.arr_includes (manualFolderIds ed) (Folder.id target))
              then set_manualFolderIds (manualFolderIds ed ++ [Folder.id target]) ed
              else ed)) (Folder.id target) = true) as Hin.
{ apply arr_includes_true. destruct (JS.arr_includes _ _) eqn:E; simpl.
  - by apply arr_includes_true.
  - apply elem_of_app. right. by left. }
rewrite Hin. simpl. by split_and!.
Qed.

(** X12.  Committing a name through the folder input, with or without a
  leading ['@'] and with whitespace around it, does to the folders and
  to the note's folder identifiers what typing ['@name '] into the text
  does; it clears the input and leaves content and tags alone. *)
Theorem folder_input_as_trigger key sp1 (signed : bool) name sp2 pre ws uuid st ed :
is_commit_key key = true ->
all_space sp1 -> all_space sp2 ->
name <> [] -> name_chars name -> JS.is_space ws = true ->
folderInputValue ed = sp1 ++ ((if signed then [JS.AT] else []) ++ name) ++ sp2 ->
let viaInput := onFolderKey key uuid st ed in
let viaText := onChange (pre ++ JS.AT :: name ++ [ws]) uuid st ed in
fst viaInput = fst viaText
/\ manualFolderIds (snd viaInput) = manualFolderIds (snd viaText)
/\ folderInputValue (snd viaInput) = []
/\ content (snd viaInput) = content ed
/\ manualTags (snd viaInput) = manualTags ed.
Proof.
intros Hkey H1 H2 Hne Hname Hws Hinput viaInput viaText.
subst viaInput viaText. rewrite onChange_folder by done.
unfold handleFolderInputKeyDown. rewrite Hkey, Hinput.
rewrite trim_padded_name by done.
assert (JS.truthy ((if signed then [JS.AT] else []) ++ name) = true) as ->.
{ destruct signed; [done|]. by destruct name. }
assert ((if JS.startsWith ((if signed then [JS.AT] else []) ++ name) [JS.AT]
         then JS.slice_from ((if signed then [JS.AT] else []) ++ name) 1
         else (if signed then [JS.AT] else []) ++ name) = name) as ->.
{ destruct signed; simpl.
  - unfold JS.slice_from, JS.slice_index. simpl. by destruct (length name).
  - destruct name as [|c name']; [done|]. simpl.
    destruct (N.eqb_spec c JS.AT) as [->|_]; [|done]. by inversion Hname. }
assert (JS.truthy name = true) as -> by by destruct name.
simpl. destruct (findOrCreateFolder _ _ _ _ _) as [target st']. simpl.
by destruct (negb _).
Qed.

(** X13.  Committing a name through the tag input, with or without a
  leading ['#'] and with whitespace around it, adds the tag that typing
  ['#name '] into the text adds, and clears the input. *)
Theorem tag_input_as_trigger key sp1 (signed : bool) name sp2 pre ws uuid st ed :
is_commit_key key = true ->
all_space sp1 -> all_space sp2 ->
name <> [] -> name_chars name -> JS.is_space ws = true ->
toLowerCase name <> [] ->
tagInput ed = sp1 ++ ((if signed then [JS.HASH] else []) ++ name) ++ sp2 ->
let viaInput := onTagKey key ed in
let viaText := onChange (pre ++ JS.HASH :: name ++ [ws]) uuid st ed in
manualTags viaInput = manualTags (snd viaText)
/\ toLowerCase name ∈ manualTags viaInput
/\ tagInput viaInput = []
/\ manualFolderIds viaInput = manualFolderIds ed
/\ content viaInput = content ed.
Proof.
intros Hkey H1 H2 Hne Hname Hws Hlower Hinput viaInput viaText.
subst viaInput viaText. rewrite onChange_tag by done.
unfold handleTagKeyDown. rewrite Hkey, Hinput.
rewrite trim_padded_name by done.
assert (stripLeadingHash ((if signed then [JS.HASH] else []) ++ name) = name)
  as ->.
{ destruct signed; simpl; [done|].
  destruct name as [|c name']; [done|]. simpl.
  destruct (N.eqb_spec c JS.HASH) as [->|_]; [|done]. by inversion Hname. }
assert (JS.truthy (toLowerCase name) = true) as ->
  by by destruct (toLowerCase name).
simpl. destruct (JS.arr_includes _ _) eqn:E; simpl; split_and!; try done.
- by apply arr_includes_true.
- apply elem_of_app. right. by left.
Qed.

(** X14.  A blank folder input commits nothing: when the input holds
  only whitespace, around a lone ['@'] or around nothing, no key changes
  the folders or the editor; and a key other than Enter, space and comma
  changes nothing whatever the input holds. *)
Theorem folder_input_blank key uuid st ed :
(forall sp1 sp2 (signed : bool),
    all_space sp1 -> all_space sp2 ->
    folderInputValue ed = sp1 ++ (if signed then [JS.AT] else []) ++ sp2 ->
    onFolderKey key uuid st ed = (st, ed))
/\ (key <> js "Enter" -> key <> js " " -> key <> js "," ->
    onFolderKey key uuid st ed = (st, ed)).
Proof.
split.
- intros sp1 sp2 signed H1 H2 Hinput. unfold handleFolderInputKeyDown.
  destruct (is_commit_key key); [|done]. rewrite Hinput.
  destruct signed.
  + rewrite (trim_padded sp1 [JS.AT] sp2); try done.
    * by intros c s' [= <- _].
    * intros [|? [|? ?]] c; by intros [= <-].
  + rewrite (trim_padded sp1 [] sp2); try done.
    intros [|? ?] c; done.
- intros HE HS HC. unfold handleFolderInputKeyDown.
  destruct (is_commit_key key) eqn:Hk; [|done].
  apply commit_keys in Hk. naive_solver.
Qed.

(** X15.  Backspace in the empty tag input takes the last manual tag
  away and nothing else; so it undoes the commit of a tag that was not
  there before. *)
Theorem tag_backspace_undoes key ed :
(tagInput ed = [] ->
 forall l t, manualTags ed = l ++ [t] ->
             manualTags (onTagKey (js "Backspace") ed) = l)
/\ (tagInput ed <> [] -> onTagKey (js "Backspace") ed = ed)
/\ (is_commit_key key = true ->
    let val := toLowerCase (stripLeadingHash (JS.trim (tagInput ed))) in
    val <> [] -> val ∉ manualTags ed ->
    manualTags (onTagKey key ed) = manualTags ed ++ [val]
    /\ manualTags (onTagKey (js "Backspace") (onTagKey key ed)) = manualTags ed).
Proof.
assert (forall l (t : list N), JS.slice (l ++ [t]) 0 (-1) = l) as Hslice.
{ intros l t. unfold JS.slice, JS.slice_index. simpl.
  rewrite length_app. simpl. rewrite drop_0, Nat.sub_0_r.
  replace (Z.to_nat (Z.max (Z.of_nat (length l + 1) + -1) 0)) with (length l) by lia.
  by rewrite take_app_length. }
split_and!.
- intros Hinput l t Htags. unfold handleTagKeyDown. simpl.
  rewrite Hinput, Htags. simpl. rewrite length_app. simpl.
  destruct (Z.ltb_spec 0 (Z.of_nat (length l + 1))); [|lia]. simpl.
  apply Hslice.
- intros Hinput. unfold handleTagKeyDown. simpl.
  by destruct (tagInput ed).
- intros Hkey val Hval Hnew. subst val.
  assert (manualTags (onTagKey key ed)
          = manualTags ed ++ [toLowerCase (stripLeadingHash (JS.trim (tagInput ed)))]
          /\ tagInput (onTagKey key ed) = []) as [Hadd Hclear].
  { unfold handleTagKeyDown. rewrite Hkey.
    destruct (toLowerCase _) as [|c v] eqn:E; [done|]. simpl.
    apply arr_includes_false in Hnew. by rewrite Hnew. }
  split; [done|].
  unfold handleTagKeyDown at 1. simpl. rewrite Hclear, Hadd. simpl.
  rewrite length_app. simpl.
  destruct (Z.ltb_spec 0 (Z.of_nat (length (manualTags ed) + 1))); [|lia].
  simpl. apply Hslice.
Qed.

(** X16.  Toggling a folder while editing flips whether the note is in
  that folder and touches no other folder of the note; toggling a folder
  that the note is not in, twice, changes nothing; outside editing a
  toggle does nothing. *)
Theorem toggleFolder_flips id ed :
(isEditing ed = false -> toggleFolder id ed = ed)
/\ (isEditing ed = true ->
    (id ∈ manualFolderIds (toggleFolder id ed) <-> id ∉ manualFolderIds ed)
    /\ (forall other, other <> id ->
          (other ∈ manualFolderIds (toggleFolder id ed)
           <-> other ∈ manualFolderIds ed))
    /\ (id ∉ manualFolderIds ed ->
        manualFolderIds (toggleFolder id (toggleFolder id ed))
        = manualFolderIds ed)
    /\ manualTags (toggleFolder id ed) = manualTags ed
    /\ content (toggleFolder id ed) = content ed).
Proof using Type.
clear toLowerCase stringify_folders.
split.
- intros Hed. unfold toggleFolder. by rewrite Hed.
- intros Hed.
  assert (forall l : list (list N),
            List.filter (fun fid => negb (bool_decide (fid = id))) (l ++ [id])
            = List.filter (fun fid => negb (bool_decide (fid = id))) l) as Hdrop.
  { intros l. rewrite List.filter_app. simpl.
    rewrite bool_decide_eq_true_2 by done. apply app_nil_r. }
  assert (forall l : list (list N),
            id ∉ l ->
            List.filter (fun fid => negb (bool_decide (fid = id))) l = l) as Hkeep.
  { induction l as [|x l IH]; intros Hnot; simpl; [done|].
    rewrite bool_decide_eq_false_2 by (intros ->; apply Hnot; by left).
    simpl. rewrite IH; [done|]. intros ?. apply Hnot. by right. }
  unfold toggleFolder. rewrite Hed. simpl.
  destruct (JS.arr_includes (manualFolderIds ed) id) eqn:E; simpl.
  + apply arr_includes_true in E. split_and!; try done.
    * rewrite elem_of_filter_bool, negb_true_iff, bool_decide_eq_false.
      intuition congruence.
    * intros other Hother.
      rewrite elem_of_filter_bool, negb_true_iff, bool_decide_eq_false.
      intuition congruence.
  + apply arr_includes_false in E. split_and!; try done.
    * rewrite elem_of_app, list_elem_of_singleton. intuition congruence.
    * intros other Hother. rewrite elem_of_app, list_elem_of_singleton.
      intuition congruence.
    * intros _. rewrite Hed. simpl.
      assert (JS.arr_includes (manualFolderIds ed ++ [id]) id = true) as ->.
      { apply arr_includes_true, elem_of_app. right. by left. }
      simpl. by rewrite Hdrop, Hkeep.
Qed.

End Inputs.

(** * Removing a tag *)

(** X27.  The button on a tag chip removes the tag from the manual tags
    only: the tag leaves the note's final tags unless the text still
    derives it, and every other tag stays.  Outside editing the button
    does nothing. *)
Theorem removeTag_spares_derived t ed :
  (isEditing ed = false -> removeTag t ed = ed)
  /\ (isEditing ed = true ->
      (forall u, u ∈ finalTags (removeTag t ed) <->
                 u ∈ finalTags ed /\ (u <> t \/ u ∈ derivedTags ed))
      /\ (t ∈ finalTags (removeTag t ed) <-> t ∈ derivedTags ed)
      /\ NoDup (finalTags (removeTag t ed))
      /\ derivedTags (removeTag t ed) = derivedTags ed
      /\ content (removeTag t ed) = content ed
      /\ manualFolderIds (removeTag t ed) = manualFolderIds ed).
Proof.
  unfold removeTag. split; intros Hed; rewrite Hed; simpl; [done|].
  set (ed' := set_manualTags _ ed).
  assert (forall u, u ∈ finalTags ed' <->
                    u ∈ finalTags ed /\ (u <> t \/ u ∈ derivedTags ed)) as Hall.
  { intros u.
    rewrite (proj2 (finalTags_union ed') u), (proj2 (finalTags_union ed) u).
    unfold ed'. simpl.
    rewrite elem_of_filter_bool, negb_true_iff, bool_decide_eq_false. tauto. }
  split_and!; try done.
  - rewrite Hall, (proj2 (finalTags_union ed) t). tauto.
  - apply finalTags_union.
Qed.

(** ** Saving, reopening, creating *)

Lemma fold_set_add_absorb (d l : list (list N)) :
  (forall x, x ∈ d -> x ∈ l) -> fold_left JS.set_add d l = l.
Proof.
  induction d as [|x d IH]; intros Hsub; simpl; [done|].
  assert (JS.set_add l x = l) as ->.
  { unfold JS.set_add. rewrite (proj2 (set_has_true l x)); [done|].
    apply Hsub. by left. }
  apply IH. intros y Hy. apply Hsub. by right.
Qed.

Lemma set_of_array_absorb (l d : list (list N)) :
  NoDup l -> (forall x, x ∈ d -> x ∈ l) -> JS.set_of_array (l ++ d) = l.
Proof.
  intros Hl Hsub. unfold JS.set_of_array. rewrite fold_left_app.
  change (fold_left JS.set_add l []) with (JS.set_of_array l).
  rewrite set_of_array_NoDup by done. by apply fold_set_add_absorb.
Qed.

Lemma saveNote_stores (stringify_notes : list Note.t -> jsstring) note st :
  note ∈ notes (saveNote stringify_notes note st).
Proof.
  unfold saveNote. simpl.
  destruct (findIndex_spec (fun n => bool_decide (Note.id n = Note.id note))
                           (notes st))
    as [[-> _]|(i & x & -> & Hi & _)]; simpl.
  - by left.
  - destruct (Z.leb_spec 0 (Z.of_nat i)); [|lia]. rewrite Nat2Z.id.
    apply list_elem_of_lookup. exists i.
    apply list_lookup_insert_eq. by apply lookup_lt_Some in Hi.
Qed.

Lemma bulk_delete_notes (stringify_notes : list Note.t -> jsstring) ids st :
  notes (fold_left (fun st id => deleteNote stringify_notes id st) ids st)
  = map (fun n => if bool_decide (Note.id n ∈ ids)
                  then Note.set_isDeleted true n else n) (notes st).
Proof.
  revert st. induction ids as [|id ids IH]; intros st; simpl.
  - rewrite <- (map_id (notes st)) at 1. apply map_ext. intros n.
    done.
  - rewrite IH. unfold deleteNote. simpl. rewrite map_map.
    apply map_ext. intros n.
    destruct (decide (Note.id n = id)) as [Hid|Hid].
    + rewrite (bool_decide_eq_true_2 (Note.id n = id)) by done.
      rewrite (bool_decide_eq_true_2 (Note.id n ∈ id :: ids))
        by (rewrite Hid; by left).
      simpl. by destruct (bool_decide _).
    + rewrite (bool_decide_eq_false_2 (Note.id n = id)) by done.
      destruct (decide (Note.id n ∈ ids)) as [Hin|Hnot].
      * rewrite !bool_decide_eq_true_2; [done|by right|done].
      * rewrite !bool_decide_eq_false_2; [done| |done].
        intros [?|?]%elem_of_cons; done.
Qed.

Section Saving.

Variable toLowerCase : jsstring -> jsstring.
Variable stringify_notes : list Note.t -> jsstring.
Variable stringify_folders : list Folder.t -> jsstring.

(** X17.  A save stores a note with the editor's content, folders and
  final tags, a new [updatedAt] and an empty title, and keeps the
  identifier, the creation time, the summary and the deletion flag.
  Opening the saved note again gives an editor with the same content,
  folders and final tags: saving again without a change stores the same
  folders and tags. *)
Theorem save_then_reopen note now st ed :
derivedTags ed = parseMetadataFromText toLowerCase (content ed) ->
exists saved,
  saved ∈ notes (handleSave stringify_notes note now st ed)
  /\ Note.id saved = Note.id note
  /\ Note.title saved = []
  /\ Note.content saved = content ed
  /\ Note.folderIds saved = manualFolderIds ed
  /\ Note.tags saved = finalTags ed
  /\ Note.updatedAt saved = now
  /\ Note.createdAt saved = Note.createdAt note
  /\ Note.summary saved = Note.summary note
  /\ Note.isDeleted saved = Note.isDeleted note
  /\ content (mountEditor toLowerCase saved) = content ed
  /\ manualFolderIds (mountEditor toLowerCase saved) = manualFolderIds ed
  /\ manualTags (mountEditor toLowerCase saved) = finalTags ed
  /\ finalTags (mountEditor toLowerCase saved) = finalTags ed
  /\ isEditing (mountEditor toLowerCase saved) = negb (JS.truthy (content ed)).
Proof.
intros Hderived. eexists. split; [apply saveNote_stores|].
simpl. split_and!; try done.
unfold finalTags at 1. simpl. rewrite <- Hderived.
apply set_of_array_absorb; [apply NoDup_set_of_array|].
intros t Ht. apply finalTags_union. by right.
Qed.

(** X18.  Selecting toggles the membership of a note's identifier in the
  selection.  A confirmed bulk delete marks exactly the selected notes
  as deleted, leaves every other note and the order alone, and ends the
  selection. *)
Theorem bulk_delete_exact a :
(forall id,
    (id ∈ selectedNoteIds (toggleSelection id a) <-> id ∉ selectedNoteIds a)
    /\ (forall other, other <> id ->
          (other ∈ selectedNoteIds (toggleSelection id a)
           <-> other ∈ selectedNoteIds a))
    /\ storage (toggleSelection id a) = storage a)
/\ let a' := handleBulkDelete stringify_notes a in
   notes (storage a')
   = map (fun n => if bool_decide (Note.id n ∈ selectedNoteIds a)
                   then Note.set_isDeleted true n else n) (notes (storage a))
   /\ (forall n, n ∈ notes (storage a') -> Note.id n ∈ selectedNoteIds a ->
                 Note.isDeleted n = Some true)
   /\ (forall n, n ∈ notes (storage a) -> Note.id n ∉ selectedNoteIds a ->
                 n ∈ notes (storage a'))
   /\ selectedNoteIds a' = [] /\ isSelectionMode a' = false.
Proof using Type.
clear toLowerCase stringify_folders.
split.
- intros id. unfold toggleSelection.
  destruct (JS.arr_includes (selectedNoteIds a) id) eqn:E; simpl.
  + apply arr_includes_true in E. split_and!; try done.
    * rewrite elem_of_filter_bool, negb_true_iff, bool_decide_eq_false.
      intuition congruence.
    * intros other Hother.
      rewrite elem_of_filter_bool, negb_true_iff, bool_decide_eq_false.
      intuition congruence.
  + apply arr_includes_false in E. split_and!; try done.
    * rewrite elem_of_app, list_elem_of_singleton. intuition congruence.
    * intros other Hother. rewrite elem_of_app, list_elem_of_singleton.
      intuition congruence.
- intros a'. subst a'. unfold handleBulkDelete. simpl.
  rewrite bulk_delete_notes. split_and!; try done.
  + intros n (m & -> & Hm)%list_elem_of_fmap Hsel.
    destruct (bool_decide (Note.id m ∈ selectedNoteIds a)) eqn:E; [done|].
    apply bool_decide_eq_false in E. by destruct E.
  + intros n Hn Hnot. apply list_elem_of_fmap. exists n.
    by rewrite bool_decide_eq_false_2.
Qed.

(** X19.  A new note goes to the front of the collection, empty and
  outside the trash, filed under the folder or the tag that is chosen
  in the current view, so that the list of that view shows it; it
  becomes the active note and its editor opens in editing mode. *)
Theorem createNewNote_opens uuid now a :
uuid <> [] ->
(forall n, n ∈ notes (storage a) -> Note.id n <> uuid) ->
editor a = None ->
let a' := createNewNote stringify_notes uuid now a in
exists created,
  notes (storage a') = created :: notes (storage a)
  /\ Note.id created = uuid /\ Note.content created = []
  /\ Note.isDeleted created = Some false
  /\ Note.createdAt created = now /\ Note.updatedAt created = now
  /\ NoDup (Note.folderIds created) /\ NoDup (Note.tags created)
  /\ displayed toLowerCase (view a) (activeFolderId a) (activeTag a) [] created
     = true
  /\ activeNote a' = Some created
  /\ editor (render toLowerCase a')
     = Some (mkEditor [] (Note.folderIds created) (Note.tags created) [] [] [] true).
Proof.
intros Hne Hfresh Heditor a'. subst a'. unfold createNewNote.
set (created := Note.mk uuid [] [] _ _ None now now (Some false)).
assert (notes (saveNote stringify_notes created (storage a))
        = created :: notes (storage a)) as Hnotes.
{ unfold saveNote. simpl.
  destruct (findIndex_spec (fun n => bool_decide (Note.id n = uuid))
                           (notes (storage a)))
    as [[-> _]|(i & x & _ & Hi & Hx & _)]; [done|].
  apply bool_decide_eq_true in Hx. exfalso.
  apply (Hfresh x); [|done]. apply list_elem_of_lookup. by exists i. }
assert (activeNote
          (set_activeNoteId (Some uuid)
             (set_storage (saveNote stringify_notes created (storage a)) a))
        = Some created) as Hactive.
{ unfold activeNote. simpl activeNoteId. simpl storage.
  destruct uuid as [|c u]; [done|]. cbn [JS.truthy].
  rewrite Hnotes. simpl. by rewrite bool_decide_eq_true_2. }
exists created. split_and!; try done.
- subst created. simpl.
  destruct (bool_decide (view a = folders_view) && _);
    [apply NoDup_singleton|constructor].
- subst created. simpl.
  destruct (bool_decide (view a = tags_view) && _);
    [apply NoDup_singleton|constructor].
- unfold displayed, search_hit. subst created. simpl.
  destruct (view a), (activeFolderId a) as [[|c fid]|],
    (activeTag a) as [[|d t]|]; simpl; try done.
  + rewrite bool_decide_eq_true_2; [done|by left].
  + rewrite bool_decide_eq_true_2; [done|by left].
  + rewrite bool_decide_eq_true_2; [done|by left].
  + rewrite bool_decide_eq_true_2; [done|by left].
  + rewrite bool_decide_eq_true_2; [done|by left].
  + rewrite bool_decide_eq_true_2; [done|by left].
- unfold render. rewrite Hactive. simpl editor. rewrite Heditor. done.
Qed.

End Saving.

(** ** The highlighting overlay *)

Lemma drop_name_run rest : drop (length (JS.name_run rest)) rest = JS.after_name_run rest.
Proof.
  rewrite <- (name_run_after rest) at 2. apply drop_app_length.
Qed.

Lemma splitTokens_concat k pending text :
  concat (splitTokens k pending text) = pending ++ drop k text.
Proof.
  revert k pending. induction text as [|c rest IH]; intros k pending.
  - simpl. by rewrite drop_nil.
  - destruct k as [|k]; simpl; [|apply IH].
    destruct (is_sigil c && JS.truthy (JS.name_run rest)).
    + simpl. rewrite IH, drop_name_run. simpl.
      by rewrite name_run_after.
    + rewrite IH, drop_0, <- app_assoc. done.
Qed.

Lemma splitTokens_tokens k pending text :
  Forall is_token (matched_parts (splitTokens k pending text)).
Proof.
  revert k pending. induction text as [|c rest IH]; intros k pending.
  - constructor.
  - destruct k as [|k]; simpl; [|apply IH].
    destruct (is_sigil c) eqn:Hc; simpl; [|apply IH].
    destruct (JS.name_run rest) as [|d w] eqn:Hrun; simpl; [apply IH|].
    constructor; [|apply IH].
    exists c, (d :: w). split_and!; try done.
    rewrite <- Hrun. apply name_run_chars.
Qed.

Lemma splitTokens_hash_names k pending text :
  hash_names (matched_parts (splitTokens k pending text))
  = matchAll_tags 0 (drop k text).
Proof.
  revert k pending. induction text as [|c rest IH]; intros k pending.
  - simpl. by rewrite drop_nil.
  - destruct k as [|k]; [|apply IH].
    rewrite drop_0, matchAll_tags_cons.
    cbn [splitTokens]. unfold is_sigil.
    destruct (N.eqb_spec c JS.HASH) as [->|Hhash].
    + simpl. destruct (JS.name_run rest) as [|d w] eqn:Hrun; simpl.
      * rewrite IH. by rewrite drop_0.
      * unfold hash_names at 1. simpl. fold (hash_names
          (matched_parts (splitTokens (S (length w)) [] rest))).
        rewrite IH. f_equal.
        change (S (length w)) with (length (d :: w)). rewrite <- Hrun.
        rewrite drop_name_run. rewrite <- (name_run_after rest) at 2.
        by rewrite matchAll_tags_name by apply name_run_chars.
    + rewrite orb_false_r. destruct (N.eqb_spec c JS.AT) as [->|Hat]; simpl.
      * destruct (JS.name_run rest) as [|d w] eqn:Hrun; simpl.
        -- rewrite IH. by rewrite drop_0.
        -- unfold hash_names at 1. simpl. fold (hash_names
             (matched_parts (splitTokens (S (length w)) [] rest))).
           rewrite IH.
           change (S (length w)) with (length (d :: w)). rewrite <- Hrun.
           rewrite drop_name_run. rewrite <- (name_run_after rest) at 2.
           by rewrite matchAll_tags_name by apply name_run_chars.
      * rewrite IH. by rewrite drop_0.
Qed.

(** X20.  The overlay loses no text: the spans of a non-empty text,
    put together, are the text, so that the overlay lines up with the
    text area; the empty text is drawn as one space.  Every match of the
    split is a token, that is a sigil and a non-empty name, and is drawn
    in blue when its sigil is ['@'] and in the primary colour when it is
    ['#']. *)
Theorem renderHighlights_lossless text :
  (text = [] -> renderHighlights text = [(text_main, js " ")])
  /\ (text <> [] ->
      concat (map snd (renderHighlights text)) = text
      /\ map snd (renderHighlights text) = splitTokens 0 [] text
      /\ Forall (fun span => fst span = highlightClass (snd span))
                (renderHighlights text))
  /\ Forall is_token (matched_parts (splitTokens 0 [] text))
  /\ (forall w, highlightClass (JS.AT :: w) = text_blue
                /\ highlightClass (JS.HASH :: w) = text_primary).
Proof.
  split_and!.
  - by intros ->.
  - intros Hne. unfold renderHighlights.
    destruct text as [|c text']; [done|]. cbn [JS.truthy negb].
    rewrite map_map. cbn [snd]. rewrite map_id.
    split_and!; [|done|].
    + by rewrite splitTokens_concat.
    + apply Forall_fmap. by apply Forall_true.
  - apply splitTokens_tokens.
  - done.
Qed.

Section HighlightedTags.

Variable toLowerCase : jsstring -> jsstring.

(** X21.  The tags derived from a text are the names of the ['#']
  tokens that the overlay marks, lower-cased and without repetition: a
  tag is derived exactly where the editor draws one. *)
Theorem derived_tags_are_highlighted text :
hash_names (matched_parts (splitTokens 0 [] text)) = matchAll_tags 0 text
/\ parseMetadataFromText toLowerCase text
   = JS.set_of_array
       (map toLowerCase (hash_names (matched_parts (splitTokens 0 [] text))))
/\ (forall t, t ∈ parseMetadataFromText toLowerCase text <->
              exists w, JS.HASH :: w ∈ matched_parts (splitTokens 0 [] text)
                        /\ t = toLowerCase w).
Proof.
pose proof (splitTokens_hash_names 0 [] text) as Hnames.
rewrite drop_0 in Hnames. split_and!.
- done.
- unfold parseMetadataFromText. by rewrite Hnames.
- intros t. unfold parseMetadataFromText.
  rewrite elem_of_set_of_array, list_elem_of_fmap, <- Hnames.
  unfold hash_names. split.
  + intros (w & -> & Hw). apply list_elem_of_omap in Hw as (tok & Htok & Hsome).
    exists w. split; [|done]. destruct tok as [|c w']; [done|].
    destruct (N.eqb_spec c JS.HASH) as [->|_]; [|done].
    by injection Hsome as ->.
  + intros (w & Hin & ->). exists w. split; [done|].
    apply list_elem_of_omap. exists (JS.HASH :: w). by split.
Qed.

End HighlightedTags.

(** A piece of plain text that begins with a bare sigil is drawn in the
    sigil's colour as a whole. *)
Example bare_sigil_example :
  renderHighlights (js "# not a tag") = [(text_primary, js "# not a tag")]
  /\ map fst (renderHighlights (js "see @work and #todo now"))
     = [text_main; text_blue; text_main; text_primary; text_main].
Proof. split; reflexivity. Qed.

(** ** [stringToColor] *)

Lemma toInt32_range z : - 2 ^ 31 <= toInt32 z < 2 ^ 31.
Proof.
  unfold toInt32. pose proof (Z.mod_pos_bound (z + 2 ^ 31) (2 ^ 32)). lia.
Qed.

Lemma hashStep_bound hash c :
  (c < 65536)%N -> Z.abs (hashStep hash c) <= Z.abs hash + 2 ^ 32.
Proof.
  intros Hc. unfold hashStep.
  pose proof (toInt32_range (Z.shiftl (toInt32 hash) 5)). lia.
Qed.

Lemma colorHash_bound str hash :
  Forall (fun c => (c < 65536)%N) str ->
  Z.abs (fold_left hashStep str hash)
  <= Z.abs hash + Z.of_nat (length str) * 2 ^ 32.
Proof.
  intros Hstr. revert hash.
  induction Hstr as [|c str Hc _ IH]; intros hash; simpl length; simpl fold_left.
  - lia.
  - specialize (IH (hashStep hash c)).
    pose proof (hashStep_bound hash c Hc). lia.
Qed.

(** X22.  For a string of fewer than [2^21] code units the hash stays
    below [2^53] in magnitude, where the arithmetic of numbers is exact;
    and the colour of any string is a valid one: its hue lies in
    [0..359], its saturation in [65..89] and its lightness in [75..89]. *)
Theorem stringToColor_in_range str :
  (Forall (fun c => (c < 65536)%N) str ->
   Z.of_nat (length str) < 2 ^ 21 ->
   Z.abs (colorHash str) < 2 ^ 53)
  /\ 0 <= colorHue (colorHash str) < 360
  /\ 65 <= colorSaturation (colorHash str) < 90
  /\ 75 <= colorLightness (colorHash str) < 90
  /\ stringToColor str
     = js "hsl(" ++ decimal (colorHue (colorHash str)) ++ js ", "
       ++ decimal (colorSaturation (colorHash str)) ++ js "%, "
       ++ decimal (colorLightness (colorHash str)) ++ js "%)".
Proof.
  split.
  { intros Hstr Hlen. unfold colorHash.
    pose proof (colorHash_bound str 0 Hstr). simpl Z.abs in *. lia. }
  unfold colorHue, colorSaturation, colorLightness.
  pose proof (Z.rem_bound_abs (colorHash str) 360 ltac:(done)) as Hhue.
  change (Z.abs 360) with 360 in Hhue.
  pose proof (Z.abs_nonneg (Z.rem (colorHash str) 360)) as Hhue0.
  destruct (Z.rem_bound_pos (Z.abs (colorHash str)) 25) as [Hs1 Hs2];
    [apply Z.abs_nonneg|done|].
  destruct (Z.rem_bound_pos
              (Z.abs (Z.shiftr (toInt32 (colorHash str)) 2)) 15) as [Hl1 Hl2];
    [apply Z.abs_nonneg|done|].
  set (h := Z.abs (Z.rem (colorHash str) 360)) in *.
  set (s := Z.rem (Z.abs (colorHash str)) 25) in *.
  set (l := Z.rem (Z.abs (Z.shiftr (toInt32 (colorHash str)) 2)) 15) in *.
  split_and!; try lia. done.
Qed.

Example stringToColor_example :
  colorHash (js "abc") = 96354
  /\ stringToColor (js "abc") = js "hsl(234, 69%, 88%)".
Proof. split; reflexivity. Qed.

(** ** Loading, again *)

Section Reload.

Variable number : Type.
Variable number_truthy : number -> bool.
Variable JSON_parse : jsstring -> option (value number).

Local Abbreviation migrate := (migrateNote number_truthy).
Local Abbreviation load := (initialize number_truthy JSON_parse).

(** X23.  The migration settles at once: the record it gives is an
  object with an array-valued [folderIds] and an [isDeleted], and
  migrating that record again changes nothing. *)
Theorem migrateNote_settles (props : gmap (list N) (value number)) :
exists props',
  migrate (VObj props) = Ok (VObj props')
  /\ (exists ids, props' !! js "folderIds" = Some (VArr ids))
  /\ is_Some (props' !! js "isDeleted")
  /\ migrate (VObj props') = Ok (VObj props').
Proof.
pose (old := default (@VUndefined number) (props !! js "folderIds")).
pose (legacy := default (@VUndefined number) (props !! js "folderId")).
pose (fids := if isArray old then old
              else if truthy_value number_truthy legacy
                   then VArr [legacy] else VArr []).
pose (del0 := default (@VUndefined number) (props !! js "isDeleted")).
pose (del := if truthy_value number_truthy del0 then del0 else VBool false).
exists (<[js "isDeleted" := del]> (<[js "folderIds" := fids]> props)).
split; [apply migrateNote_object|].
assert (exists ids, fids = VArr ids) as [ids Hids].
{ subst fids. destruct old; simpl;
    first [ by eexists
          | destruct (truthy_value number_truthy legacy); by eexists ]. }
assert (truthy_value number_truthy del = true \/ del = VBool false) as Hdel.
{ subst del. destruct (truthy_value number_truthy del0) eqn:E;
    [by left|by right]. }
assert (<[js "isDeleted" := del]> (<[js "folderIds" := fids]> props)
        !! js "folderIds" = Some fids) as Hl1.
{ rewrite lookup_insert_ne by done. apply lookup_insert_eq. }
assert (<[js "isDeleted" := del]> (<[js "folderIds" := fids]> props)
        !! js "isDeleted" = Some del) as Hl2 by apply lookup_insert_eq.
split_and!.
- exists ids. by rewrite Hl1, Hids.
- by rewrite Hl2.
- rewrite migrateNote_object. rewrite Hl1, Hl2. simpl.
  rewrite Hids. simpl. rewrite <- Hids.
  assert ((if truthy_value number_truthy del then del else VBool false) = del)
    as ->.
  { destruct Hdel as [-> | ->]; done. }
  do 2 f_equal. rewrite (insert_id _ (js "folderIds") fids) by done.
  by rewrite insert_id.
Qed.



(** X25.  After a reset a reload starts afresh: no notes, the default
  folders, the theme ["system"]; the reload writes the empty folder
  collection to the store and nothing else. *)
Theorem reset_then_reload st :
exists l,
  load (localStorage (clearAllData st)) = Ok l
  /\ loaded_notes l = []
  /\ loaded_folders l = VArr []
  /\ loaded_theme l = js "system"
  /\ loaded_storage l = <[FOLDERS_KEY := js "[]"]> (localStorage (clearAllData st))
  /\ loaded_storage l !! NOTES_KEY = None
  /\ loaded_storage l !! THEME_KEY = None
  /\ notes (clearAllData st) = [] /\ folders (clearAllData st) = []
  /\ theme (clearAllData st) = system.
Proof.
destruct keys_distinct as (H1 & H2 & H3).
assert (localStorage (clearAllData st) !! NOTES_KEY = None) as Hn.
{ unfold clearAllData. simpl. rewrite !lookup_delete_ne by done.
  apply lookup_delete_eq. }
assert (localStorage (clearAllData st) !! FOLDERS_KEY = None) as Hf.
{ unfold clearAllData. simpl. rewrite lookup_delete_ne by done.
  apply lookup_delete_eq. }
assert (localStorage (clearAllData st) !! THEME_KEY = None) as Ht.
{ unfold clearAllData. simpl. apply lookup_delete_eq. }
eexists. split.
- unfold initialize. rewrite Hn, Hf, Ht. reflexivity.
- simpl. split_and!; try done.
  + by rewrite lookup_insert_ne.
  + rewrite lookup_insert_ne; [done|]. done.
Qed.


End Reload.

(** * Further worked examples *)



Ltac all_space_tac := unfold all_space; repeat (constructor; try reflexivity).

(** A session from the empty app: the store mirrors the collections at
    its end. *)
Lemma store_mirrors_state_witness :
  let evs := [AddClick (js "n1") 5; EditorChange (js "hi @work ") (js "f1");
              SaveClick 6] in
  let a' := run JS.lower_ascii Demo.stringify_notes Demo.stringify_folders
                Demo.emptyApp evs in
  notes_mirrored Demo.stringify_notes (storage Demo.emptyApp)
  /\ folders_mirrored Demo.stringify_folders (storage Demo.emptyApp)
  /\ notes_mirrored Demo.stringify_notes (storage a')
  /\ folders_mirrored Demo.stringify_folders (storage a').
Proof.
  intros evs a'.
  assert (notes_mirrored Demo.stringify_notes (storage Demo.emptyApp)) as H1
      by (right; split; reflexivity).
  assert (folders_mirrored Demo.stringify_folders (storage Demo.emptyApp)) as H2
      by (right; split; reflexivity).
  pose proof (store_mirrors_state JS.lower_ascii Demo.stringify_notes
                Demo.stringify_folders Demo.emptyApp evs H1 H2) as H.
  cbv zeta in H. destruct H as [Hn Hf].
  split_and!; assumption.
Defined.

(** Creating the folder ["work"] beside ["Groceries"] and deleting it
    again. *)
Lemma createFolder_deleteFolder_witness :
  let groceries := Folder.mk (js "g") (js "Groceries") None None in
  let st := mkStorage [] [groceries] system ∅ in
  (forall f, f ∈ folders st -> Folder.id f <> js "f2")
  /\ folders (deleteFolder Demo.stringify_folders (js "f2")
                (snd (createFolder Demo.stringify_folders (js "work") (js "f2") st)))
     = [groceries].
Proof.
  intros groceries st.
  assert (forall f, f ∈ folders st -> Folder.id f <> js "f2") as H1.
  { intros f Hf. apply list_elem_of_singleton in Hf. rewrite Hf.
    vm_compute. discriminate. }
  split; [assumption|].
  pose proof (createFolder_deleteFolder Demo.stringify_folders (js "work")
                (js "f2") st H1) as H.
  cbv zeta in H. exact (proj1 (proj2 (proj2 (proj2 H)))).
Defined.

(** Moving ["n1"] to the trash: the collection keeps its identifiers and
    the home list no longer shows the note. *)
Lemma deleteNote_hides_witness :
  let n1 := Demo.note "n1" "Buy milk" [] [] 1 false in
  let n2 := Demo.note "n2" "Call mom" [] [] 2 false in
  let st := mkStorage [n1; n2] [] system ∅ in
  let st' := deleteNote Demo.stringify_notes (js "n1") st in
  JS.lower_ascii [] = []
  /\ map Note.id (notes st') = [js "n1"; js "n2"]
  /\ forall n, n ∈ filteredNotes JS.lower_ascii (notes st') home None None [] ->
               Note.id n <> js "n1".
Proof.
  intros n1 n2 st st'.
  assert (JS.lower_ascii [] = []) as H1 by reflexivity.
  pose proof (deleteNote_hides JS.lower_ascii H1 Demo.stringify_notes (js "n1")
                st home None None []) as H.
  cbv zeta in H. destruct H as (_ & _ & Hshown & Hids).
  split_and!; [assumption|exact Hids|exact Hshown].
Defined.


(** Emptying a trash that holds ["n1"]. *)
Lemma purge_keeps_lists_witness :
  let n1 := Demo.note "n1" "Buy milk" [] [] 1 true in
  let n2 := Demo.note "n2" "Call mom" [] [] 2 false in
  let st := mkStorage [n1; n2] [] system ∅ in
  JS.lower_ascii [] = []
  /\ filteredNotes JS.lower_ascii (notes (emptyTrash Demo.stringify_notes st))
                   home None None []
     = [n2]
  /\ trashNotes (notes (emptyTrash Demo.stringify_notes st)) = [].
Proof.
  intros n1 n2 st.
  assert (JS.lower_ascii [] = []) as H1 by reflexivity.
  destruct (purge_keeps_lists JS.lower_ascii H1 Demo.stringify_notes st
              home None None []) as (Hlist & Htrash & _).
  split_and!; [assumption|exact Hlist|exact Htrash].
Defined.




(** ["@Work "] and then ["@work "]: the second pass makes no folder. *)
Lemma folder_trigger_twice_witness :
  let first := handleContentChange JS.lower_ascii Demo.stringify_folders
                 (js "a @Work ") (js "f1") Demo.emptyStorage Demo.emptyEditor in
  let second := handleContentChange JS.lower_ascii Demo.stringify_folders
                  (js "a @work ") (js "f2") (fst first) (snd first) in
  js "Work" <> [] /\ name_chars (js "Work") /\ JS.is_space 32%N = true
  /\ js "work" <> [] /\ name_chars (js "work")
  /\ JS.lower_ascii (js "Work") = JS.lower_ascii (js "work")
  /\ fst second = fst first
  /\ manualFolderIds (snd second) = manualFolderIds (snd first).
Proof.
  intros first second.
  assert (js "Work" <> []) as H1 by discriminate.
  assert (name_chars (js "Work")) as H2 by name_chars_tac.
  assert (JS.is_space 32%N = true) as H3 by reflexivity.
  assert (js "work" <> []) as H4 by discriminate.
  assert (name_chars (js "work")) as H5 by name_chars_tac.
  assert (JS.lower_ascii (js "Work") = JS.lower_ascii (js "work")) as H6
      by reflexivity.
  pose proof (folder_trigger_twice JS.lower_ascii Demo.stringify_folders
                (js "a ") (js "Work") 32%N (js "f1")
                (js "a ") (js "work") 32%N (js "f2")
                Demo.emptyStorage Demo.emptyEditor H1 H2 H3 H4 H5 H3 H6) as H.
  cbv zeta in H. destruct H as (Hst & Hids & _).
  split_and!; [assumption|assumption|assumption|assumption|assumption|assumption
               |exact Hst|exact Hids].
Defined.

(** Enter on the folder input [" @work "] does what typing ["a @work "]
    does. *)
Lemma folder_input_as_trigger_witness :
  let ed := set_folderInputValue (js " @work ") Demo.emptyEditor in
  let viaInput := handleFolderInputKeyDown JS.lower_ascii Demo.stringify_folders
                    (js "Enter") (js "f1") Demo.emptyStorage ed in
  let viaText := handleContentChange JS.lower_ascii Demo.stringify_folders
                   (js "a @work ") (js "f1") Demo.emptyStorage ed in
  is_commit_key (js "Enter") = true /\ all_space (js " ")
  /\ js "work" <> [] /\ name_chars (js "work") /\ JS.is_space 32%N = true
  /\ folderInputValue ed = js " " ++ ([JS.AT] ++ js "work") ++ js " "
  /\ fst viaInput = fst viaText
  /\ manualFolderIds (snd viaInput) = manualFolderIds (snd viaText)
  /\ folderInputValue (snd viaInput) = [].
Proof.
  intros ed viaInput viaText.
  assert (is_commit_key (js "Enter") = true) as H1 by reflexivity.
  assert (all_space (js " ")) as H2 by all_space_tac.
  assert (js "work" <> []) as H3 by discriminate.
  assert (name_chars (js "work")) as H4 by name_chars_tac.
  assert (JS.is_space 32%N = true) as H5 by reflexivity.
  assert (folderInputValue ed = js " " ++ ([JS.AT] ++ js "work") ++ js " ") as H6
      by reflexivity.
  pose proof (folder_input_as_trigger JS.lower_ascii Demo.stringify_folders
                (js "Enter") (js " ") true (js "work") (js " ") (js "a ") 32%N
                (js "f1") Demo.emptyStorage ed H1 H2 H2 H3 H4 H5 H6) as H.
  cbv zeta in H. destruct H as (Hst & Hids & Hinput & _).
  split_and!; [assumption|assumption|assumption|assumption|assumption|assumption
               |exact Hst|exact Hids|exact Hinput].
Defined.

(** A comma on the tag input [" #Work "] adds the tag ["work"], as typing
    ["a #Work "] does. *)
Lemma tag_input_as_trigger_witness :
  let ed := set_tagInput (js " #Work ") Demo.emptyEditor in
  let viaInput := handleTagKeyDown JS.lower_ascii (js ",") ed in
  let viaText := handleContentChange JS.lower_ascii Demo.stringify_folders
                   (js "a #Work ") (js "f1") Demo.emptyStorage ed in
  is_commit_key (js ",") = true /\ all_space (js " ")
  /\ js "Work" <> [] /\ name_chars (js "Work") /\ JS.is_space 32%N = true
  /\ JS.lower_ascii (js "Work") <> []
  /\ tagInput ed = js " " ++ ([JS.HASH] ++ js "Work") ++ js " "
  /\ manualTags viaInput = manualTags (snd viaText)
  /\ JS.lower_ascii (js "Work") ∈ manualTags viaInput
  /\ tagInput viaInput = [].
Proof.
  intros ed viaInput viaText.
  assert (is_commit_key (js ",") = true) as H1 by reflexivity.
  assert (all_space (js " ")) as H2 by all_space_tac.
  assert (js "Work" <> []) as H3 by discriminate.
  assert (name_chars (js "Work")) as H4 by name_chars_tac.
  assert (JS.is_space 32%N = true) as H5 by reflexivity.
  assert (JS.lower_ascii (js "Work") <> []) as H6 by (vm_compute; discriminate).
  assert (tagInput ed = js " " ++ ([JS.HASH] ++ js "Work") ++ js " ") as H7
      by reflexivity.
  pose proof (tag_input_as_trigger JS.lower_ascii Demo.stringify_folders
                (js ",") (js " ") true (js "Work") (js " ") (js "a ") 32%N
                (js "f1") Demo.emptyStorage ed H1 H2 H2 H3 H4 H5 H6 H7) as H.
  cbv zeta in H. destruct H as (Htags & Hin & Hinput & _).
  split_and!; [assumption|assumption|assumption|assumption|assumption|assumption
               |assumption|exact Htags|exact Hin|exact Hinput].
Defined.

(** Enter on the folder input [" @ "] and the key ["a"] on ["work"] do
    nothing. *)
Lemma folder_input_blank_witness :
  let blank := set_folderInputValue (js " @ ") Demo.emptyEditor in
  let typed := set_folderInputValue (js "work") Demo.emptyEditor in
  all_space (js " ")
  /\ folderInputValue blank = js " " ++ [JS.AT] ++ js " "
  /\ js "a" <> js "Enter" /\ js "a" <> js " " /\ js "a" <> js ","
  /\ handleFolderInputKeyDown JS.lower_ascii Demo.stringify_folders
       (js "Enter") (js "f1") Demo.emptyStorage blank
     = (Demo.emptyStorage, blank)
  /\ handleFolderInputKeyDown JS.lower_ascii Demo.stringify_folders
       (js "a") (js "f1") Demo.emptyStorage typed
     = (Demo.emptyStorage, typed).
Proof.
  intros blank typed.
  assert (all_space (js " ")) as H1 by all_space_tac.
  assert (folderInputValue blank = js " " ++ [JS.AT] ++ js " ") as H2
      by reflexivity.
  assert (js "a" <> js "Enter") as H3 by discriminate.
  assert (js "a" <> js " ") as H4 by discriminate.
  assert (js "a" <> js ",") as H5 by discriminate.
  split_and!; try assumption.
  - exact (proj1 (folder_input_blank JS.lower_ascii Demo.stringify_folders
                    (js "Enter") (js "f1") Demo.emptyStorage blank)
                 (js " ") (js " ") true H1 H1 H2).
  - exact (proj2 (folder_input_blank JS.lower_ascii Demo.stringify_folders
                    (js "a") (js "f1") Demo.emptyStorage typed)
                 H3 H4 H5).
Defined.

(** Backspace in the empty tag input of a note tagged ["a"] and ["b"]. *)
Lemma tag_backspace_undoes_witness :
  let ed := set_manualTags [js "a"; js "b"] Demo.emptyEditor in
  tagInput ed = [] /\ manualTags ed = [js "a"] ++ [js "b"]
  /\ manualTags (handleTagKeyDown JS.lower_ascii (js "Backspace") ed) = [js "a"].
Proof.
  intros ed.
  assert (tagInput ed = []) as H1 by reflexivity.
  assert (manualTags ed = [js "a"] ++ [js "b"]) as H2 by reflexivity.
  split_and!; try assumption.
  exact (proj1 (tag_backspace_undoes JS.lower_ascii (js "Enter") ed)
               H1 [js "a"] (js "b") H2).
Defined.

(** Toggling the folder ["g"] twice on a note that is in no folder. *)
Lemma toggleFolder_flips_witness :
  isEditing Demo.emptyEditor = true
  /\ js "g" ∉ manualFolderIds Demo.emptyEditor
  /\ js "g" ∈ manualFolderIds (toggleFolder (js "g") Demo.emptyEditor)
  /\ manualFolderIds (toggleFolder (js "g") (toggleFolder (js "g") Demo.emptyEditor))
     = manualFolderIds Demo.emptyEditor.
Proof.
  assert (isEditing Demo.emptyEditor = true) as H1 by reflexivity.
  assert (js "g" ∉ manualFolderIds Demo.emptyEditor) as H2 by apply not_elem_of_nil.
  destruct (proj2 (toggleFolder_flips (js "g") Demo.emptyEditor) H1)
    as (Hflip & _ & Htwice & _).
  split_and!; [assumption|assumption|exact (proj2 Hflip H2)|exact (Htwice H2)].
Defined.

(** Saving ["Buy milk #errand"] with the manual tag ["x"], and opening
    the saved note. *)
Lemma save_then_reopen_witness :
  let ed := mkEditor (js "Buy milk #errand") [js "g"] [js "x"] [js "errand"]
                     [] [] true in
  let note := Demo.note "n1" "" [] [] 1 false in
  derivedTags ed = parseMetadataFromText JS.lower_ascii (content ed)
  /\ exists saved,
       saved ∈ notes (handleSave Demo.stringify_notes note 7 Demo.emptyStorage ed)
       /\ Note.tags saved = [js "x"; js "errand"]
       /\ Note.updatedAt saved = 7
       /\ finalTags (mountEditor JS.lower_ascii saved) = [js "x"; js "errand"].
Proof.
  intros ed note.
  assert (derivedTags ed = parseMetadataFromText JS.lower_ascii (content ed))
    as H1 by reflexivity.
  split; [assumption|].
  destruct (save_then_reopen JS.lower_ascii Demo.stringify_notes note 7
              Demo.emptyStorage ed H1)
    as (saved & Hin & _ & _ & _ & _ & Htags & Hat & _ & _ & _ & _ & _ & _ & Hfinal & _).
  exists saved. split_and!; [exact Hin|exact Htags|exact Hat|exact Hfinal].
Defined.

(** A bulk delete with ["n1"] selected leaves ["n2"] as it is. *)
Lemma bulk_delete_exact_witness :
  let n1 := Demo.note "n1" "Buy milk" [] [] 1 false in
  let n2 := Demo.note "n2" "Call mom" [] [] 2 false in
  let a := mkApp (mkStorage [n1; n2] [] system ∅) home None None None []
                 true [js "n1"] None in
  n2 ∈ notes (storage a) /\ Note.id n2 ∉ selectedNoteIds a
  /\ n2 ∈ notes (storage (handleBulkDelete Demo.stringify_notes a))
  /\ selectedNoteIds (handleBulkDelete Demo.stringify_notes a) = [].
Proof.
  intros n1 n2 a.
  assert (n2 ∈ notes (storage a)) as H1 by (right; left).
  assert (Note.id n2 ∉ selectedNoteIds a) as H2.
  { intros Hin. apply list_elem_of_singleton in Hin. vm_compute in Hin.
    discriminate Hin. }
  pose proof (proj2 (bulk_delete_exact Demo.stringify_notes a)) as H.
  cbv zeta in H. destruct H as (_ & _ & Hkept & Hsel & _).
  split_and!; [assumption|assumption|exact (Hkept n2 H1 H2)|exact Hsel].
Defined.

(** A new note made in the view of the folder ["g"]. *)
Lemma createNewNote_opens_witness :
  let a := set_view folders_view (set_activeFolderId (Some (js "g")) Demo.emptyApp) in
  let a' := createNewNote Demo.stringify_notes (js "n1") 5 a in
  js "n1" <> []
  /\ (forall n, n ∈ notes (storage a) -> Note.id n <> js "n1")
  /\ editor a = None
  /\ exists created,
       notes (storage a') = [created]
       /\ Note.id created = js "n1"
       /\ displayed JS.lower_ascii folders_view (Some (js "g")) None [] created = true
       /\ activeNote a' = Some created.
Proof.
  intros a a'.
  assert (js "n1" <> []) as H1 by discriminate.
  assert (forall n, n ∈ notes (storage a) -> Note.id n <> js "n1") as H2.
  { intros n Hn. exfalso. revert Hn. apply not_elem_of_nil. }
  assert (editor a = None) as H3 by reflexivity.
  pose proof (createNewNote_opens JS.lower_ascii Demo.stringify_notes (js "n1") 5
                a H1 H2 H3) as H.
  cbv zeta in H.
  destruct H as (created & Hnotes & Hid & _ & _ & _ & _ & _ & _ & Hshown & Hactive & _).
  split_and!; [assumption|assumption|assumption|].
  exists created. split_and!; [exact Hnotes|exact Hid|exact Hshown|exact Hactive].
Defined.

(** The spans of ["x @ab-c #d# e@"] put together are that text. *)
Lemma renderHighlights_lossless_witness :
  js "x @ab-c #d# e@" <> []
  /\ concat (map snd (renderHighlights (js "x @ab-c #d# e@"))) = js "x @ab-c #d# e@"
  /\ map snd (renderHighlights (js "x @ab-c #d# e@"))
     = [js "x "; js "@ab-c"; js " "; js "#d"; js "# e@"].
Proof.
  assert (js "x @ab-c #d# e@" <> []) as H1 by discriminate.
  destruct (proj1 (proj2 (renderHighlights_lossless (js "x @ab-c #d# e@"))) H1)
    as (Hconcat & Hparts & _).
  split_and!; [assumption|exact Hconcat|exact Hparts].
Defined.

(** The hash of ["abc"] is far below [2^53]. *)
Lemma stringToColor_in_range_witness :
  Forall (fun c => (c < 65536)%N) (js "abc")
  /\ Z.of_nat (length (js "abc")) < 2 ^ 21
  /\ Z.abs (colorHash (js "abc")) < 2 ^ 53
  /\ 0 <= colorHue (colorHash (js "abc")) < 360.
Proof.
  assert (Forall (fun c => (c < 65536)%N) (js "abc")) as H1
      by repeat (constructor; try reflexivity).
  assert (Z.of_nat (length (js "abc")) < 2 ^ 21) as H2 by reflexivity.
  destruct (stringToColor_in_range (js "abc")) as (Hexact & Hhue & _).
  split_and!; [assumption|assumption|exact (Hexact H1 H2)|apply Hhue|apply Hhue].
Defined.



(** On a note with the manual tag ["x"] whose text derives ["errand"],
    the button removes ["x"] and cannot remove ["errand"]. *)
Lemma removeTag_spares_derived_witness :
  let ed := mkEditor (js "Buy milk #errand") [] [js "x"; js "errand"]
                     [js "errand"] [] [] true in
  isEditing ed = true
  /\ js "errand" ∈ derivedTags ed
  /\ js "errand" ∈ finalTags (removeTag (js "errand") ed)
  /\ (js "x" ∈ finalTags (removeTag (js "x") ed) <-> js "x" ∈ derivedTags ed).
Proof.
  intros ed.
  assert (isEditing ed = true) as H1 by reflexivity.
  assert (js "errand" ∈ derivedTags ed) as H2 by (left; reflexivity).
  split_and!; try assumption.
  - exact (proj2 (proj1 (proj2 (proj2 (removeTag_spares_derived (js "errand") ed) H1)))
                 H2).
  - exact (proj1 (proj2 (proj2 (removeTag_spares_derived (js "x") ed) H1))).
Defined.
